(** * cf_ai_haiku: the chat front end ([public/chat.js])

    A shallow embedding of the browser script and of the host facilities it
    calls ([JSON.parse], [JSON.stringify], [String.prototype.trim],
    [String.prototype.split], [localStorage], [fetch] and the body reader),
    followed by the properties of the history store, the renderer, the
    stream consumer and the input controller.

    The page is a record: the two globals of the script ([chatHistory],
    [isProcessing]), the storage, the message list and the controls of the
    document, the calls of [sendMessage] that wait for the network, and a
    log of what the script did (console, requests, redraws).  The event
    loop is a step function on pages.  The theme switch (lines 39-71)
    shares only the storage with the rest and is modelled apart, on the
    storage and the two places of the document it writes.  The resizing of
    the text area (lines 73-77), scrolling and focus are left out: they
    read and write nothing of the above. *)

From Stdlib Require Import ZArith NArith Ascii String Sorted.
From stdpp Require Import base option list gmap.

Local Open Scope N_scope.
#[local] Set Warnings "-register-all".

(** ** Strings

    A JavaScript string is a sequence of UTF-16 code units.  A code unit is
    kept as an [N]; the strings of the script are the lists whose elements
    are below 65536, and every function below treats a larger element as an
    ordinary character. *)

Abbreviation jsstring := (list N).

(** An ASCII literal as a JavaScript string. *)
Definition js (s : string) : jsstring :=
  (fun a => N_of_ascii a) <$> list_ascii_of_string s.

(** The same, with every apostrophe of the literal standing for a quotation
    mark (U+0022): [jsq "{'a':1}"] is the text [{"a":1}]. *)
Definition jsq (s : string) : jsstring :=
  (fun c => if c =? 39 then 34 else c) <$> js s.

Arguments js : simpl never.
Arguments jsq : simpl never.

Definition is_digit (c : N) : bool := (48 <=? c) && (c <=? 57).

(** JSON white space: tab, line feed, carriage return, space. *)
Definition is_json_ws (c : N) : bool :=
  (c =? 9) || (c =? 10) || (c =? 13) || (c =? 32).

(** [WhiteSpace] and [LineTerminator] of ECMA-262, the characters
    [String.prototype.trim] strips. *)
Definition is_js_space (c : N) : bool :=
  (c =? 9) || (c =? 10) || (c =? 11) || (c =? 12) || (c =? 13) || (c =? 32)
  || (c =? 160) || (c =? 5760) || ((8192 <=? c) && (c <=? 8202))
  || (c =? 8232) || (c =? 8233) || (c =? 8239) || (c =? 8287)
  || (c =? 12288) || (c =? 65279).

Fixpoint drop_spaces (s : jsstring) : jsstring :=
  match s with
  | c :: r => if is_js_space c then drop_spaces r else s
  | [] => []
  end.

(** [s.trim()] *)
Definition trim (s : jsstring) : jsstring :=
  rev (drop_spaces (rev (drop_spaces s))).

(** [s.split("\n")]: the pieces between line feeds; never empty. *)
Fixpoint split_lines (s : jsstring) : list jsstring :=
  match s with
  | [] => [[]]
  | c :: r =>
      if c =? 10 then [] :: split_lines r
      else match split_lines r with
           | l :: ls => (c :: l) :: ls
           | [] => [[c]]
           end
  end.

(** ** JSON values *)

(** A JSON number as [JSON.parse] reads it: the decimal numeral
    [(-1)^num_neg * num_mant * 10^num_exp].  The Number it denotes is the
    binary64 value nearest to it. *)
Record numeral := Numeral { num_neg : bool; num_mant : N; num_exp : Z }.

(** The values [JSON.parse] returns.  An object is the list of its own
    properties in enumeration order. *)
Inductive json :=
| JNull
| JBool (b : bool)
| JNum (n : numeral)
| JStr (s : jsstring)
| JArr (l : list json)
| JObj (props : list (jsstring * json)).

(** A JavaScript value of the script: [None] is [undefined]. *)
Abbreviation value := (option json).

(** *** Numbers

    Only two facts about the binary64 value of a numeral are computed here,
    both by exact integer arithmetic: whether it is zero and whether it is
    finite.  Rounding is to nearest, ties to even: a magnitude of at most
    2^-1075 rounds to zero, one of at least 2^1024 - 2^970 to Infinity. *)
Definition num_is_zero (n : numeral) : bool :=
  let m := Z.of_N (num_mant n) in
  let e := num_exp n in
  (m =? 0)%Z || ((e <? 0)%Z && (m * 2 ^ 1075 <=? 10 ^ (- e))%Z).

Definition num_is_finite (n : numeral) : bool :=
  let m := Z.of_N (num_mant n) in
  let e := num_exp n in
  let bound := (2 ^ 1024 - 2 ^ 970)%Z in
  if (0 <=? e)%Z then (m * 10 ^ e <? bound)%Z
  else (m <? bound * 10 ^ (- e))%Z.

(** ** The host

    What the page gets from its environment and the script does not
    define. *)
Record Host := {
  (** [Number::toString] of the Number a numeral denotes (shortest
      round-trip digits; ["Infinity"] when it is not finite). *)
  number_to_string : numeral -> jsstring;
  (** [DOMPurify.sanitize(marked.parse(x))]: the markup, or [None] when
      either library is missing or throws. *)
  render_markdown : value -> option jsstring;
}.

Section Coercions.
Context (host : Host).

(** [ToString] on a JSON value.  An array is joined with commas, a [null]
    element printing as the empty string; an object is
    ["[object Object]"]. *)
Fixpoint ToString (v : json) : jsstring :=
  match v with
  | JNull => js "null"
  | JBool true => js "true"
  | JBool false => js "false"
  | JNum n => number_to_string host n
  | JStr s => s
  | JArr l =>
      (fix join (l : list json) : jsstring :=
         match l with
         | [] => []
         | x :: r =>
             match x with JNull => [] | _ => ToString x end
             ++ match r with [] => [] | _ :: _ => 44 :: join r end
         end) l
  | JObj _ => js "[object Object]"
  end.

(** [ToString] on a value: [undefined] prints as ["undefined"]. *)
Definition ToString_value (v : value) : jsstring :=
  match v with
  | None => js "undefined"
  | Some j => ToString j
  end.

(** [ToBoolean]. *)
Definition ToBoolean (v : value) : bool :=
  match v with
  | None => false
  | Some JNull => false
  | Some (JBool b) => b
  | Some (JNum n) => negb (num_is_zero n)
  | Some (JStr s) => match s with [] => false | _ => true end
  | Some (JArr _) => true
  | Some (JObj _) => true
  end.
End Coercions.

(** ** [JSON.parse] *)

Fixpoint skip_ws (s : jsstring) : jsstring :=
  match s with
  | c :: r => if is_json_ws c then skip_ws r else s
  | [] => []
  end.

(** The longest prefix of decimal digits, as digit values, and the rest. *)
Fixpoint span_digits (s : jsstring) : list N * jsstring :=
  match s with
  | c :: r =>
      if is_digit c
      then let '(ds, r') := span_digits r in ((c - 48) :: ds, r')
      else ([], s)
  | [] => ([], [])
  end.

Definition digits_value (ds : list N) : N :=
  fold_left (fun acc d => 10 * acc + d) ds 0.

(** [s] starts with the character [c]: the rest of [s]. *)
Definition starts_with (c : N) (s : jsstring) : option jsstring :=
  match s with
  | x :: r => if x =? c then Some r else None
  | [] => None
  end.

(** A JSON number: an optional minus sign; an integer part, which is a
    single zero or starts with a non-zero digit; an optional fraction (a
    point and at least one digit); an optional exponent ([e] or [E], an
    optional sign, at least one digit). *)
Definition number_sign (s : jsstring) : bool * jsstring :=
  match starts_with 45 s with
  | Some r => (true, r)
  | None => (false, s)
  end.

Definition number_int (s : jsstring) : option (list N * jsstring) :=
  match s with
  | c :: r =>
      if c =? 48 then Some ([0], r)
      else if is_digit c then Some (span_digits s)
      else None
  | [] => None
  end.

Definition number_frac (s : jsstring) : option (list N * jsstring) :=
  match starts_with 46 s with
  | Some r =>
      match span_digits r with
      | ([], _) => None
      | (fp, r') => Some (fp, r')
      end
  | None => Some ([], s)
  end.

Definition number_exp (s : jsstring) : option (Z * jsstring) :=
  match s with
  | c :: r =>
      if (c =? 101) || (c =? 69) then
        let '(eneg, r1) :=
          match starts_with 45 r with
          | Some r' => (true, r')
          | None =>
              match starts_with 43 r with
              | Some r' => (false, r')
              | None => (false, r)
              end
          end in
        match span_digits r1 with
        | ([], _) => None
        | (ds, r2) =>
            let e := Z.of_N (digits_value ds) in
            Some (if eneg then (- e)%Z else e, r2)
        end
      else Some (0%Z, s)
  | [] => Some (0%Z, s)
  end.

Definition parse_number (s : jsstring) : option (numeral * jsstring) :=
  let '(neg, s1) := number_sign s in
  '(ip, s2) ← number_int s1;
  '(fp, s3) ← number_frac s2;
  '(ex, s4) ← number_exp s3;
  Some (Numeral neg (digits_value (ip ++ fp))
          (ex - Z.of_nat (length fp))%Z, s4).

Definition hex_value (c : N) : option N :=
  if is_digit c then Some (c - 48)
  else if (97 <=? c) && (c <=? 102) then Some (c - 87)
  else if (65 <=? c) && (c <=? 70) then Some (c - 55)
  else None.

(** The characters of a string literal after its opening quotation mark, up
    to and including the closing one. *)
Fixpoint parse_string_body (s : jsstring) : option (jsstring * jsstring) :=
  match s with
  | [] => None
  | c :: r =>
      if c =? 34 then Some ([], r)
      else if c =? 92 then
        match r with
        | [] => None
        | e :: r1 =>
            if e =? 117 then
              match r1 with
              | h1 :: h2 :: h3 :: h4 :: r2 =>
                  a ← hex_value h1; b ← hex_value h2;
                  c' ← hex_value h3; d ← hex_value h4;
                  '(str, rest) ← parse_string_body r2;
                  Some ((((a * 16 + b) * 16 + c') * 16 + d) :: str, rest)
              | _ => None
              end
            else
              u ← (if e =? 34 then Some 34
                   else if e =? 92 then Some 92
                   else if e =? 47 then Some 47
                   else if e =? 98 then Some 8
                   else if e =? 102 then Some 12
                   else if e =? 110 then Some 10
                   else if e =? 114 then Some 13
                   else if e =? 116 then Some 9
                   else None);
              '(str, rest) ← parse_string_body r1;
              Some (u :: str, rest)
        end
      else if c <? 32 then None
      else
        '(str, rest) ← parse_string_body r;
        Some (c :: str, rest)
  end.

(** [s] starts with [lit]: the rest of [s]. *)
Fixpoint expect (lit s : jsstring) : option jsstring :=
  match lit, s with
  | [], _ => Some s
  | a :: lit', b :: s' => if a =? b then expect lit' s' else None
  | _ :: _, [] => None
  end.

(** *** Objects

    [JSON.parse] defines the members of an object one after the other
    ([CreateDataProperty]): a key that is already there keeps its place and
    takes the new value; a new key that is an array index goes among the
    array indices, in ascending order, before every other key; any other new
    key goes last. *)

(** A canonical numeric string below 2^32 - 1. *)
Definition array_index (k : jsstring) : option N :=
  match k with
  | [48] => Some 0
  | c :: _ =>
      if forallb is_digit k && negb (c =? 48) && (length k <=? 10)%nat then
        let n := digits_value ((fun d => d - 48) <$> k) in
        if n <? 4294967295 then Some n else None
      else None
  | [] => None
  end.

Definition has_key (k : jsstring) (props : list (jsstring * json)) : bool :=
  existsb (fun p => bool_decide (p.1 = k)) props.

Definition obj_replace (k : jsstring) (v : json)
    (props : list (jsstring * json)) : list (jsstring * json) :=
  (fun p => if bool_decide (p.1 = k) then (k, v) else p) <$> props.

Fixpoint obj_insert_index (i : N) (k : jsstring) (v : json)
    (props : list (jsstring * json)) : list (jsstring * json) :=
  match props with
  | [] => [(k, v)]
  | p :: ps =>
      match array_index p.1 with
      | Some j => if j <? i then p :: obj_insert_index i k v ps
                  else (k, v) :: props
      | None => (k, v) :: props
      end
  end.

Definition obj_define (props : list (jsstring * json)) (k : jsstring)
    (v : json) : list (jsstring * json) :=
  if has_key k props then obj_replace k v props
  else match array_index k with
       | Some i => obj_insert_index i k v props
       | None => props ++ [(k, v)]
       end.

Definition make_object (members : list (jsstring * json)) : json :=
  JObj (fold_left (fun props m => obj_define props m.1 m.2) members []).

(** *** Values

    [fuel] bounds the number of nested calls; every call reads at least one
    character before it calls again, and [JSON_parse] starts with more fuel
    than the text can use. *)
Fixpoint parse_value (fuel : nat) (s : jsstring) : option (json * jsstring) :=
  match fuel with
  | O => None
  | S f =>
      match skip_ws s with
      | [] => None
      | c :: r =>
          if c =? 34 then
            '(str, r1) ← parse_string_body r; Some (JStr str, r1)
          else if c =? 91 then
            match starts_with 93 (skip_ws r) with
            | Some r1 => Some (JArr [], r1)
            | None => '(l, r1) ← parse_elements f r; Some (JArr l, r1)
            end
          else if c =? 123 then
            match starts_with 125 (skip_ws r) with
            | Some r1 => Some (JObj [], r1)
            | None => '(ms, r1) ← parse_members f r; Some (make_object ms, r1)
            end
          else if c =? 116 then
            r1 ← expect (js "rue") r; Some (JBool true, r1)
          else if c =? 102 then
            r1 ← expect (js "alse") r; Some (JBool false, r1)
          else if c =? 110 then
            r1 ← expect (js "ull") r; Some (JNull, r1)
          else
            '(n, r1) ← parse_number (c :: r); Some (JNum n, r1)
      end
  end
with parse_elements (fuel : nat) (s : jsstring)
    : option (list json * jsstring) :=
  match fuel with
  | O => None
  | S f =>
      '(v, r) ← parse_value f s;
      match skip_ws r with
      | c :: r1 =>
          if c =? 44 then
            '(vs, r2) ← parse_elements f r1; Some (v :: vs, r2)
          else if c =? 93 then Some ([v], r1)
          else None
      | [] => None
      end
  end
with parse_members (fuel : nat) (s : jsstring)
    : option (list (jsstring * json) * jsstring) :=
  match fuel with
  | O => None
  | S f =>
      r ← starts_with 34 (skip_ws s);
      '(k, r1) ← parse_string_body r;
      r2 ← starts_with 58 (skip_ws r1);
      '(v, r3) ← parse_value f r2;
      match skip_ws r3 with
      | c :: r4 =>
          if c =? 44 then
            '(ms, r5) ← parse_members f r4; Some ((k, v) :: ms, r5)
          else if c =? 125 then Some ([(k, v)], r4)
          else None
      | [] => None
      end
  end.

(** [JSON.parse(text)]; [None] when it throws a [SyntaxError]. *)
Definition JSON_parse (text : jsstring) : option json :=
  '(v, r) ← parse_value (S (2 * length text)) text;
  match skip_ws r with
  | [] => Some v
  | _ :: _ => None
  end.

(** ** [JSON.stringify] *)

Definition hex_digit (n : N) : N := if n <? 10 then 48 + n else 87 + n.

(** The escape [\uXXXX] of a code unit, in lower-case hexadecimal. *)
Definition unicode_escape (c : N) : jsstring :=
  [92; 117; hex_digit (c / 4096 mod 16); hex_digit (c / 256 mod 16);
   hex_digit (c / 16 mod 16); hex_digit (c mod 16)].

Definition is_lead_surrogate (c : N) : bool := (55296 <=? c) && (c <=? 56319).
Definition is_trail_surrogate (c : N) : bool := (56320 <=? c) && (c <=? 57343).

(** [QuoteJSONString] without the surrounding quotation marks: the short
    escapes, [\u00XX] for the other control characters and [\uXXXX] for a
    surrogate that is not part of a pair. *)
Fixpoint quote_body (s : jsstring) : jsstring :=
  match s with
  | [] => []
  | c :: r =>
      if c =? 8 then 92 :: 98 :: quote_body r
      else if c =? 9 then 92 :: 116 :: quote_body r
      else if c =? 10 then 92 :: 110 :: quote_body r
      else if c =? 12 then 92 :: 102 :: quote_body r
      else if c =? 13 then 92 :: 114 :: quote_body r
      else if c =? 34 then 92 :: 34 :: quote_body r
      else if c =? 92 then 92 :: 92 :: quote_body r
      else if c <? 32 then unicode_escape c ++ quote_body r
      else if is_lead_surrogate c then
        match r with
        | c2 :: r2 =>
            if is_trail_surrogate c2 then c :: c2 :: quote_body r2
            else unicode_escape c ++ quote_body r
        | [] => unicode_escape c
        end
      else if is_trail_surrogate c then unicode_escape c ++ quote_body r
      else c :: quote_body r
  end.

Definition quote (s : jsstring) : jsstring := 34 :: quote_body s ++ [34].

Section Stringify.
Context (host : Host).

(** [JSON.stringify(v)] for a value made of JSON data, without indentation.
    A Number that is not finite is written [null]. *)
Fixpoint JSON_stringify (v : json) : jsstring :=
  match v with
  | JNull => js "null"
  | JBool true => js "true"
  | JBool false => js "false"
  | JNum n => if num_is_finite n then number_to_string host n else js "null"
  | JStr s => quote s
  | JArr l =>
      91 :: (fix elements (l : list json) : jsstring :=
               match l with
               | [] => []
               | x :: r =>
                   JSON_stringify x
                   ++ match r with [] => [] | _ :: _ => 44 :: elements r end
               end) l ++ [93]
  | JObj props =>
      123 :: (fix members (ps : list (jsstring * json)) : jsstring :=
                match ps with
                | [] => []
                | (k, x) :: r =>
                    quote k ++ 58 :: JSON_stringify x
                    ++ match r with [] => [] | _ :: _ => 44 :: members r end
                end) props ++ [125]
  end.
(** The text of the elements of an array, between the brackets. *)
Definition stringify_elements : list json -> jsstring :=
  fix elements (l : list json) : jsstring :=
    match l with
    | [] => []
    | x :: r =>
        JSON_stringify x
        ++ match r with [] => [] | _ :: _ => 44 :: elements r end
    end.
End Stringify.

(** ** The page *)

(** *** Messages and the transcript *)

Inductive Role := User | Assistant.

Definition role_name (r : Role) : jsstring :=
  match r with
  | User => js "user"
  | Assistant => js "assistant"
  end.

Record Message := { role : Role; content : jsstring }.

(** The object literal [{ role: r, content: text }]. *)
Definition message_object (r text : jsstring) : json :=
  JObj [(js "role", JStr r); (js "content", JStr text)].

Definition message_json (m : Message) : json :=
  message_object (role_name (role m)) (content m).

Definition transcript_json (t : list Message) : json :=
  JArr (message_json <$> t).

Definition STORAGE_KEY : jsstring := js "cf_ai_haiku_chat_history".

Definition welcome_text : jsstring :=
  js "### Hello there! I'm an LLM Haiku poet, here to give you a hand with your writing."
  ++ 10 :: js "If you write a haiku, I'll help you refine it or suggest improvements. Let's create some beautiful poetry together!".

Definition welcome : Message := {| role := Assistant; content := welcome_text |}.

Definition errMsg : jsstring :=
  js "Sorry, there was an error processing your request.".

(** *** [localStorage] *)

Record Storage := {
  items : gmap jsstring jsstring;
  (** [getItem] returns; when [false] it throws (storage denied). *)
  readable : bool;
  (** [setItem key value] stores; when [false] it throws (quota, denied). *)
  accepts : jsstring -> jsstring -> bool;
}.

(** *** The message list of the document *)

(** The [<p>] of a message element holds markup assigned through
    [innerHTML] or plain text assigned through [textContent]. *)
Inductive Paragraph :=
| InnerHTML (markup : jsstring)
| TextContent (text : jsstring).

Record Node := { className : jsstring; paragraph : Paragraph }.

(** *** What the script leaves behind for an observer *)

Inductive Log :=
| WarnLoad        (** [console.warn("Could not load chat history ...")] *)
| WarnSave        (** [console.warn("Could not save chat history ...")] *)
| ErrorParsing (line : jsstring)  (** [console.error("Error parsing JSON:", e)] *)
| ErrorExchange.  (** [console.error("Error:", error)] *)

(** *** Suspended calls of [sendMessage]

    [sendMessage] is an [async] function: it runs until an [await] and is
    resumed when the awaited promise settles.  A suspended call is kept with
    the locals it still needs: the pending assistant element, by its
    position in the message list, and the text accumulated so far. *)
Inductive Activation :=
| AwaitFetch (el : nat)
| AwaitRead (el : nat) (responseText : jsstring).

Record Page := {
  chatHistory : json;
  isProcessing : bool;
  localStorage : Storage;
  (** the children of [#chat-messages] *)
  chatMessages : list Node;
  (** [userInput.value] *)
  userInput_value : jsstring;
  userInput_disabled : bool;
  sendButton_disabled : bool;
  (** [typingIndicator] has the class [visible] *)
  typing_visible : bool;
  suspended : list Activation;
  (** the console, oldest entry first *)
  console : list Log;
  (** the bodies of the requests [POST /api/chat], oldest first *)
  fetches : list jsstring;
  (** every redraw of a pending element: element and full text *)
  redraws : list (nat * jsstring);
  (** rejections of [sendMessage] nobody handles *)
  uncaught : nat;
}.

Definition with_chatHistory (v : json) (p : Page) : Page :=
  {| chatHistory := v; isProcessing := isProcessing p;
     localStorage := localStorage p; chatMessages := chatMessages p;
     userInput_value := userInput_value p;
     userInput_disabled := userInput_disabled p;
     sendButton_disabled := sendButton_disabled p;
     typing_visible := typing_visible p; suspended := suspended p;
     console := console p; fetches := fetches p; redraws := redraws p;
     uncaught := uncaught p |}.

Definition with_isProcessing (b : bool) (p : Page) : Page :=
  {| chatHistory := chatHistory p; isProcessing := b;
     localStorage := localStorage p; chatMessages := chatMessages p;
     userInput_value := userInput_value p;
     userInput_disabled := userInput_disabled p;
     sendButton_disabled := sendButton_disabled p;
     typing_visible := typing_visible p; suspended := suspended p;
     console := console p; fetches := fetches p; redraws := redraws p;
     uncaught := uncaught p |}.

Definition with_localStorage (s : Storage) (p : Page) : Page :=
  {| chatHistory := chatHistory p; isProcessing := isProcessing p;
     localStorage := s; chatMessages := chatMessages p;
     userInput_value := userInput_value p;
     userInput_disabled := userInput_disabled p;
     sendButton_disabled := sendButton_disabled p;
     typing_visible := typing_visible p; suspended := suspended p;
     console := console p; fetches := fetches p; redraws := redraws p;
     uncaught := uncaught p |}.

Definition with_chatMessages (l : list Node) (p : Page) : Page :=
  {| chatHistory := chatHistory p; isProcessing := isProcessing p;
     localStorage := localStorage p; chatMessages := l;
     userInput_value := userInput_value p;
     userInput_disabled := userInput_disabled p;
     sendButton_disabled := sendButton_disabled p;
     typing_visible := typing_visible p; suspended := suspended p;
     console := console p; fetches := fetches p; redraws := redraws p;
     uncaught := uncaught p |}.

Definition with_userInput_value (t : jsstring) (p : Page) : Page :=
  {| chatHistory := chatHistory p; isProcessing := isProcessing p;
     localStorage := localStorage p; chatMessages := chatMessages p;
     userInput_value := t;
     userInput_disabled := userInput_disabled p;
     sendButton_disabled := sendButton_disabled p;
     typing_visible := typing_visible p; suspended := suspended p;
     console := console p; fetches := fetches p; redraws := redraws p;
     uncaught := uncaught p |}.

(** [userInput.disabled = b; sendButton.disabled = b] *)
Definition with_disabled (b : bool) (p : Page) : Page :=
  {| chatHistory := chatHistory p; isProcessing := isProcessing p;
     localStorage := localStorage p; chatMessages := chatMessages p;
     userInput_value := userInput_value p;
     userInput_disabled := b; sendButton_disabled := b;
     typing_visible := typing_visible p; suspended := suspended p;
     console := console p; fetches := fetches p; redraws := redraws p;
     uncaught := uncaught p |}.

Definition with_typing_visible (b : bool) (p : Page) : Page :=
  {| chatHistory := chatHistory p; isProcessing := isProcessing p;
     localStorage := localStorage p; chatMessages := chatMessages p;
     userInput_value := userInput_value p;
     userInput_disabled := userInput_disabled p;
     sendButton_disabled := sendButton_disabled p;
     typing_visible := b; suspended := suspended p;
     console := console p; fetches := fetches p; redraws := redraws p;
     uncaught := uncaught p |}.

Definition with_suspended (l : list Activation) (p : Page) : Page :=
  {| chatHistory := chatHistory p; isProcessing := isProcessing p;
     localStorage := localStorage p; chatMessages := chatMessages p;
     userInput_value := userInput_value p;
     userInput_disabled := userInput_disabled p;
     sendButton_disabled := sendButton_disabled p;
     typing_visible := typing_visible p; suspended := l;
     console := console p; fetches := fetches p; redraws := redraws p;
     uncaught := uncaught p |}.

Definition with_console (l : list Log) (p : Page) : Page :=
  {| chatHistory := chatHistory p; isProcessing := isProcessing p;
     localStorage := localStorage p; chatMessages := chatMessages p;
     userInput_value := userInput_value p;
     userInput_disabled := userInput_disabled p;
     sendButton_disabled := sendButton_disabled p;
     typing_visible := typing_visible p; suspended := suspended p;
     console := l; fetches := fetches p; redraws := redraws p;
     uncaught := uncaught p |}.

Definition with_fetches (l : list jsstring) (p : Page) : Page :=
  {| chatHistory := chatHistory p; isProcessing := isProcessing p;
     localStorage := localStorage p; chatMessages := chatMessages p;
     userInput_value := userInput_value p;
     userInput_disabled := userInput_disabled p;
     sendButton_disabled := sendButton_disabled p;
     typing_visible := typing_visible p; suspended := suspended p;
     console := console p; fetches := l; redraws := redraws p;
     uncaught := uncaught p |}.

Definition with_redraws (l : list (nat * jsstring)) (p : Page) : Page :=
  {| chatHistory := chatHistory p; isProcessing := isProcessing p;
     localStorage := localStorage p; chatMessages := chatMessages p;
     userInput_value := userInput_value p;
     userInput_disabled := userInput_disabled p;
     sendButton_disabled := sendButton_disabled p;
     typing_visible := typing_visible p; suspended := suspended p;
     console := console p; fetches := fetches p; redraws := l;
     uncaught := uncaught p |}.

Definition with_uncaught (n : nat) (p : Page) : Page :=
  {| chatHistory := chatHistory p; isProcessing := isProcessing p;
     localStorage := localStorage p; chatMessages := chatMessages p;
     userInput_value := userInput_value p;
     userInput_disabled := userInput_disabled p;
     sendButton_disabled := sendButton_disabled p;
     typing_visible := typing_visible p; suspended := suspended p;
     console := console p; fetches := fetches p; redraws := redraws p;
     uncaught := n |}.

(** ** Running the script

    A piece of the script is a function of the page.  It completes
    normally, throws, or stops at an [await] with the call to resume. *)

Inductive Completion (A : Type) :=
| Normal (a : A)
| Thrown
| Awaiting (k : Activation).
Arguments Normal {A} a.
Arguments Thrown {A}.
Arguments Awaiting {A} k.

Definition Script (A : Type) : Type := Page -> Completion A * Page.

Definition ret {A} (a : A) : Script A := fun p => (Normal a, p).

Definition bind {A B} (m : Script A) (k : A -> Script B) : Script B :=
  fun p =>
    match m p with
    | (Normal a, p1) => k a p1
    | (Thrown, p1) => (Thrown, p1)
    | (Awaiting act, p1) => (Awaiting act, p1)
    end.

Definition throw {A} : Script A := fun p => (Thrown, p).

(** [await]: the call stops here and is resumed as [k]. *)
Definition await {A} (k : Activation) : Script A := fun p => (Awaiting k, p).

Definition gets {A} (f : Page -> A) : Script A := fun p => (Normal (f p), p).

Definition modify (f : Page -> Page) : Script unit :=
  fun p => (Normal tt, f p).

(** [try { m } catch (e) { handler }] *)
Definition try_catch {A} (m : Script A) (handler : Script A) : Script A :=
  fun p =>
    match m p with
    | (Thrown, p1) => handler p1
    | r => r
    end.

(** [try { m } finally { final }]: [final] runs when [m] completes or
    throws, not while it is suspended at an [await]. *)
Definition try_finally {A} (m : Script A) (final : Script unit) : Script A :=
  fun p =>
    match m p with
    | (Normal a, p1) =>
        match final p1 with
        | (Normal _, p2) => (Normal a, p2)
        | (Thrown, p2) => (Thrown, p2)
        | (Awaiting k, p2) => (Awaiting k, p2)
        end
    | (Thrown, p1) =>
        match final p1 with
        | (Normal _, p2) => (Thrown, p2)
        | (Thrown, p2) => (Thrown, p2)
        | (Awaiting k, p2) => (Awaiting k, p2)
        end
    | (Awaiting k, p1) => (Awaiting k, p1)
    end.

Declare Scope script_scope.
Delimit Scope script_scope with script.
Notation "x <- m ;; k" := (bind m (fun x => k))
  (at level 20, m at level 99, k at level 200) : script_scope.
Notation "m ;; k" := (bind m (fun _ => k))
  (at level 100, k at level 200, right associativity) : script_scope.
Local Open Scope script_scope.

Fixpoint for_each {A} (l : list A) (body : A -> Script unit) : Script unit :=
  match l with
  | [] => ret tt
  | x :: r => body x ;; for_each r body
  end.

(** How a promise the script awaits settles. *)
Inductive FetchResult :=
| FetchRejected                       (** network error *)
| FetchResolved (ok has_body : bool). (** [response.ok], [response.body] is not [null] *)

(** [chunk] is the text [decoder.decode(value, { stream: true })] returns
    for the bytes of one read. *)
Inductive ReadResult :=
| ReadRejected
| ReadDone
| ReadChunk (chunk : jsstring).

Inductive Event :=
| UserInput (text : jsstring)   (** the user edits the text area *)
| UserSend                      (** Enter without Shift, or a click on the button *)
| FetchSettled (i : nat) (r : FetchResult)
| ReadSettled (i : nat) (r : ReadResult).

(** The code points of a string, as [for ... of] iterates it. *)
Fixpoint code_points (s : jsstring) : list jsstring :=
  match s with
  | [] => []
  | c :: r =>
      if is_lead_surrogate c then
        match r with
        | c2 :: r2 =>
            if is_trail_surrogate c2 then [c; c2] :: code_points r2
            else [c] :: code_points r
        | [] => [[c]]
        end
      else [c] :: code_points r
  end.

Definition obj_get (k : jsstring) (props : list (jsstring * json)) : value :=
  snd <$> find (fun p => bool_decide (p.1 = k)) props.

Section Script.
Context (host : Host).

Definition console_log (e : Log) : Script unit :=
  modify (fun p => with_console (console p ++ [e]) p).

(** [localStorage.getItem(key)]; [None] is [null]. *)
Definition getItem (key : jsstring) : Script (option jsstring) :=
  fun p =>
    if readable (localStorage p)
    then (Normal (items (localStorage p) !! key), p)
    else (Thrown, p).

(** [localStorage.setItem(key, v)] *)
Definition setItem (key v : jsstring) : Script unit :=
  fun p =>
    let s := localStorage p in
    if accepts s key v
    then (Normal tt,
          with_localStorage
            {| items := <[key := v]> (items s); readable := readable s;
               accepts := accepts s |} p)
    else (Thrown, p).

Definition parse_or_throw (text : jsstring) : Script json :=
  match JSON_parse text with
  | Some v => ret v
  | None => throw
  end.

(** [v.name], for the names the script reads ([role], [content],
    [response]): none of them is on a prototype, so only an object can
    have one; reading a property of [null] throws. *)
Definition get_member (v : json) (name : jsstring) : Script value :=
  match v with
  | JNull => throw
  | JObj props => ret (obj_get name props)
  | _ => ret None
  end.

(** [for (const x of v)]: the elements of an array, the code points of a
    string; anything else is not iterable. *)
Definition iterate (v : json) : Script (list json) :=
  match v with
  | JArr l => ret l
  | JStr s => ret (JStr <$> code_points s)
  | _ => throw
  end.

(** Lines 19-36: the initial value of [chatHistory]. *)
Definition load : Script json :=
  stored <- try_catch
              (raw <- getItem STORAGE_KEY ;;
               match raw with
               | Some (c :: r) => v <- parse_or_throw (c :: r) ;; ret (Some v)
               | _ => ret None
               end)
              (console_log WarnLoad ;; ret None) ;;
  match stored with
  | Some v => ret v
  | None => ret (transcript_json [welcome])
  end.

(** [p.textContent = v]: [null] and [undefined] clear the text. *)
Definition text_content (v : value) : jsstring :=
  match v with
  | None | Some JNull => []
  | Some j => ToString host j
  end.

(** The paragraph of a message element drawn from [text]: sanitized
    markup, or the plain text when the markdown libraries fail. *)
Definition draw (text : value) : Paragraph :=
  match render_markdown host text with
  | Some markup => InnerHTML markup
  | None => TextContent (text_content text)
  end.

(** Lines 211-227. *)
Definition addMessageToChat (role content : value) : Script unit :=
  modify (fun p =>
    with_chatMessages
      (chatMessages p
       ++ [{| className := js "message " ++ ToString_value host role
                           ++ js "-message";
              paragraph := draw content |}]) p).

(** Lines 232-238. *)
Definition saveChatHistory : Script unit :=
  try_catch
    (h <- gets chatHistory ;; setItem STORAGE_KEY (JSON_stringify host h))
    (console_log WarnSave).

(** Lines 243-249. *)
Definition renderChatFromHistory : Script unit :=
  modify (with_chatMessages []) ;;
  h <- gets chatHistory ;;
  msgs <- iterate h ;;
  for_each msgs (fun msg =>
    r <- get_member msg (js "role") ;;
    c <- get_member msg (js "content") ;;
    addMessageToChat r c).

(** [chatHistory.push(m)]: only an array has [push]. *)
Definition chatHistory_push (m : json) : Script unit :=
  h <- gets chatHistory ;;
  match h with
  | JArr l => modify (with_chatHistory (JArr (l ++ [m])))
  | _ => throw
  end.

(** [chatHistory.push(m); saveChatHistory();] (lines 115-116, 188-189 and
    194-195): a message is appended to the transcript, which is then
    written to the storage. *)
Definition append (m : json) : Script unit :=
  chatHistory_push m ;; saveChatHistory.

(** Lines 120-123: the element of the reply that is on its way. *)
Definition pending_node : Node :=
  {| className := js "message assistant-message"; paragraph := InnerHTML [] |}.

(** The paragraph of an element drawn again from [text]. *)
Definition repaint (text : jsstring) (n : Node) : Node :=
  {| className := className n; paragraph := draw (Some (JStr text)) |}.

(** Lines 169-176: the paragraph of the pending element [el] redrawn from
    the whole text. *)
Definition redraw (el : nat) (text : jsstring) : Script unit :=
  modify (fun p =>
    with_redraws (redraws p ++ [(el, text)])
      (with_chatMessages (alter (repaint text) el (chatMessages p)) p)).

(** Lines 162-183: one line of a chunk. *)
Definition consume_line (el : nat) (responseText line : jsstring)
    : Script jsstring :=
  try_catch
    (jsonData <- parse_or_throw line ;;
     response <- get_member jsonData (js "response") ;;
     if ToBoolean response then
       let text := responseText ++ ToString_value host response in
       redraw el text ;; ret text
     else ret responseText)
    (console_log (ErrorParsing line) ;; ret responseText).

Fixpoint consume_lines (el : nat) (responseText : jsstring)
    (lines : list jsstring) : Script jsstring :=
  match lines with
  | [] => ret responseText
  | line :: rest =>
      text <- consume_line el responseText line ;;
      consume_lines el text rest
  end.

(** Lines 190-195. *)
Definition catch_block : Script unit :=
  console_log ErrorExchange ;;
  addMessageToChat (Some (JStr (js "assistant"))) (Some (JStr errMsg)) ;;
  append (message_object (js "assistant") errMsg).

(** Lines 196-205. *)
Definition finally_block : Script unit :=
  modify (with_typing_visible false) ;;
  modify (with_isProcessing false) ;;
  modify (with_disabled false).

(** [try { body } catch (error) { ... } finally { ... }] of lines
    118-205. *)
Definition guarded (body : Script unit) : Script unit :=
  try_finally (try_catch body catch_block) finally_block.

(** Lines 93-137: [sendMessage] up to its first [await]. *)
Definition sendMessage : Script unit :=
  message <- gets (fun p => trim (userInput_value p)) ;;
  busy <- gets isProcessing ;;
  if bool_decide (message = []) || busy then ret tt
  else
    modify (with_isProcessing true) ;;
    modify (with_disabled true) ;;
    addMessageToChat (Some (JStr (js "user"))) (Some (JStr message)) ;;
    modify (with_userInput_value []) ;;
    modify (with_typing_visible true) ;;
    append (message_object (js "user") message) ;;
    guarded
      (el <- gets (fun p => length (chatMessages p)) ;;
       modify (fun p => with_chatMessages (chatMessages p ++ [pending_node]) p) ;;
       h <- gets chatHistory ;;
       modify (fun p =>
         with_fetches
           (fetches p ++ [JSON_stringify host (JObj [(js "messages", h)])])
           p) ;;
       await (AwaitFetch el)).

(** Lines 139-150: from the answer of [fetch] to the first read. *)
Definition after_fetch (el : nat) (r : FetchResult) : Script unit :=
  guarded
    match r with
    | FetchRejected => throw
    | FetchResolved ok has_body =>
        if negb ok then throw
        else if negb has_body then throw
        else await (AwaitRead el [])
    end.

(** Lines 150-189: from one read to the next, or to the end. *)
Definition after_read (el : nat) (responseText : jsstring) (r : ReadResult)
    : Script unit :=
  guarded
    match r with
    | ReadRejected => throw
    | ReadDone =>
        append (message_object (js "assistant") responseText)
    | ReadChunk chunk =>
        text <- consume_lines el responseText (split_lines chunk) ;;
        await (AwaitRead el text)
    end.

(** A call of [sendMessage] from an event listener. *)
Definition call (m : Script unit) (p : Page) : Page :=
  match m p with
  | (Normal _, p1) => p1
  | (Thrown, p1) => with_uncaught (S (uncaught p1)) p1
  | (Awaiting k, p1) => with_suspended (suspended p1 ++ [k]) p1
  end.

(** The suspended call [i] resumed as [m]. *)
Definition resume (i : nat) (m : Script unit) (p : Page) : Page :=
  match m p with
  | (Normal _, p1) => with_suspended (delete i (suspended p1)) p1
  | (Thrown, p1) =>
      with_uncaught (S (uncaught p1))
        (with_suspended (delete i (suspended p1)) p1)
  | (Awaiting k, p1) => with_suspended (<[i := k]> (suspended p1)) p1
  end.

(** One turn of the event loop. *)
Definition step (p : Page) (ev : Event) : Page :=
  match ev with
  | UserInput text => with_userInput_value text p
  | UserSend => call sendMessage p
  | FetchSettled i r =>
      match suspended p !! i with
      | Some (AwaitFetch el) => resume i (after_fetch el r) p
      | _ => p
      end
  | ReadSettled i r =>
      match suspended p !! i with
      | Some (AwaitRead el text) => resume i (after_read el text r) p
      | _ => p
      end
  end.

Definition run (p : Page) (evs : list Event) : Page := fold_left step evs p.

(** The page when the script starts: the document as served and the
    storage of the origin. *)
Definition blank (s : Storage) (nodes : list Node) : Page :=
  {| chatHistory := JNull; isProcessing := false; localStorage := s;
     chatMessages := nodes; userInput_value := [];
     userInput_disabled := false; sendButton_disabled := false;
     typing_visible := false; suspended := []; console := [];
     fetches := []; redraws := []; uncaught := 0 |}.

(** The top level of the script: [chatHistory] is initialised, the
    listeners are installed, the history is drawn (line 254). *)
Definition boot (s : Storage) (nodes : list Node) : Page :=
  match load (blank s nodes) with
  | (Normal h, p1) => call renderChatFromHistory (with_chatHistory h p1)
  | (_, p1) => with_uncaught (S (uncaught p1)) p1
  end.

(** The reads of the chunks of a body, one after the other. *)
Definition chunk_events (chunks : list jsstring) : list Event :=
  (fun c => ReadSettled 0 (ReadChunk c)) <$> chunks.

(** The events of one exchange: the request is sent, the response
    arrives with a success status and a body, the chunks are read, the
    stream closes. *)
Definition stream_events (chunks : list jsstring) : list Event :=
  UserSend :: FetchSettled 0 (FetchResolved true true)
  :: chunk_events chunks ++ [ReadSettled 0 ReadDone].

(** *** The vocabulary of the properties *)

(** The element [addMessageToChat] appends for a message. *)
Definition message_node (m : Message) : Node :=
  {| className := js "message " ++ role_name (role m) ++ js "-message";
     paragraph := draw (Some (JStr (content m))) |}.

(** What a line of a chunk adds to the accumulator: the text of its
    [response] field when the line parses and the field is truthy. *)
Definition line_response (line : jsstring) : option jsstring :=
  match JSON_parse line with
  | Some (JObj props) =>
      let response := obj_get (js "response") props in
      if ToBoolean response then Some (ToString_value host response)
      else None
  | _ => None
  end.

(** The line ends in the [catch] of line 181: it does not parse, or it is
    [null]. *)
Definition line_fails (line : jsstring) : bool :=
  match JSON_parse line with
  | None | Some JNull => true
  | Some _ => false
  end.

(** The accumulator after the lines. *)
Fixpoint accumulate (text : jsstring) (lines : list jsstring) : jsstring :=
  match lines with
  | [] => text
  | line :: rest =>
      accumulate (text ++ default [] (line_response line)) rest
  end.

(** The redraws of the pending element [el] the lines cause. *)
Fixpoint redraw_log (el : nat) (text : jsstring) (lines : list jsstring)
    : list (nat * jsstring) :=
  match lines with
  | [] => []
  | line :: rest =>
      match line_response line with
      | Some r => (el, text ++ r) :: redraw_log el (text ++ r) rest
      | None => redraw_log el text rest
      end
  end.

(** The console entries the lines leave. *)
Definition error_log (lines : list jsstring) : list Log :=
  ErrorParsing <$> List.filter line_fails lines.

(** The message list after the redraws of a log. *)
Definition apply_redraws (log : list (nat * jsstring)) (nodes : list Node)
    : list Node :=
  fold_left (fun ns r => alter (repaint r.2) r.1 ns) log nodes.

(** The page after the lines of a chunk were consumed, the accumulator
    being [text] before. *)
Definition read_lines (el : nat) (text : jsstring) (lines : list jsstring)
    (p : Page) : Page :=
  with_console (console p ++ error_log lines)
    (with_redraws (redraws p ++ redraw_log el text lines)
       (with_chatMessages
          (apply_redraws (redraw_log el text lines) (chatMessages p)) p)).

(** The page after [saveChatHistory()]. *)
Definition saved (p : Page) : Page :=
  let s := localStorage p in
  let text := JSON_stringify host (chatHistory p) in
  if accepts s STORAGE_KEY text
  then with_localStorage
         {| items := <[STORAGE_KEY := text]> (items s);
            readable := readable s; accepts := accepts s |} p
  else with_console (console p ++ [WarnSave]) p.

(** The page after the [finally] block. *)
Definition settled (p : Page) : Page :=
  with_disabled false (with_isProcessing false (with_typing_visible false p)).

(** The page after the [catch] block, the transcript being the array [l]. *)
Definition failed (l : list json) (p : Page) : Page :=
  saved
    (with_chatHistory (JArr (l ++ [message_object (js "assistant") errMsg]))
       (with_chatMessages
          (chatMessages p
           ++ [message_node {| role := Assistant; content := errMsg |}])
          (with_console (console p ++ [ErrorExchange]) p))).

(** The page after an accepted [sendMessage()] reached its first [await],
    the transcript being the array [l] and the trimmed input [message]. *)
Definition sent (l : list json) (message : jsstring) (p : Page) : Page :=
  let p1 :=
    saved
      (with_chatHistory (JArr (l ++ [message_object (js "user") message]))
         (with_typing_visible true
            (with_userInput_value []
               (with_chatMessages
                  (chatMessages p
                   ++ [message_node {| role := User; content := message |}])
                  (with_disabled true (with_isProcessing true p)))))) in
  with_fetches
    (fetches p1
     ++ [JSON_stringify host (JObj [(js "messages", chatHistory p1)])])
    (with_chatMessages (chatMessages p1 ++ [pending_node]) p1).

(** The lines of a body, chunk after chunk. *)
Definition lines_of (chunks : list jsstring) : list jsstring :=
  concat (split_lines <$> chunks).

Definition nonempty_lines (chunks : list jsstring) : list jsstring :=
  filter (fun l => l <> []) (lines_of chunks).

(** The ways an exchange fails. *)
Inductive Failure :=
| NetworkError                           (** [fetch] rejects *)
| BadStatus (has_body : bool)            (** [response.ok] is false *)
| ReadFailure (chunks : list jsstring).  (** a read rejects, after some chunks *)

Definition failure_events (f : Failure) : list Event :=
  UserSend ::
  match f with
  | NetworkError => [FetchSettled 0 FetchRejected]
  | BadStatus has_body => [FetchSettled 0 (FetchResolved false has_body)]
  | ReadFailure chunks =>
      FetchSettled 0 (FetchResolved true true)
      :: chunk_events chunks ++ [ReadSettled 0 ReadRejected]
  end.

(** The page on which an exchange fails: the user typed [text] and sent
    it, the transcript being the array [l] before. *)
Definition page_at_failure (l : list json) (text : jsstring) (p : Page)
    (f : Failure) : Page :=
  let el := S (length (chatMessages p)) in
  let q := sent l (trim text) (with_userInput_value text p) in
  match f with
  | NetworkError | BadStatus _ => with_suspended [AwaitFetch el] q
  | ReadFailure chunks =>
      with_suspended [AwaitRead el (accumulate [] (lines_of chunks))]
        (read_lines el [] (lines_of chunks) q)
  end.

(** The last element of the transcript. *)
Definition last_message (p : Page) : value :=
  match chatHistory p with
  | JArr l => last l
  | _ => None
  end.
End Script.


(** A piece of the script that never stops at an [await] and leaves the
    suspended calls alone. *)
Definition quiet {A} (m : Script A) : Prop :=
  forall p, (forall k, (m p).1 <> Awaiting k)
            /\ suspended (m p).2 = suspended p.

(** At most one call of [sendMessage] is suspended, and none when the busy
    flag is false. *)
Definition one_exchange (p : Page) : Prop :=
  (length (suspended p) <= 1)%nat
  /\ (isProcessing p = false -> suspended p = []).

(** *** The history store, in the words of its contract

    [load()] returns the persisted transcript if it is present and
    parseable, and the default transcript otherwise. *)
Definition load_contract (s : Storage) : json :=
  match (if readable s then items s !! STORAGE_KEY else None) with
  | Some raw =>
      match JSON_parse raw with
      | Some v => v
      | None => transcript_json [welcome]
      end
  | None => transcript_json [welcome]
  end.

(** *** A host and a storage for the examples

    No markdown library is loaded, so every message is shown as plain text;
    no number occurs in the examples. *)
Definition plain_host : Host :=
  {| number_to_string := fun _ => js "0"; render_markdown := fun _ => None |}.

Definition empty_storage : Storage :=
  {| items := ∅; readable := true; accepts := fun _ _ => true |}.

Definition storage_with (raw : jsstring) : Storage :=
  {| items := {[ STORAGE_KEY := raw ]}; readable := true;
     accepts := fun _ _ => true |}.

(** The page once the script has run, for a first visit: the storage is
    empty and the message list of the document is empty. *)
Definition fresh_page : Page := boot plain_host empty_storage [].

(** ** The theme switch (lines 39-71)

    The theme lives in the class list of [document.body] and in the label
    of the toggle button, which the document may lack; it is saved under a
    key of its own. *)

Definition THEME_KEY : jsstring := js "cf_ai_haiku_theme".

Record Theme := {
  (** [document.body] has the class [dark] *)
  body_dark : bool;
  (** [themeToggle.textContent]; [None] when the document has no such
      element *)
  themeToggle : option jsstring;
}.

(** The sun (U+1F31E) and the moon (U+1F319), as surrogate pairs. *)
Definition sun : jsstring := [55356; 57118].
Definition moon : jsstring := [55356; 57113].

(** Lines 40-48. *)
Definition applyTheme (theme : jsstring) (d : Theme) : Theme :=
  if bool_decide (theme = js "dark")
  then {| body_dark := true; themeToggle := (fun _ => sun) <$> themeToggle d |}
  else {| body_dark := false;
          themeToggle := (fun _ => moon) <$> themeToggle d |}.

(** Lines 51-56: the saved theme, or [light] when nothing (or the empty
    string) is saved or the storage throws. *)
Definition initTheme (s : Storage) (d : Theme) : Theme :=
  if readable s then
    applyTheme
      match items s !! THEME_KEY with
      | Some (c :: r) => c :: r
      | _ => js "light"
      end d
  else applyTheme (js "light") d.

(** Lines 58-69: a click on the toggle, which has a listener only when it
    exists.  A write the storage refuses is ignored. *)
Definition toggleTheme (s : Storage) (d : Theme) : Storage * Theme :=
  match themeToggle d with
  | None => (s, d)
  | Some _ =>
      let next := if body_dark d then js "light" else js "dark" in
      (if accepts s THEME_KEY next
       then {| items := <[THEME_KEY := next]> (items s);
               readable := readable s; accepts := accepts s |}
       else s,
       applyTheme next d)
  end.

(** ** Relations between the page before and after a piece of script *)

(** [m] respects [R]: however [m] completes, it takes a page to a page
    that [R] relates to it. *)
Definition respects {A} (R : Page -> Page -> Prop) (m : Script A) : Prop :=
  forall p, R p (m p).2.

(** No request was sent. *)
Definition same_fetches (p q : Page) : Prop := fetches q = fetches p.

(** The storage is as it was, but for the entry of the transcript. *)
Definition storage_elsewhere (p q : Page) : Prop :=
  readable (localStorage q) = readable (localStorage p)
  /\ accepts (localStorage q) = accepts (localStorage p)
  /\ forall k, k <> STORAGE_KEY ->
       items (localStorage q) !! k = items (localStorage p) !! k.

(** A transcript with messages added at its end; a [chatHistory] that is
    not an array stays as it is. *)
Definition extend (h : json) (t : list Message) : json :=
  match h with
  | JArr l => JArr (l ++ (message_json <$> t))
  | _ => h
  end.

Definition grows (p q : Page) : Prop :=
  exists t : list Message, chatHistory q = extend (chatHistory p) t.

(** The busy flag, the two controls and the typing indicator are as they
    were, or all released. *)
Definition controls_kept (p q : Page) : Prop :=
  isProcessing q = isProcessing p
  /\ userInput_disabled q = userInput_disabled p
  /\ sendButton_disabled q = sendButton_disabled p
  /\ typing_visible q = typing_visible p.

Definition controls_released (q : Page) : Prop :=
  isProcessing q = false
  /\ userInput_disabled q = false
  /\ sendButton_disabled q = false
  /\ typing_visible q = false.

Definition controls_kept_or_released (p q : Page) : Prop :=
  controls_kept p q \/ controls_released q.

(** The controls are disabled and the indicator is shown exactly while the
    busy flag is set. *)
Definition controls_follow (p : Page) : Prop :=
  userInput_disabled p = isProcessing p
  /\ sendButton_disabled p = isProcessing p
  /\ typing_visible p = isProcessing p.

(** The storage never refuses a write. *)
Definition accepting (p : Page) : Prop :=
  forall k v, accepts (localStorage p) k v = true.

Section Synced.
Context (host : Host).

(** The storage holds the transcript of the page. *)
Definition stored_transcript (p : Page) : Prop :=
  items (localStorage p) !! STORAGE_KEY
  = Some (JSON_stringify host (chatHistory p)).

(** On a storage that accepts every write: the transcript and its entry in
    the storage are as they were, or the entry is the transcript. *)
Definition synced (p q : Page) : Prop :=
  accepting p ->
  accepting q
  /\ ((chatHistory q = chatHistory p
       /\ items (localStorage q) !! STORAGE_KEY
          = items (localStorage p) !! STORAGE_KEY)
      \/ stored_transcript q).
End Synced.

(** The number of messages of the user. *)
Definition user_messages (t : list Message) : nat :=
  length (List.filter
            (fun m => match role m with User => true | Assistant => false end)
            t).

(** The page [p], reached from the page [p0] whose transcript was the
    array [l]: the messages [t] added since take turns, the user first;
    the busy flag is set while the last one is the user's, and the call
    that will answer it is the one call that is suspended; a request was
    sent for each message of the user, and no error escaped. *)
Definition turn_taking (l : list json) (p0 p : Page) : Prop :=
  exists t : list Message,
    chatHistory p = JArr (l ++ (message_json <$> t))
    /\ (forall i m, t !! i = Some m ->
          role m = if Nat.even i then User else Assistant)
    /\ isProcessing p = Nat.odd (length t)
    /\ length (suspended p) = (if isProcessing p then 1%nat else 0%nat)
    /\ length (fetches p) = (length (fetches p0) + user_messages t)%nat
    /\ uncaught p = uncaught p0.

(** The page after a submission that was accepted, when the call reaches
    line 115. *)
Definition engaged (host : Host) (p : Page) : Page :=
  with_typing_visible true
    (with_userInput_value []
       (with_chatMessages
          (chatMessages p
           ++ [message_node host
                 {| role := User; content := trim (userInput_value p) |}])
          (with_disabled true (with_isProcessing true p)))).

(** Nothing but the message list, the console and the count of unhandled
    rejections changed. *)
Definition only_drawn (p q : Page) : Prop :=
  chatHistory q = chatHistory p
  /\ isProcessing q = isProcessing p
  /\ localStorage q = localStorage p
  /\ userInput_value q = userInput_value p
  /\ userInput_disabled q = userInput_disabled p
  /\ sendButton_disabled q = sendButton_disabled p
  /\ typing_visible q = typing_visible p
  /\ suspended q = suspended p
  /\ fetches q = fetches p
  /\ redraws q = redraws p.

(** * Properties *)

(** ** Reading a field of an updated page *)

Lemma chatHistory_with_chatHistory v p : chatHistory (with_chatHistory v p) = v.
Proof. reflexivity. Qed.

Lemma localStorage_with_chatHistory v p : localStorage (with_chatHistory v p) = localStorage p.
Proof. reflexivity. Qed.

Lemma suspended_with_chatHistory v p : suspended (with_chatHistory v p) = suspended p.
Proof. reflexivity. Qed.

Lemma console_with_chatHistory v p : console (with_chatHistory v p) = console p.
Proof. reflexivity. Qed.

Lemma redraws_with_chatHistory v p : redraws (with_chatHistory v p) = redraws p.
Proof. reflexivity. Qed.

Lemma uncaught_with_chatHistory v p : uncaught (with_chatHistory v p) = uncaught p.
Proof. reflexivity. Qed.

Lemma suspended_with_isProcessing v p : suspended (with_isProcessing v p) = suspended p.
Proof. reflexivity. Qed.

Lemma localStorage_with_localStorage v p : localStorage (with_localStorage v p) = v.
Proof. reflexivity. Qed.

Lemma suspended_with_localStorage v p : suspended (with_localStorage v p) = suspended p.
Proof. reflexivity. Qed.

Lemma console_with_localStorage v p : console (with_localStorage v p) = console p.
Proof. reflexivity. Qed.

Lemma chatHistory_with_chatMessages v p : chatHistory (with_chatMessages v p) = chatHistory p.
Proof. reflexivity. Qed.

Lemma isProcessing_with_chatMessages v p : isProcessing (with_chatMessages v p) = isProcessing p.
Proof. reflexivity. Qed.

Lemma localStorage_with_chatMessages v p : localStorage (with_chatMessages v p) = localStorage p.
Proof. reflexivity. Qed.

Lemma suspended_with_chatMessages v p : suspended (with_chatMessages v p) = suspended p.
Proof. reflexivity. Qed.

Lemma redraws_with_chatMessages v p : redraws (with_chatMessages v p) = redraws p.
Proof. reflexivity. Qed.

Lemma uncaught_with_chatMessages v p : uncaught (with_chatMessages v p) = uncaught p.
Proof. reflexivity. Qed.

Lemma chatHistory_with_userInput_value v p : chatHistory (with_userInput_value v p) = chatHistory p.
Proof. reflexivity. Qed.

Lemma isProcessing_with_userInput_value v p : isProcessing (with_userInput_value v p) = isProcessing p.
Proof. reflexivity. Qed.

Lemma localStorage_with_userInput_value v p : localStorage (with_userInput_value v p) = localStorage p.
Proof. reflexivity. Qed.

Lemma chatMessages_with_userInput_value v p : chatMessages (with_userInput_value v p) = chatMessages p.
Proof. reflexivity. Qed.

Lemma userInput_value_with_userInput_value v p : userInput_value (with_userInput_value v p) = v.
Proof. reflexivity. Qed.

Lemma suspended_with_userInput_value v p : suspended (with_userInput_value v p) = suspended p.
Proof. reflexivity. Qed.

Lemma fetches_with_userInput_value v p : fetches (with_userInput_value v p) = fetches p.
Proof. reflexivity. Qed.

Lemma redraws_with_userInput_value v p : redraws (with_userInput_value v p) = redraws p.
Proof. reflexivity. Qed.

Lemma uncaught_with_userInput_value v p : uncaught (with_userInput_value v p) = uncaught p.
Proof. reflexivity. Qed.

Lemma suspended_with_disabled v p : suspended (with_disabled v p) = suspended p.
Proof. reflexivity. Qed.

Lemma suspended_with_typing_visible v p : suspended (with_typing_visible v p) = suspended p.
Proof. reflexivity. Qed.

Lemma chatHistory_with_suspended v p : chatHistory (with_suspended v p) = chatHistory p.
Proof. reflexivity. Qed.

Lemma isProcessing_with_suspended v p : isProcessing (with_suspended v p) = isProcessing p.
Proof. reflexivity. Qed.

Lemma localStorage_with_suspended v p : localStorage (with_suspended v p) = localStorage p.
Proof. reflexivity. Qed.

Lemma chatMessages_with_suspended v p : chatMessages (with_suspended v p) = chatMessages p.
Proof. reflexivity. Qed.

Lemma suspended_with_suspended v p : suspended (with_suspended v p) = v.
Proof. reflexivity. Qed.

Lemma console_with_suspended v p : console (with_suspended v p) = console p.
Proof. reflexivity. Qed.

Lemma fetches_with_suspended v p : fetches (with_suspended v p) = fetches p.
Proof. reflexivity. Qed.

Lemma redraws_with_suspended v p : redraws (with_suspended v p) = redraws p.
Proof. reflexivity. Qed.

Lemma uncaught_with_suspended v p : uncaught (with_suspended v p) = uncaught p.
Proof. reflexivity. Qed.

Lemma localStorage_with_console v p : localStorage (with_console v p) = localStorage p.
Proof. reflexivity. Qed.

Lemma suspended_with_console v p : suspended (with_console v p) = suspended p.
Proof. reflexivity. Qed.

Lemma console_with_console v p : console (with_console v p) = v.
Proof. reflexivity. Qed.

Lemma chatHistory_with_fetches v p : chatHistory (with_fetches v p) = chatHistory p.
Proof. reflexivity. Qed.

Lemma isProcessing_with_fetches v p : isProcessing (with_fetches v p) = isProcessing p.
Proof. reflexivity. Qed.

Lemma localStorage_with_fetches v p : localStorage (with_fetches v p) = localStorage p.
Proof. reflexivity. Qed.

Lemma suspended_with_fetches v p : suspended (with_fetches v p) = suspended p.
Proof. reflexivity. Qed.

Lemma fetches_with_fetches v p : fetches (with_fetches v p) = v.
Proof. reflexivity. Qed.

Lemma redraws_with_fetches v p : redraws (with_fetches v p) = redraws p.
Proof. reflexivity. Qed.

Lemma uncaught_with_fetches v p : uncaught (with_fetches v p) = uncaught p.
Proof. reflexivity. Qed.

Lemma suspended_with_uncaught v p : suspended (with_uncaught v p) = suspended p.
Proof. reflexivity. Qed.

Create Rewrite HintDb page.

#[global] Hint Rewrite chatHistory_with_chatHistory localStorage_with_chatHistory suspended_with_chatHistory : page.
#[global] Hint Rewrite console_with_chatHistory redraws_with_chatHistory uncaught_with_chatHistory : page.
#[global] Hint Rewrite suspended_with_isProcessing localStorage_with_localStorage suspended_with_localStorage : page.
#[global] Hint Rewrite console_with_localStorage chatHistory_with_chatMessages isProcessing_with_chatMessages : page.
#[global] Hint Rewrite localStorage_with_chatMessages suspended_with_chatMessages redraws_with_chatMessages : page.
#[global] Hint Rewrite uncaught_with_chatMessages chatHistory_with_userInput_value isProcessing_with_userInput_value : page.
#[global] Hint Rewrite localStorage_with_userInput_value chatMessages_with_userInput_value userInput_value_with_userInput_value : page.
#[global] Hint Rewrite suspended_with_userInput_value fetches_with_userInput_value redraws_with_userInput_value : page.
#[global] Hint Rewrite uncaught_with_userInput_value suspended_with_disabled suspended_with_typing_visible : page.
#[global] Hint Rewrite chatHistory_with_suspended isProcessing_with_suspended localStorage_with_suspended : page.
#[global] Hint Rewrite chatMessages_with_suspended suspended_with_suspended console_with_suspended : page.
#[global] Hint Rewrite fetches_with_suspended redraws_with_suspended uncaught_with_suspended : page.
#[global] Hint Rewrite localStorage_with_console suspended_with_console console_with_console : page.
#[global] Hint Rewrite chatHistory_with_fetches isProcessing_with_fetches localStorage_with_fetches : page.
#[global] Hint Rewrite suspended_with_fetches fetches_with_fetches redraws_with_fetches : page.
#[global] Hint Rewrite uncaught_with_fetches suspended_with_uncaught : page.

(** ** The fuel of [JSON_parse] *)

Lemma length_skip_ws s : (length (skip_ws s) <= length s)%nat.
Proof.
  induction s as [|c s IH]; [done|]. cbn [skip_ws].
  destruct (is_json_ws c); cbn [length]; lia.
Qed.

Lemma starts_with_length c s r :
  starts_with c s = Some r -> length s = S (length r).
Proof.
  destruct s as [|x s]; [done|]. cbn [starts_with].
  destruct (x =? c); [|done]. by intros [= ->].
Qed.

Lemma span_digits_length s : (length (span_digits s).2 <= length s)%nat.
Proof.
  induction s as [|c s IH]; [done|]. cbn [span_digits].
  destruct (is_digit c); [|done].
  destruct (span_digits s) as [ds r]. cbn [snd length] in *. lia.
Qed.

Lemma expect_length lit s r :
  expect lit s = Some r -> (length r <= length s)%nat.
Proof.
  revert s. induction lit as [|a lit IH]; intros s H.
  - cbn in H. by injection H as ->.
  - destruct s as [|b s]; [done|]. cbn [expect] in H.
    destruct (a =? b); [|done]. apply IH in H. cbn [length]. lia.
Qed.

Lemma parse_string_body_length s str r :
  parse_string_body s = Some (str, r) -> (length r < length s)%nat.
Proof.
  remember (length s) as n eqn:Hn. revert s str r Hn.
  induction (lt_wf n) as [n _ IH]. intros s str r Hn H.
  destruct s as [|c t]; [done|]. cbn [parse_string_body] in H.
  cbn [length] in Hn.
  destruct (c =? 34). { injection H as <- <-. subst n. lia. }
  destruct (c =? 92).
  - destruct t as [|e t1]; [done|].
    destruct (e =? 117).
    + destruct t1 as [|h1 [|h2 [|h3 [|h4 t2]]]]; try done.
      destruct (hex_value h1), (hex_value h2), (hex_value h3), (hex_value h4);
        cbn [mbind option_bind] in H; try done.
      destruct (parse_string_body t2) as [[str' r']|] eqn:E; [|done].
      cbn in H. injection H as <- <-.
      apply (IH (length t2)) in E; [|subst n; cbn [length]; lia|done].
      subst n. cbn [length]. lia.
    + match type of H with
      | (?u ≫= _) = _ => destruct u; cbn [mbind option_bind] in H; [|done]
      end.
      destruct (parse_string_body t1) as [[str' r']|] eqn:E; [|done].
      cbn in H. injection H as <- <-.
      apply (IH (length t1)) in E; [|subst n; cbn [length]; lia|done].
      subst n. cbn [length]. lia.
  - destruct (c <? 32); [done|].
    destruct (parse_string_body t) as [[str' r']|] eqn:E; [|done].
    cbn in H. injection H as <- <-.
    apply (IH (length t)) in E; [|subst n; lia|done].
    subst n. lia.
Qed.

Lemma number_sign_length s :
  (length (number_sign s).2 <= length s)%nat.
Proof.
  unfold number_sign. destruct (starts_with 45 s) eqn:E; cbn [snd]; [|done].
  apply starts_with_length in E. lia.
Qed.

Lemma number_int_length s ip r :
  number_int s = Some (ip, r) -> (length r <= length s)%nat.
Proof.
  unfold number_int. destruct s as [|c t]; [done|].
  destruct (c =? 48). { intros [= <- <-]. cbn [length]. lia. }
  destruct (is_digit c); [|done].
  pose proof (span_digits_length (c :: t)) as Hl.
  destruct (span_digits (c :: t)) as [ip' r']. by intros [= <- <-].
Qed.

Lemma number_frac_length s fp r :
  number_frac s = Some (fp, r) -> (length r <= length s)%nat.
Proof.
  unfold number_frac. destruct (starts_with 46 s) as [t|] eqn:E.
  - apply starts_with_length in E.
    pose proof (span_digits_length t) as Hl.
    destruct (span_digits t) as [[|d ds] r']; [done|].
    intros [= <- <-]. cbn [snd] in Hl. lia.
  - by intros [= <- <-].
Qed.

Lemma number_exp_length s ex r :
  number_exp s = Some (ex, r) -> (length r <= length s)%nat.
Proof.
  unfold number_exp. destruct s as [|c t]; [by intros [= <- <-]|].
  destruct ((c =? 101) || (c =? 69)); [|by intros [= <- <-]].
  assert (Hr1 : (length (match starts_with 45 t with
                         | Some r' => (true, r')
                         | None =>
                             match starts_with 43 t with
                             | Some r' => (false, r')
                             | None => (false, t)
                             end
                         end).2 <= length t)%nat).
  { destruct (starts_with 45 t) eqn:E1; cbn [snd].
    - apply starts_with_length in E1. lia.
    - destruct (starts_with 43 t) eqn:E2; cbn [snd]; [|done].
      apply starts_with_length in E2. lia. }
  destruct (match starts_with 45 t with
            | Some r' => (true, r')
            | None =>
                match starts_with 43 t with
                | Some r' => (false, r')
                | None => (false, t)
                end
            end) as [eneg r1].
  cbn [snd] in Hr1.
  pose proof (span_digits_length r1) as Hl.
  destruct (span_digits r1) as [[|d ds] r2]; [done|].
  intros [= <- <-]. cbn [snd length] in *. lia.
Qed.

Lemma parse_number_length s n r :
  parse_number s = Some (n, r) -> (length r <= length s)%nat.
Proof.
  unfold parse_number. pose proof (number_sign_length s) as H1.
  destruct (number_sign s) as [neg s1]. cbn [snd] in H1. intros H.
  destruct (number_int s1) as [[ip s2]|] eqn:E2;
    cbn [mbind option_bind] in H; [|done].
  destruct (number_frac s2) as [[fp s3]|] eqn:E3;
    cbn [mbind option_bind] in H; [|done].
  destruct (number_exp s3) as [[ex s4]|] eqn:E4;
    cbn [mbind option_bind] in H; [|done].
  injection H as <- <-.
  apply number_int_length in E2. apply number_frac_length in E3.
  apply number_exp_length in E4. lia.
Qed.

(** What the parser leaves is never longer than what it was given. *)
Lemma parse_length f :
  (forall s v r, parse_value f s = Some (v, r) ->
                 (length r <= length s)%nat)
  /\ (forall s l r, parse_elements f s = Some (l, r) ->
                    (length r <= length s)%nat)
  /\ (forall s ms r, parse_members f s = Some (ms, r) ->
                     (length r <= length s)%nat).
Proof.
  induction f as [|f (IHv & IHe & IHm)]; [done|]. split_and!.
  - intros s v r. cbn [parse_value].
    pose proof (length_skip_ws s) as Hws.
    destruct (skip_ws s) as [|c t]; [done|]. cbn [length] in Hws.
    destruct (c =? 34).
    { destruct (parse_string_body t) as [[str r1]|] eqn:E; [|done].
      cbn. intros [= <- <-]. apply parse_string_body_length in E. lia. }
    destruct (c =? 91).
    { pose proof (length_skip_ws t) as Hwt.
      destruct (starts_with 93 (skip_ws t)) as [r1|] eqn:E.
      - intros [= <- <-]. apply starts_with_length in E. lia.
      - destruct (parse_elements f t) as [[l r1]|] eqn:E1; [|done].
        cbn. intros [= <- <-]. apply IHe in E1. lia. }
    destruct (c =? 123).
    { pose proof (length_skip_ws t) as Hwt.
      destruct (starts_with 125 (skip_ws t)) as [r1|] eqn:E.
      - intros [= <- <-]. apply starts_with_length in E. lia.
      - destruct (parse_members f t) as [[l r1]|] eqn:E1; [|done].
        cbn. intros [= <- <-]. apply IHm in E1. lia. }
    destruct (c =? 116).
    { destruct (expect (js "rue") t) as [r1|] eqn:E; [|done].
      cbn. intros [= <- <-]. apply expect_length in E. lia. }
    destruct (c =? 102).
    { destruct (expect (js "alse") t) as [r1|] eqn:E; [|done].
      cbn. intros [= <- <-]. apply expect_length in E. lia. }
    destruct (c =? 110).
    { destruct (expect (js "ull") t) as [r1|] eqn:E; [|done].
      cbn. intros [= <- <-]. apply expect_length in E. lia. }
    destruct (parse_number (c :: t)) as [[n r1]|] eqn:E; [|done].
    cbn. intros [= <- <-]. apply parse_number_length in E.
    cbn [length] in E. lia.
  - intros s l r. cbn [parse_elements].
    destruct (parse_value f s) as [[v r0]|] eqn:E; [|done].
    cbn [mbind option_bind]. apply IHv in E.
    pose proof (length_skip_ws r0) as Hws.
    destruct (skip_ws r0) as [|c r1]; [done|]. cbn [length] in Hws.
    destruct (c =? 44).
    { destruct (parse_elements f r1) as [[vs r2]|] eqn:E1; [|done].
      cbn. intros [= <- <-]. apply IHe in E1. lia. }
    destruct (c =? 93); [|done]. intros [= <- <-]. lia.
  - intros s ms r. cbn [parse_members].
    pose proof (length_skip_ws s) as Hws.
    destruct (starts_with 34 (skip_ws s)) as [t|] eqn:E0; [|done].
    apply starts_with_length in E0. cbn [mbind option_bind].
    destruct (parse_string_body t) as [[k r1]|] eqn:E1; [|done].
    apply parse_string_body_length in E1. cbn [mbind option_bind].
    pose proof (length_skip_ws r1) as Hw1.
    destruct (starts_with 58 (skip_ws r1)) as [r2|] eqn:E2; [|done].
    apply starts_with_length in E2. cbn [mbind option_bind].
    destruct (parse_value f r2) as [[v r3]|] eqn:E3; [|done].
    apply IHv in E3. cbn [mbind option_bind].
    pose proof (length_skip_ws r3) as Hw3.
    destruct (skip_ws r3) as [|c r4]; [done|]. cbn [length] in Hw3.
    destruct (c =? 44).
    { destruct (parse_members f r4) as [[ms' r5]|] eqn:E4; [|done].
      cbn. intros [= <- <-]. apply IHm in E4. lia. }
    destruct (c =? 125); [|done]. intros [= <- <-]. lia.
Qed.

(** More fuel does not change a result. *)
Lemma parse_fuel_mono f :
  forall f', (f <= f')%nat ->
  (forall s x, parse_value f s = Some x -> parse_value f' s = Some x)
  /\ (forall s x, parse_elements f s = Some x -> parse_elements f' s = Some x)
  /\ (forall s x, parse_members f s = Some x -> parse_members f' s = Some x).
Proof.
  induction f as [|f IH]; [done|]. intros [|f'] Hle; [lia|].
  destruct (IH f' ltac:(lia)) as (IHv & IHe & IHm). split_and!.
  - intros s x. cbn [parse_value].
    destruct (skip_ws s) as [|c t]; [done|].
    destruct (c =? 34); [done|].
    destruct (c =? 91).
    { destruct (starts_with 93 (skip_ws t)); [done|].
      destruct (parse_elements f t) as [y|] eqn:E; [|done].
      by rewrite (IHe _ _ E). }
    destruct (c =? 123); [|done].
    destruct (starts_with 125 (skip_ws t)); [done|].
    destruct (parse_members f t) as [y|] eqn:E; [|done].
    by rewrite (IHm _ _ E).
  - intros s x. cbn [parse_elements].
    destruct (parse_value f s) as [[v r0]|] eqn:E; [|done].
    rewrite (IHv _ _ E). cbn [mbind option_bind].
    destruct (skip_ws r0) as [|c r1]; [done|].
    destruct (c =? 44); [|done].
    destruct (parse_elements f r1) as [y|] eqn:E1; [|done].
    by rewrite (IHe _ _ E1).
  - intros s x. cbn [parse_members].
    destruct (starts_with 34 (skip_ws s)) as [t|]; [|done].
    cbn [mbind option_bind].
    destruct (parse_string_body t) as [[k r1]|]; [|done].
    cbn [mbind option_bind].
    destruct (starts_with 58 (skip_ws r1)) as [r2|]; [|done].
    cbn [mbind option_bind].
    destruct (parse_value f r2) as [[v r3]|] eqn:E; [|done].
    rewrite (IHv _ _ E). cbn [mbind option_bind].
    destruct (skip_ws r3) as [|c r4]; [done|].
    destruct (c =? 44); [|done].
    destruct (parse_members f r4) as [y|] eqn:E1; [|done].
    by rewrite (IHm _ _ E1).
Qed.

(** Beyond twice the length of the text, fuel makes no difference. *)
Lemma parse_fuel_stable f :
  forall f', (f <= f')%nat ->
  (forall s, (2 * length s < f)%nat -> parse_value f' s = parse_value f s)
  /\ (forall s, (2 * length s + 1 < f)%nat ->
                parse_elements f' s = parse_elements f s)
  /\ (forall s, (2 * length s + 1 < f)%nat ->
                parse_members f' s = parse_members f s).
Proof.
  induction f as [|f IH]; [intros f' _; split_and!; intros s Hs; lia|].
  intros [|f'] Hle; [lia|].
  destruct (IH f' ltac:(lia)) as (IHv & IHe & IHm).
  destruct (parse_length f) as (Lv & Le & Lm).
  split_and!.
  - intros s Hs. cbn [parse_value].
    pose proof (length_skip_ws s) as Hws.
    destruct (skip_ws s) as [|c t]; [done|]. cbn [length] in Hws.
    destruct (c =? 34); [done|].
    destruct (c =? 91).
    { destruct (starts_with 93 (skip_ws t)); [done|].
      by rewrite IHe by lia. }
    destruct (c =? 123); [|done].
    destruct (starts_with 125 (skip_ws t)); [done|].
    by rewrite IHm by lia.
  - intros s Hs. cbn [parse_elements]. rewrite IHv by lia.
    destruct (parse_value f s) as [[v r0]|] eqn:E; [|done].
    apply Lv in E. cbn [mbind option_bind].
    pose proof (length_skip_ws r0) as Hws.
    destruct (skip_ws r0) as [|c r1]; [done|]. cbn [length] in Hws.
    destruct (c =? 44); [|done]. by rewrite IHe by lia.
  - intros s Hs. cbn [parse_members].
    pose proof (length_skip_ws s) as Hws.
    destruct (starts_with 34 (skip_ws s)) as [t|] eqn:E0; [|done].
    apply starts_with_length in E0. cbn [mbind option_bind].
    destruct (parse_string_body t) as [[k r1]|] eqn:E1; [|done].
    apply parse_string_body_length in E1. cbn [mbind option_bind].
    pose proof (length_skip_ws r1) as Hw1.
    destruct (starts_with 58 (skip_ws r1)) as [r2|] eqn:E2; [|done].
    apply starts_with_length in E2. cbn [mbind option_bind].
    rewrite IHv by lia.
    destruct (parse_value f r2) as [[v r3]|] eqn:E3; [|done].
    apply Lv in E3. cbn [mbind option_bind].
    pose proof (length_skip_ws r3) as Hw3.
    destruct (skip_ws r3) as [|c r4]; [done|]. cbn [length] in Hw3.
    destruct (c =? 44); [|done]. by rewrite IHm by lia.
Qed.

(** The fuel of [JSON_parse] is enough: a value that some amount of fuel
    finds is found by [JSON_parse]. *)
Lemma JSON_parse_fuel (text : jsstring) (f : nat) v r :
  parse_value f text = Some (v, r) ->
  parse_value (S (2 * length text)) text = Some (v, r).
Proof.
  intros H.
  destruct (parse_fuel_mono f (max f (S (2 * length text))) ltac:(lia))
    as (Hm & _ & _).
  destruct (parse_fuel_stable (S (2 * length text))
              (max f (S (2 * length text))) ltac:(lia)) as (Hs & _ & _).
  rewrite <- Hs by lia. by apply Hm.
Qed.

(** ** Strings written by [JSON.stringify] are read back by [JSON.parse] *)

Lemma hex_value_hex_digit n : n < 16 -> hex_value (hex_digit n) = Some n.
Proof.
  intros Hn. unfold hex_value, hex_digit, is_digit.
  destruct (n <? 10) eqn:H10.
  - apply N.ltb_lt in H10.
    replace (48 <=? 48 + n) with true by (symmetry; apply N.leb_le; lia).
    replace (48 + n <=? 57) with true by (symmetry; apply N.leb_le; lia).
    simpl. f_equal. lia.
  - apply N.ltb_ge in H10.
    replace (87 + n <=? 57) with false by (symmetry; apply N.leb_gt; lia).
    rewrite andb_false_r.
    replace (97 <=? 87 + n) with true by (symmetry; apply N.leb_le; lia).
    replace (87 + n <=? 102) with true by (symmetry; apply N.leb_le; lia).
    simpl. f_equal. lia.
Qed.

Lemma hex_digits_value c :
  c < 65536 ->
  ((c / 4096 mod 16 * 16 + c / 256 mod 16) * 16 + c / 16 mod 16) * 16
  + c mod 16 = c.
Proof.
  intros Hc.
  assert (H1 : c / 4096 mod 16 = c / 4096).
  { apply N.mod_small. apply N.Div0.div_lt_upper_bound. lia. }
  rewrite H1.
  assert (E0 : c = 16 * (c / 16) + c mod 16) by (apply N.div_mod; lia).
  assert (E1 : c / 16 = 16 * (c / 256) + c / 16 mod 16).
  { rewrite (N.div_mod (c / 16) 16) at 1 by lia.
    rewrite N.Div0.div_div. done. }
  assert (E2 : c / 256 = 16 * (c / 4096) + c / 256 mod 16).
  { rewrite (N.div_mod (c / 256) 16) at 1 by lia.
    rewrite N.Div0.div_div. done. }
  lia.
Qed.

Lemma parse_unicode_escape c t :
  c < 65536 ->
  parse_string_body (unicode_escape c ++ t)
  = '(str, rest) ← parse_string_body t; Some (c :: str, rest).
Proof.
  intros Hc. unfold unicode_escape.
  cbn [app parse_string_body]. cbn [N.eqb Pos.eqb].
  rewrite !hex_value_hex_digit by (apply N.mod_lt; lia).
  cbn [mbind option_bind]. rewrite hex_digits_value by done. done.
Qed.

Lemma parse_literal_char c t :
  c <> 34 -> c <> 92 -> 32 <= c ->
  parse_string_body (c :: t)
  = '(str, rest) ← parse_string_body t; Some (c :: str, rest).
Proof.
  intros H34 H92 H32. cbn [parse_string_body].
  apply N.eqb_neq in H34, H92. rewrite H34, H92.
  replace (c <? 32) with false by (symmetry; apply N.ltb_ge; done). done.
Qed.

Lemma parse_quote_body s rest :
  parse_string_body (quote_body s ++ 34 :: rest) = Some (s, rest).
Proof.
  remember (length s) as n eqn:Hn.
  revert s Hn. induction (lt_wf n) as [n _ IH]. intros s Hn.
  destruct s as [|c r]; [done|].
  assert (IHr : parse_string_body (quote_body r ++ 34 :: rest) = Some (r, rest)).
  { apply (IH (length r)); [subst n; simpl; lia | done]. }
  cbn [quote_body].
  destruct (c =? 8) eqn:E8; [apply N.eqb_eq in E8; subst c; simpl; by rewrite IHr|].
  destruct (c =? 9) eqn:E9; [apply N.eqb_eq in E9; subst c; simpl; by rewrite IHr|].
  destruct (c =? 10) eqn:E10; [apply N.eqb_eq in E10; subst c; simpl; by rewrite IHr|].
  destruct (c =? 12) eqn:E12; [apply N.eqb_eq in E12; subst c; simpl; by rewrite IHr|].
  destruct (c =? 13) eqn:E13; [apply N.eqb_eq in E13; subst c; simpl; by rewrite IHr|].
  destruct (c =? 34) eqn:E34; [apply N.eqb_eq in E34; subst c; simpl; by rewrite IHr|].
  destruct (c =? 92) eqn:E92; [apply N.eqb_eq in E92; subst c; simpl; by rewrite IHr|].
  apply N.eqb_neq in E34, E92.
  destruct (c <? 32) eqn:E32.
  { apply N.ltb_lt in E32. rewrite <- app_assoc.
    rewrite parse_unicode_escape by lia. by rewrite IHr. }
  apply N.ltb_ge in E32.
  unfold is_lead_surrogate, is_trail_surrogate.
  destruct ((55296 <=? c) && (c <=? 56319)) eqn:Elead.
  { apply andb_true_iff in Elead as [L1 L2].
    apply N.leb_le in L1, L2.
    destruct r as [|c2 r2].
    - rewrite parse_unicode_escape by lia. done.
    - destruct ((56320 <=? c2) && (c2 <=? 57343)) eqn:Etrail.
      + apply andb_true_iff in Etrail as [T1 T2].
        apply N.leb_le in T1, T2.
        assert (IHr2 : parse_string_body (quote_body r2 ++ 34 :: rest)
                       = Some (r2, rest)).
        { apply (IH (length r2)); [subst n; simpl; lia | done]. }
        rewrite <- !app_comm_cons.
        rewrite parse_literal_char by lia.
        rewrite parse_literal_char by lia.
        by rewrite IHr2.
      + rewrite <- app_assoc, parse_unicode_escape by lia. by rewrite IHr. }
  destruct ((56320 <=? c) && (c <=? 57343)) eqn:Etrail.
  { apply andb_true_iff in Etrail as [T1 T2]. apply N.leb_le in T1, T2.
    rewrite <- app_assoc, parse_unicode_escape by lia. by rewrite IHr. }
  rewrite <- app_comm_cons, parse_literal_char by done. by rewrite IHr.
Qed.

Lemma parse_string_value f s rest :
  parse_value (S f) (quote s ++ rest) = Some (JStr s, rest).
Proof.
  unfold quote. rewrite <- app_comm_cons, <- app_assoc.
  cbn [parse_value]. simpl skip_ws. cbn [N.eqb Pos.eqb].
  change ([34] ++ rest) with (34 :: rest).
  rewrite parse_quote_body. done.
Qed.

(** One step of the parser on a text whose first characters are known. *)
Ltac parse_step :=
  cbn [skip_ws is_json_ws N.eqb Pos.eqb orb starts_with mbind option_bind].

(** A member whose value is a string, followed by a comma. *)
Lemma parse_member_more f k s t :
  parse_members (S (S f)) (quote k ++ 58 :: quote s ++ 44 :: t)
  = '(ms, r) ← parse_members (S f) t; Some ((k, JStr s) :: ms, r).
Proof.
  unfold quote at 1. rewrite <- app_comm_cons, <- app_assoc.
  change ([34] ++ ?x) with (34 :: x).
  remember (S f) as f1.
  cbn [parse_members]. parse_step.
  rewrite parse_quote_body. parse_step.
  subst f1. rewrite parse_string_value. parse_step. done.
Qed.

(** The same, followed by the closing brace. *)
Lemma parse_member_last f k s t :
  parse_members (S (S f)) (quote k ++ 58 :: quote s ++ 125 :: t)
  = Some ([(k, JStr s)], t).
Proof.
  unfold quote at 1. rewrite <- app_comm_cons, <- app_assoc.
  change ([34] ++ ?x) with (34 :: x).
  remember (S f) as f1.
  cbn [parse_members]. parse_step.
  rewrite parse_quote_body. parse_step.
  subst f1. rewrite parse_string_value. parse_step. done.
Qed.

Section TranscriptText.
Context (host : Host).

Lemma stringify_array l :
  JSON_stringify host (JArr l) = 91 :: stringify_elements host l ++ [93].
Proof. reflexivity. Qed.

Lemma stringify_message_head r c :
  exists x, JSON_stringify host (message_object r c) = 123 :: x.
Proof. unfold message_object. cbn [JSON_stringify]. eauto. Qed.

Lemma parse_message f r c rest :
  parse_value (4 + f) (JSON_stringify host (message_object r c) ++ rest)
  = Some (message_object r c, rest).
Proof.
  unfold message_object.
  remember (js "role") as kr eqn:Hkr. remember (js "content") as kc eqn:Hkc.
  cbn [JSON_stringify].
  rewrite <- app_comm_cons.
  change (4 + f)%nat with (S (S (S (S f)))).
  remember (S (S (S f))) as f3.
  cbn [parse_value]. parse_step.
  rewrite <- !app_assoc. cbn [app].
  unfold quote at 1. rewrite <- app_comm_cons. parse_step.
  change (34 :: quote_body kr ++ [34]) with (quote kr).
  subst f3. repeat (rewrite <- app_assoc; cbn [app]).
  rewrite parse_member_more, parse_member_last.
  cbn [mbind option_bind]. subst kr kc. reflexivity.
Qed.

Lemma parse_message_elements f (t : list Message) rest :
  t <> [] ->
  parse_elements (length t + 4 + f)
    (stringify_elements host (message_json <$> t) ++ 93 :: rest)
  = Some (message_json <$> t, rest).
Proof.
  induction t as [|m t IH]; [done|]. intros _.
  cbn [length Nat.add fmap list_fmap stringify_elements].
  cbn [parse_elements]. rewrite <- app_assoc.
  unfold message_json at 1.
  replace (length t + 4 + f)%nat with (4 + (length t + f))%nat by lia.
  rewrite parse_message. cbn [mbind option_bind].
  destruct t as [|m' t].
  - cbn [fmap list_fmap app skip_ws is_json_ws N.eqb Pos.eqb orb]. done.
  - cbn [fmap list_fmap app skip_ws is_json_ws N.eqb Pos.eqb orb].
    change (message_json m' :: (message_json <$> t))
      with (message_json <$> (m' :: t)).
    replace (4 + (length (m' :: t) + f))%nat
      with (length (m' :: t) + 4 + f)%nat by lia.
    rewrite IH by done. done.
Qed.

Lemma length_message_elements (t : list Message) :
  (length t <= length (stringify_elements host (message_json <$> t)))%nat.
Proof.
  induction t as [|m t IH]; [done|].
  cbn [fmap list_fmap stringify_elements].
  destruct (stringify_message_head (role_name (role m)) (content m))
    as [x Hx].
  unfold message_json at 1. rewrite Hx.
  destruct t as [|m' t]; simpl; [lia|].
  rewrite length_app. simpl in IH |- *. lia.
Qed.

(** A transcript written by [JSON.stringify] is read back by
    [JSON.parse]. *)
Lemma parse_transcript (t : list Message) :
  JSON_parse (JSON_stringify host (transcript_json t))
  = Some (transcript_json t).
Proof.
  unfold transcript_json. destruct t as [|m t]; [reflexivity|].
  remember (m :: t) as l eqn:Hl.
  rewrite stringify_array. unfold JSON_parse.
  pose proof (length_message_elements l) as Hlen.
  remember (stringify_elements host (message_json <$> l)) as body eqn:Hbody.
  assert (Hhead : exists x, body = 123 :: x).
  { subst body l. cbn [fmap list_fmap stringify_elements].
    destruct (stringify_message_head (role_name (role m)) (content m))
      as [x Hx].
    unfold message_json at 1. rewrite Hx. eauto. }
  assert (Hfuel : exists f,
             (2 * length (91%N :: body ++ [93%N]) = length l + 4 + f)%nat).
  { exists (2 * length (91%N :: body ++ [93%N]) - (length l + 4))%nat.
    simpl. rewrite length_app. simpl.
    assert (1 <= length l)%nat by (subst l; simpl; lia). lia. }
  destruct Hfuel as [f Hf]. rewrite Hf.
  cbn [parse_value skip_ws is_json_ws N.eqb Pos.eqb orb].
  assert (Hnot : forall A (a : jsstring -> A) (b : A),
             match starts_with 93 (skip_ws (body ++ [93])) with
             | Some r1 => a r1
             | None => b
             end = b).
  { intros A a b. destruct Hhead as [x ->]. reflexivity. }
  rewrite Hnot. subst body.
  rewrite parse_message_elements by (subst l; done). reflexivity.
Qed.
End TranscriptText.

(** ** The history store *)

Lemma JSON_parse_empty : JSON_parse [] = None.
Proof. reflexivity. Qed.

Section HistoryStore.
Context (host : Host).

Lemma load_run (p : Page) :
  exists p',
    load p = (Normal (load_contract (localStorage p)), p')
    /\ with_console (console p) p' = p.
Proof.
  unfold load, load_contract, try_catch, bind, getItem, parse_or_throw,
    console_log, modify, ret, throw.
  destruct p as [h busy [its rd acc] nodes inp d1 d2 ty susp con fe re un].
  cbn [localStorage readable items console].
  destruct rd; [|eexists; split_and!; reflexivity].
  destruct (its !! STORAGE_KEY) as [[|c r]|];
    [eexists; split_and!; reflexivity| |eexists; split_and!; reflexivity].
  destruct (JSON_parse (c :: r)); eexists; split_and!; reflexivity.
Qed.

(** C5: [load()] never throws; it returns what the contract of the history
    store says: the persisted transcript when the stored text is there and
    parses, and otherwise (nothing stored, storage unreadable, text that
    does not parse) the one-element transcript holding the welcome message
    of the assistant.  The page is left as it was, the console apart. *)
Theorem load_meets_contract (p : Page) :
  exists p',
    load p = (Normal (load_contract (localStorage p)), p')
    /\ with_console (console p) p' = p
    /\ load_contract empty_storage
       = JArr [message_object (js "assistant") welcome_text].
Proof.
  destruct (load_run p) as (p' & H1 & H2). exists p'. split_and!; done.
Qed.

(** C10: [load()] does not look at what the stored text parses to.  Any
    stored text that parses is returned as it is, also when it is not an
    array of messages: [null] gives [null] and [{}] an empty object.  The
    welcome message is the first element of the transcript only when nothing
    is stored, the storage cannot be read or the text does not parse. *)
Theorem load_does_not_validate :
  (forall p raw v,
      readable (localStorage p) = true ->
      items (localStorage p) !! STORAGE_KEY = Some raw ->
      JSON_parse raw = Some v ->
      (load p).1 = Normal v)
  /\ (load (blank (storage_with (js "null")) [])).1 = Normal JNull
  /\ (load (blank (storage_with (js "{}")) [])).1 = Normal (JObj [])
  /\ (forall p,
         readable (localStorage p) = false
         \/ items (localStorage p) !! STORAGE_KEY = None
         \/ (exists raw, items (localStorage p) !! STORAGE_KEY = Some raw
                         /\ JSON_parse raw = None) ->
         (load p).1 = Normal (transcript_json [welcome])).
Proof.
  assert (Hgen : forall p raw v,
             readable (localStorage p) = true ->
             items (localStorage p) !! STORAGE_KEY = Some raw ->
             JSON_parse raw = Some v ->
             (load p).1 = Normal v).
  { intros p raw v Hr Hi Hp.
    unfold load, try_catch, bind, getItem, parse_or_throw, ret.
    rewrite Hr, Hi. destruct raw as [|c r]; [by rewrite JSON_parse_empty in Hp|].
    by rewrite Hp. }
  split_and!.
  - exact Hgen.
  - apply (Hgen _ (js "null")); [done|apply lookup_singleton_eq|reflexivity].
  - apply (Hgen _ (js "{}")); [done|apply lookup_singleton_eq|reflexivity].
  - intros p H.
    destruct (load_run p) as (p' & -> & _).
    cbn [fst]. f_equal. unfold load_contract.
    destruct H as [-> | [Hn | (raw & Hs & Hp)]]; [done| |].
    + rewrite Hn. by destruct (readable _).
    + rewrite Hs. destruct (readable _); [by rewrite Hp|done].
Qed.

(** C8: when a message is appended to a transcript and the write to the
    storage succeeds, a fresh page that reads the same storage loads a
    transcript whose last element is that message (it loads the whole
    transcript, the new message included). *)
Theorem append_then_load (p : Page) (t : list Message) (m : Message)
    (nodes : list Node) :
  chatHistory p = transcript_json t ->
  accepts (localStorage p) STORAGE_KEY
    (JSON_stringify host (transcript_json (t ++ [m]))) = true ->
  readable (localStorage p) = true ->
  exists p1 p2 l,
    append host (message_json m) p = (Normal tt, p1)
    /\ load (blank (localStorage p1) nodes) = (Normal (JArr l), p2)
    /\ last l = Some (message_json m)
    /\ JArr l = transcript_json (t ++ [m]).
Proof.
  intros Hh Hacc Hread.
  assert (Hpush : (message_json <$> t) ++ [message_json m]
                  = message_json <$> (t ++ [m])) by (by rewrite fmap_app).
  pose proof (parse_transcript host (t ++ [m])) as Hparse.
  destruct (JSON_stringify host (transcript_json (t ++ [m])))
    as [|c r] eqn:Etext.
  { unfold transcript_json in Etext. by rewrite stringify_array in Etext. }
  cbv [append bind chatHistory_push gets modify saveChatHistory try_catch
         setItem].
  rewrite Hh. unfold transcript_json at 1. cbv beta iota.
  cbn [chatHistory with_chatHistory localStorage].
  rewrite Hpush. fold (transcript_json (t ++ [m])).
  rewrite Etext, Hacc.
  eexists _, _, (message_json <$> (t ++ [m])). split; [reflexivity|].
  cbn [localStorage with_localStorage].
  split_and!.
  - unfold load, try_catch, bind, getItem, parse_or_throw, ret.
    cbn [blank localStorage readable items]. rewrite Hread.
    rewrite lookup_insert_eq.
    rewrite Hparse. reflexivity.
  - rewrite fmap_app. apply last_snoc.
  - reflexivity.
Qed.
End HistoryStore.

(** ** The renderer *)

Section Renderer.
Context (host : Host).

Lemma draw_messages (t : list Message) (p : Page) :
  for_each (message_json <$> t)
    (fun msg =>
       r <- get_member msg (js "role") ;;
       c <- get_member msg (js "content") ;;
       addMessageToChat host r c) p
  = (Normal tt,
     with_chatMessages (chatMessages p ++ (message_node host <$> t)) p).
Proof.
  revert p. induction t as [|m t IH]; intros p.
  - cbn. rewrite app_nil_r. by destruct p.
  - cbn [fmap list_fmap for_each]. unfold bind at 1.
    change (list_fmap _ _ message_json t) with (message_json <$> t).
    assert (Hone :
      (r <- get_member (message_json m) (js "role") ;;
       c <- get_member (message_json m) (js "content") ;;
       addMessageToChat host r c) p
      = (Normal tt,
         with_chatMessages (chatMessages p ++ [message_node host m]) p)).
    { reflexivity. }
    rewrite Hone, IH. cbn [chatMessages with_chatMessages].
    rewrite <- app_assoc. by destruct p.
Qed.

(** C9: drawing a transcript clears the message list and then shows one
    element per message, in the order of the transcript: afterwards the list
    has as many elements as the transcript has messages, the element at each
    position being the one of the message at that position, whatever was
    shown before. *)
Theorem render_shows_transcript (p : Page) (t : list Message) :
  exists p',
    renderChatFromHistory host (with_chatHistory (transcript_json t) p)
    = (Normal tt, p')
    /\ chatMessages p' = message_node host <$> t
    /\ length (chatMessages p') = length t
    /\ (forall i, chatMessages p' !! i = message_node host <$> t !! i).
Proof.
  eexists. split.
  - unfold renderChatFromHistory, iterate, transcript_json.
    unfold bind at 1. unfold modify at 1.
    unfold bind at 1. unfold gets at 1. cbn [chatHistory with_chatHistory with_chatMessages].
    unfold bind at 1. unfold ret at 1.
    rewrite draw_messages. reflexivity.
  - cbn [chatMessages with_chatMessages app].
    split_and!; [done|by rewrite length_fmap|].
    intros i. by rewrite list_lookup_fmap.
Qed.
End Renderer.

(** ** Reading a field of the pages of an exchange *)

Section Fields.
Context (host : Host).

Lemma chatHistory_saved p : chatHistory (saved host p) = chatHistory p.
Proof. unfold saved. by destruct (accepts _ _ _). Qed.

Lemma isProcessing_saved p : isProcessing (saved host p) = isProcessing p.
Proof. unfold saved. by destruct (accepts _ _ _). Qed.

Lemma chatMessages_saved p : chatMessages (saved host p) = chatMessages p.
Proof. unfold saved. by destruct (accepts _ _ _). Qed.

Lemma suspended_saved p : suspended (saved host p) = suspended p.
Proof. unfold saved. by destruct (accepts _ _ _). Qed.

Lemma fetches_saved p : fetches (saved host p) = fetches p.
Proof. unfold saved. by destruct (accepts _ _ _). Qed.

Lemma redraws_saved p : redraws (saved host p) = redraws p.
Proof. unfold saved. by destruct (accepts _ _ _). Qed.

Lemma uncaught_saved p : uncaught (saved host p) = uncaught p.
Proof. unfold saved. by destruct (accepts _ _ _). Qed.

Lemma accepts_saved p :
  accepts (localStorage (saved host p)) = accepts (localStorage p).
Proof. unfold saved. by destruct (accepts _ _ _). Qed.

Lemma chatHistory_read_lines el text lines p :
  chatHistory (read_lines host el text lines p) = chatHistory p.
Proof. reflexivity. Qed.

Lemma isProcessing_read_lines el text lines p :
  isProcessing (read_lines host el text lines p) = isProcessing p.
Proof. reflexivity. Qed.

Lemma localStorage_read_lines el text lines p :
  localStorage (read_lines host el text lines p) = localStorage p.
Proof. reflexivity. Qed.

Lemma suspended_read_lines el text lines p :
  suspended (read_lines host el text lines p) = suspended p.
Proof. reflexivity. Qed.

Lemma fetches_read_lines el text lines p :
  fetches (read_lines host el text lines p) = fetches p.
Proof. reflexivity. Qed.

Lemma uncaught_read_lines el text lines p :
  uncaught (read_lines host el text lines p) = uncaught p.
Proof. reflexivity. Qed.

Lemma redraws_read_lines el text lines p :
  redraws (read_lines host el text lines p)
  = redraws p ++ redraw_log host el text lines.
Proof. reflexivity. Qed.

Lemma console_read_lines el text lines p :
  console (read_lines host el text lines p) = console p ++ error_log lines.
Proof. reflexivity. Qed.

Lemma chatHistory_settled p : chatHistory (settled p) = chatHistory p.
Proof. reflexivity. Qed.

Lemma isProcessing_settled p : isProcessing (settled p) = false.
Proof. reflexivity. Qed.

Lemma localStorage_settled p : localStorage (settled p) = localStorage p.
Proof. reflexivity. Qed.

Lemma chatMessages_settled p : chatMessages (settled p) = chatMessages p.
Proof. reflexivity. Qed.

Lemma suspended_settled p : suspended (settled p) = suspended p.
Proof. reflexivity. Qed.

Lemma console_settled p : console (settled p) = console p.
Proof. reflexivity. Qed.

Lemma fetches_settled p : fetches (settled p) = fetches p.
Proof. reflexivity. Qed.

Lemma redraws_settled p : redraws (settled p) = redraws p.
Proof. reflexivity. Qed.

Lemma uncaught_settled p : uncaught (settled p) = uncaught p.
Proof. reflexivity. Qed.

Lemma chatHistory_sent l message p :
  chatHistory (sent host l message p)
  = JArr (l ++ [message_object (js "user") message]).
Proof.
  unfold sent. cbv zeta.
  by rewrite chatHistory_with_fetches, chatHistory_with_chatMessages,
    chatHistory_saved, chatHistory_with_chatHistory.
Qed.

Lemma isProcessing_sent l message p :
  isProcessing (sent host l message p) = true.
Proof.
  unfold sent. cbv zeta.
  rewrite isProcessing_with_fetches, isProcessing_with_chatMessages,
    isProcessing_saved.
  reflexivity.
Qed.

Lemma suspended_sent l message p :
  suspended (sent host l message p) = suspended p.
Proof.
  unfold sent. cbv zeta.
  rewrite suspended_with_fetches, suspended_with_chatMessages,
    suspended_saved.
  reflexivity.
Qed.

Lemma redraws_sent l message p :
  redraws (sent host l message p) = redraws p.
Proof.
  unfold sent. cbv zeta.
  rewrite redraws_with_fetches, redraws_with_chatMessages, redraws_saved.
  reflexivity.
Qed.

Lemma uncaught_sent l message p :
  uncaught (sent host l message p) = uncaught p.
Proof.
  unfold sent. cbv zeta.
  rewrite uncaught_with_fetches, uncaught_with_chatMessages, uncaught_saved.
  reflexivity.
Qed.

Lemma accepts_sent l message p :
  accepts (localStorage (sent host l message p)) = accepts (localStorage p).
Proof.
  unfold sent. cbv zeta.
  rewrite localStorage_with_fetches, localStorage_with_chatMessages,
    accepts_saved.
  reflexivity.
Qed.

Lemma fetches_sent l message p :
  fetches (sent host l message p)
  = fetches p
    ++ [JSON_stringify host
          (JObj [(js "messages",
                  JArr (l ++ [message_object (js "user") message]))])].
Proof.
  unfold sent. cbv zeta.
  rewrite fetches_with_fetches, fetches_saved, chatHistory_saved.
  reflexivity.
Qed.

Lemma chatHistory_failed l p :
  chatHistory (failed host l p)
  = JArr (l ++ [message_object (js "assistant") errMsg]).
Proof. unfold failed. by rewrite chatHistory_saved. Qed.

Lemma isProcessing_failed l p :
  isProcessing (failed host l p) = isProcessing p.
Proof. unfold failed. by rewrite isProcessing_saved. Qed.

Lemma suspended_failed l p : suspended (failed host l p) = suspended p.
Proof. unfold failed. by rewrite suspended_saved. Qed.

Lemma fetches_failed l p : fetches (failed host l p) = fetches p.
Proof. unfold failed. by rewrite fetches_saved. Qed.

Lemma redraws_failed l p : redraws (failed host l p) = redraws p.
Proof. unfold failed. by rewrite redraws_saved. Qed.

Lemma uncaught_failed l p : uncaught (failed host l p) = uncaught p.
Proof. unfold failed. by rewrite uncaught_saved. Qed.

Lemma chatMessages_failed l p :
  chatMessages (failed host l p)
  = chatMessages p
    ++ [message_node host {| role := Assistant; content := errMsg |}].
Proof. unfold failed. by rewrite chatMessages_saved. Qed.
End Fields.

#[global] Hint Rewrite chatHistory_saved isProcessing_saved
  chatMessages_saved suspended_saved fetches_saved redraws_saved
  uncaught_saved accepts_saved : page.
#[global] Hint Rewrite chatHistory_read_lines isProcessing_read_lines
  localStorage_read_lines suspended_read_lines fetches_read_lines
  uncaught_read_lines redraws_read_lines console_read_lines : page.
#[global] Hint Rewrite chatHistory_settled isProcessing_settled
  localStorage_settled chatMessages_settled suspended_settled
  console_settled fetches_settled redraws_settled uncaught_settled : page.
#[global] Hint Rewrite chatHistory_sent isProcessing_sent suspended_sent
  redraws_sent uncaught_sent accepts_sent fetches_sent : page.
#[global] Hint Rewrite chatHistory_failed isProcessing_failed
  suspended_failed fetches_failed redraws_failed uncaught_failed
  chatMessages_failed : page.

(** Projections of pages built with the [with_] functions. *)
Ltac page_simpl :=
  cbn [chatHistory isProcessing localStorage chatMessages userInput_value
       userInput_disabled sendButton_disabled typing_visible suspended
       console fetches redraws uncaught with_chatHistory with_isProcessing
       with_localStorage with_chatMessages with_userInput_value with_disabled
       with_typing_visible with_suspended with_console with_fetches
       with_redraws with_uncaught] in *.

(** ** One exchange, event by event *)

Section Exchange.
Context (host : Host).

Lemma saveChatHistory_run p : saveChatHistory host p = (Normal tt, saved host p).
Proof.
  cbv [saveChatHistory try_catch bind gets setItem saved console_log modify].
  by destruct (accepts _ _ _).
Qed.

Lemma append_run p l m :
  chatHistory p = JArr l ->
  append host m p
  = (Normal tt, saved host (with_chatHistory (JArr (l ++ [m])) p)).
Proof.
  intros Hl. cbv [append bind chatHistory_push gets]. rewrite Hl.
  unfold modify. apply saveChatHistory_run.
Qed.

Lemma finally_block_run p : finally_block p = (Normal tt, settled p).
Proof. reflexivity. Qed.

Lemma catch_block_run p l :
  chatHistory p = JArr l ->
  catch_block host p = (Normal tt, failed host l p).
Proof.
  intros Hl. unfold catch_block, failed.
  unfold bind at 1. unfold console_log at 1, modify at 1.
  unfold bind at 1. unfold addMessageToChat at 1, modify at 1.
  rewrite (append_run _ l) by done. reflexivity.
Qed.

Lemma consume_line_run el text line p :
  consume_line host el text line p
  = (Normal (text ++ default [] (line_response host line)),
     read_lines host el text [line] p).
Proof.
  unfold consume_line, read_lines, error_log, line_response, line_fails.
  cbn [redraw_log List.filter]. unfold line_response, line_fails.
  cbv [try_catch bind parse_or_throw].
  destruct p as [h busy st nodes inp d1 d2 ty susp con fe re un].
  destruct (JSON_parse line) as [[| | | | |props]|]; cbn; rewrite ?app_nil_r; try reflexivity.
  destruct (ToBoolean (obj_get (js "response") props)); cbn; rewrite ?app_nil_r; reflexivity.
Qed.


Lemma redraw_log_app el text l1 l2 :
  redraw_log host el text (l1 ++ l2)
  = redraw_log host el text l1
    ++ redraw_log host el (accumulate host text l1) l2.
Proof.
  revert text. induction l1 as [|l l1 IH]; intros text; [done|].
  cbn [app redraw_log accumulate].
  destruct (line_response host l) as [r|]; cbn [default].
  - by rewrite IH.
  - rewrite app_nil_r. apply IH.
Qed.

Lemma accumulate_app text l1 l2 :
  accumulate host text (l1 ++ l2)
  = accumulate host (accumulate host text l1) l2.
Proof.
  revert text. induction l1 as [|l l1 IH]; intros text; [done|].
  cbn [app accumulate]. apply IH.
Qed.

Lemma error_log_app l1 l2 : error_log (l1 ++ l2) = error_log l1 ++ error_log l2.
Proof. unfold error_log. by rewrite List.filter_app, fmap_app. Qed.

Lemma apply_redraws_app log1 log2 nodes :
  apply_redraws host (log1 ++ log2) nodes
  = apply_redraws host log2 (apply_redraws host log1 nodes).
Proof. apply fold_left_app. Qed.

Lemma read_lines_app el text l1 l2 p :
  read_lines host el text (l1 ++ l2) p
  = read_lines host el (accumulate host text l1) l2
      (read_lines host el text l1 p).
Proof.
  unfold read_lines. destruct p. cbn.
  rewrite redraw_log_app, error_log_app, apply_redraws_app, !app_assoc.
  reflexivity.
Qed.

Lemma consume_lines_run el text lines p :
  consume_lines host el text lines p
  = (Normal (accumulate host text lines), read_lines host el text lines p).
Proof.
  revert text p. induction lines as [|l ls IH]; intros text p.
  - unfold read_lines, error_log. cbn. rewrite !app_nil_r. by destruct p.
  - cbn [consume_lines]. unfold bind. rewrite consume_line_run, IH.
    change (l :: ls) with ([l] ++ ls). rewrite read_lines_app.
    cbn [accumulate app]. reflexivity.
Qed.

(** An accepted submission: the call runs up to [fetch] and is suspended. *)
Lemma step_send p l message :
  isProcessing p = false ->
  chatHistory p = JArr l ->
  trim (userInput_value p) = message ->
  message <> [] ->
  step host p UserSend
  = with_suspended
      (suspended p ++ [AwaitFetch (S (length (chatMessages p)))])
      (sent host l message p).
Proof.
  intros Hbusy Hl Hm Hne.
  destruct p as [h busy st nodes inp d1 d2 ty susp con fe re un].
  page_simpl. subst h busy.
  unfold step, call, sendMessage.
  cbv [bind gets]. page_simpl. rewrite Hm.
  rewrite bool_decide_eq_false_2 by done. cbn [orb].
  unfold modify at 1 2. unfold addMessageToChat at 1. unfold modify at 1 2 3.
  unfold append. cbv [bind chatHistory_push gets modify]. page_simpl.
  rewrite saveChatHistory_run.
  unfold sent, saved. page_simpl.
  destruct (accepts st _ _);
    cbv [guarded try_finally try_catch bind gets modify await];
    page_simpl; rewrite length_app; cbn [length];
    replace (length nodes + 1)%nat with (S (length nodes)) by lia;
    reflexivity.
Qed.

(** The response arrives with a success status and a body. *)
Lemma step_fetch_ok p el :
  suspended p = [AwaitFetch el] ->
  step host p (FetchSettled 0 (FetchResolved true true))
  = with_suspended [AwaitRead el []] p.
Proof.
  intros Hs. unfold step. rewrite Hs. cbn [lookup list_lookup].
  unfold resume, after_fetch. cbn [negb].
  cbv [guarded try_finally try_catch await]. by rewrite Hs.
Qed.

(** A chunk is read. *)
Lemma step_chunk p el text chunk :
  suspended p = [AwaitRead el text] ->
  step host p (ReadSettled 0 (ReadChunk chunk))
  = with_suspended
      [AwaitRead el (accumulate host text (split_lines chunk))]
      (read_lines host el text (split_lines chunk) p).
Proof.
  intros Hs. unfold step. rewrite Hs. cbn [lookup list_lookup].
  unfold resume, after_read.
  cbv [guarded try_finally try_catch bind await].
  rewrite consume_lines_run.
  cbn [suspended read_lines with_console with_redraws with_chatMessages].
  by rewrite Hs.
Qed.

(** The stream closes. *)
Lemma step_done p el text l :
  suspended p = [AwaitRead el text] ->
  chatHistory p = JArr l ->
  step host p (ReadSettled 0 ReadDone)
  = with_suspended []
      (settled
         (saved host
            (with_chatHistory
               (JArr (l ++ [message_object (js "assistant") text])) p))).
Proof.
  intros Hs Hl. unfold step. rewrite Hs. cbn [lookup list_lookup].
  unfold resume, after_read.
  cbv [guarded try_finally try_catch].
  rewrite (append_run _ l) by done. rewrite finally_block_run.
  cbn [suspended settled with_disabled with_isProcessing with_typing_visible].
  rewrite suspended_saved. cbn [suspended with_chatHistory]. by rewrite Hs.
Qed.

(** The body of the [try] throws: the [catch] and the [finally] blocks
    run. *)
Lemma guarded_throw p l :
  chatHistory p = JArr l ->
  guarded host throw p = (Normal tt, settled (failed host l p)).
Proof.
  intros Hl. cbv [guarded try_finally try_catch throw].
  rewrite (catch_block_run _ l) by done. by rewrite finally_block_run.
Qed.

Lemma suspended_settled_failed p l :
  suspended (settled (failed host l p)) = suspended p.
Proof.
  unfold settled, failed.
  cbn [suspended with_disabled with_isProcessing with_typing_visible].
  by rewrite suspended_saved.
Qed.

(** [fetch] rejects, or the status is not a success. *)
Lemma step_fetch_fails p el l r :
  suspended p = [AwaitFetch el] ->
  chatHistory p = JArr l ->
  r = FetchRejected \/ (exists has_body, r = FetchResolved false has_body) ->
  step host p (FetchSettled 0 r)
  = with_suspended [] (settled (failed host l p)).
Proof.
  intros Hs Hl Hr. unfold step. rewrite Hs. cbn [lookup list_lookup].
  unfold resume, after_fetch.
  assert (Hbody : match r with
                  | FetchRejected => throw
                  | FetchResolved ok has_body =>
                      if negb ok then throw
                      else if negb has_body then throw
                      else await (AwaitRead el [])
                  end = (throw : Script unit)).
  { destruct Hr as [-> | [b ->]]; reflexivity. }
  rewrite Hbody, (guarded_throw _ l) by done.
  by rewrite suspended_settled_failed, Hs.
Qed.

(** A read rejects. *)
Lemma step_read_fails p el text l :
  suspended p = [AwaitRead el text] ->
  chatHistory p = JArr l ->
  step host p (ReadSettled 0 ReadRejected)
  = with_suspended [] (settled (failed host l p)).
Proof.
  intros Hs Hl. unfold step. rewrite Hs. cbn [lookup list_lookup].
  unfold resume, after_read. rewrite (guarded_throw _ l) by done.
  by rewrite suspended_settled_failed, Hs.
Qed.

Lemma read_lines_nil el text p : read_lines host el text [] p = p.
Proof.
  unfold read_lines, error_log. destruct p. cbn. by rewrite !app_nil_r.
Qed.

Lemma read_lines_with_suspended el text lines s p :
  read_lines host el text lines (with_suspended s p)
  = with_suspended s (read_lines host el text lines p).
Proof. reflexivity. Qed.

Lemma with_suspended_twice s s' p :
  with_suspended s (with_suspended s' p) = with_suspended s p.
Proof. reflexivity. Qed.

Lemma with_suspended_same p s : suspended p = s -> with_suspended s p = p.
Proof. intros <-. by destruct p. Qed.

(** All the chunks of a body are read. *)
Lemma run_chunks chunks p el text :
  suspended p = [AwaitRead el text] ->
  run host p (chunk_events chunks)
  = with_suspended
      [AwaitRead el (accumulate host text (lines_of chunks))]
      (read_lines host el text (lines_of chunks) p).
Proof.
  revert p text. induction chunks as [|c chunks IH]; intros p text Hs.
  - cbn. rewrite read_lines_nil. symmetry. by apply with_suspended_same.
  - cbn [chunk_events fmap list_fmap run fold_left].
    rewrite (step_chunk _ el text) by done.
    change (fold_left (step host) ?evs ?q) with (run host q evs).
    change (list_fmap _ _ ?f chunks) with (chunk_events chunks).
    rewrite (IH _ (accumulate host text (split_lines c))) by reflexivity.
    rewrite read_lines_with_suspended, with_suspended_twice.
    unfold lines_of. cbn [fmap list_fmap concat].
    by rewrite accumulate_app, read_lines_app.
Qed.

Lemma step_input p text :
  step host p (UserInput text) = with_userInput_value text p.
Proof. reflexivity. Qed.

Lemma run_app p evs1 evs2 :
  run host p (evs1 ++ evs2) = run host (run host p evs1) evs2.
Proof. apply fold_left_app. Qed.

(** The page when the last chunk of a body was read: the user typed
    [text] and sent it, the response arrived and the chunks were read. *)
Lemma run_to_last_chunk p l text chunks :
  isProcessing p = false ->
  suspended p = [] ->
  chatHistory p = JArr l ->
  trim text <> [] ->
  run host p
    (UserInput text :: UserSend :: FetchSettled 0 (FetchResolved true true)
     :: chunk_events chunks)
  = with_suspended
      [AwaitRead (S (length (chatMessages p)))
         (accumulate host [] (lines_of chunks))]
      (read_lines host (S (length (chatMessages p))) [] (lines_of chunks)
         (sent host l (trim text) (with_userInput_value text p))).
Proof.
  intros Hbusy Hs Hl Hne.
  cbn [run fold_left]. rewrite step_input.
  rewrite (step_send _ l (trim text)) by done.
  cbn [suspended chatMessages with_userInput_value]. rewrite Hs. cbn [app].
  rewrite (step_fetch_ok _ (S (length (chatMessages p)))) by reflexivity.
  rewrite with_suspended_twice.
  change (fold_left (step host) ?evs ?q) with (run host q evs).
  rewrite (run_chunks _ _ (S (length (chatMessages p))) []) by reflexivity.
  by rewrite read_lines_with_suspended, with_suspended_twice.
Qed.

(** The page after a whole exchange that ends with the stream closing. *)
Lemma run_stream p l text chunks :
  isProcessing p = false ->
  suspended p = [] ->
  chatHistory p = JArr l ->
  trim text <> [] ->
  run host p (UserInput text :: stream_events chunks)
  = with_suspended []
      (settled
         (saved host
            (with_chatHistory
               (JArr ((l ++ [message_object (js "user") (trim text)])
                      ++ [message_object (js "assistant")
                            (accumulate host [] (lines_of chunks))]))
               (with_suspended
                  [AwaitRead (S (length (chatMessages p)))
                     (accumulate host [] (lines_of chunks))]
                  (read_lines host (S (length (chatMessages p))) []
                     (lines_of chunks)
                     (sent host l (trim text)
                        (with_userInput_value text p))))))).
Proof.
  intros Hbusy Hs Hl Hne. unfold stream_events.
  rewrite !app_comm_cons, run_app, (run_to_last_chunk _ l) by done.
  unfold run, fold_left.
  eapply step_done.
  - apply suspended_with_suspended.
  - rewrite chatHistory_with_suspended, chatHistory_read_lines.
    apply chatHistory_sent.
Qed.

(** The page after an exchange that fails. *)
Lemma run_failure p l text f :
  isProcessing p = false ->
  suspended p = [] ->
  chatHistory p = JArr l ->
  trim text <> [] ->
  run host p (UserInput text :: failure_events f)
  = with_suspended []
      (settled
         (failed host (l ++ [message_object (js "user") (trim text)])
            (page_at_failure host l text p f))).
Proof.
  intros Hbusy Hs Hl Hne.
  assert (Hfetch : forall r,
    r = FetchRejected \/ (exists has_body, r = FetchResolved false has_body) ->
    run host p [UserInput text; UserSend; FetchSettled 0 r]
    = with_suspended []
        (settled
           (failed host (l ++ [message_object (js "user") (trim text)])
              (with_suspended [AwaitFetch (S (length (chatMessages p)))]
                 (sent host l (trim text) (with_userInput_value text p)))))).
  { intros r Hr. unfold run, fold_left. rewrite step_input.
    rewrite (step_send _ l (trim text));
      [|by rewrite isProcessing_with_userInput_value
       |by rewrite chatHistory_with_userInput_value
       |by rewrite userInput_value_with_userInput_value
       |done].
    rewrite suspended_with_userInput_value, chatMessages_with_userInput_value,
      Hs, app_nil_l.
    eapply step_fetch_fails; [apply suspended_with_suspended| |done].
    rewrite chatHistory_with_suspended. apply chatHistory_sent. }
  destruct f as [|has_body|chunks]; unfold failure_events, page_at_failure;
    cbv zeta.
  - apply Hfetch. by left.
  - apply Hfetch. right. by eexists.
  - rewrite !app_comm_cons, run_app, (run_to_last_chunk _ l) by done.
    unfold run, fold_left.
    eapply step_read_fails; [apply suspended_with_suspended|].
    rewrite chatHistory_with_suspended, chatHistory_read_lines.
    apply chatHistory_sent.
Qed.
End Exchange.

(** ** The stream consumer *)

Section StreamConsumer.
Context (host : Host).

Lemma line_response_empty : line_response host [] = None.
Proof. reflexivity. Qed.

(** Empty lines add nothing to the accumulator. *)
Lemma accumulate_nonempty text lines :
  accumulate host text lines
  = accumulate host text (filter (fun l => l <> []) lines).
Proof.
  revert text. induction lines as [|line lines IH]; intros text; [done|].
  rewrite filter_cons. destruct (decide (line <> [])) as [Hne|Heq].
  - cbn [accumulate]. apply IH.
  - apply dec_stable in Heq. subst line.
    cbn [accumulate]. rewrite line_response_empty. cbn [default].
    rewrite app_nil_r. apply IH.
Qed.

(** Empty lines cause no redraw. *)
Lemma redraw_log_nonempty el text lines :
  redraw_log host el text lines
  = redraw_log host el text (filter (fun l => l <> []) lines).
Proof.
  revert text. induction lines as [|line lines IH]; intros text; [done|].
  rewrite filter_cons. destruct (decide (line <> [])) as [Hne|Heq].
  - cbn [redraw_log]. destruct (line_response host line); by rewrite IH.
  - apply dec_stable in Heq. subst line.
    cbn [redraw_log]. rewrite line_response_empty. apply IH.
Qed.

(** A line that fails is in the console. *)
Lemma failing_line_logged line lines :
  line ∈ lines -> line_fails line = true ->
  ErrorParsing line ∈ error_log lines.
Proof.
  intros Hin Hfail. unfold error_log. apply list_elem_of_fmap.
  exists line. split; [done|].
  apply list_elem_of_In, List.filter_In. split; [|done].
  by apply list_elem_of_In.
Qed.

(** What an exchange that ends with the stream closing leaves. *)
Lemma stream_outcome p l text chunks :
  isProcessing p = false ->
  suspended p = [] ->
  chatHistory p = JArr l ->
  trim text <> [] ->
  let p' := run host p (UserInput text :: stream_events chunks) in
  let reply := accumulate host [] (nonempty_lines chunks) in
  chatHistory p'
  = JArr (l ++ [message_object (js "user") (trim text);
                message_object (js "assistant") reply])
  /\ redraws p'
     = redraws p
       ++ redraw_log host (S (length (chatMessages p))) []
            (nonempty_lines chunks)
  /\ isProcessing p' = false
  /\ suspended p' = []
  /\ uncaught p' = uncaught p
  /\ (forall line, line ∈ lines_of chunks -> line_fails line = true ->
                   ErrorParsing line ∈ console p').
Proof.
  intros Hbusy Hs Hl Hne p' reply. subst p' reply.
  rewrite (run_stream _ _ l) by done.
  unfold nonempty_lines.
  rewrite <- accumulate_nonempty, <- redraw_log_nonempty.
  split_and!.
  - autorewrite with page. by rewrite <- app_assoc.
  - by autorewrite with page.
  - by autorewrite with page.
  - by autorewrite with page.
  - by autorewrite with page.
  - intros line Hin Hfail.
    rewrite console_with_suspended, console_settled.
    assert (Hlog : ErrorParsing line
                   ∈ console
                       (with_chatHistory
                          (JArr ((l ++ [message_object (js "user") (trim text)])
                                 ++ [message_object (js "assistant")
                                       (accumulate host [] (lines_of chunks))]))
                          (with_suspended
                             [AwaitRead (S (length (chatMessages p)))
                                (accumulate host [] (lines_of chunks))]
                             (read_lines host (S (length (chatMessages p))) []
                                (lines_of chunks)
                                (sent host l (trim text)
                                   (with_userInput_value text p)))))).
    { rewrite console_with_chatHistory, console_with_suspended,
        console_read_lines.
      apply elem_of_app. right. by apply failing_line_logged. }
    revert Hlog. generalize (with_chatHistory
                          (JArr ((l ++ [message_object (js "user") (trim text)])
                                 ++ [message_object (js "assistant")
                                       (accumulate host [] (lines_of chunks))]))
                          (with_suspended
                             [AwaitRead (S (length (chatMessages p)))
                                (accumulate host [] (lines_of chunks))]
                             (read_lines host (S (length (chatMessages p))) []
                                (lines_of chunks)
                                (sent host l (trim text)
                                   (with_userInput_value text p))))).
    intros q Hq. unfold saved. destruct (accepts _ _ _).
    + by rewrite console_with_localStorage.
    + rewrite console_with_console. apply elem_of_app. by left.
Qed.

(** C1: when the body of the response delivers the complete lines
    [{"response":"Hel"}] and [{"response":"lo"}], in one chunk or in several,
    and then closes, the fragments are accumulated in order: the message of
    the assistant appended to the transcript has the content [Hello], and
    the pending element is redrawn exactly twice, from [Hel] and then from
    [Hello]. *)
Theorem hello_stream (p : Page) (l : list json) (text : jsstring)
    (chunks : list jsstring) :
  isProcessing p = false ->
  suspended p = [] ->
  chatHistory p = JArr l ->
  trim text <> [] ->
  nonempty_lines chunks
  = [jsq "{'response':'Hel'}"; jsq "{'response':'lo'}"] ->
  let p' := run host p (UserInput text :: stream_events chunks) in
  chatHistory p'
  = JArr (l ++ [message_object (js "user") (trim text);
                message_json {| role := Assistant; content := js "Hello" |}])
  /\ last_message p'
     = Some (message_json {| role := Assistant; content := js "Hello" |})
  /\ redraws p'
     = redraws p ++ [(S (length (chatMessages p)), js "Hel");
                     (S (length (chatMessages p)), js "Hello")]
  /\ isProcessing p' = false
  /\ suspended p' = []
  /\ uncaught p' = uncaught p.
Proof.
  intros Hbusy Hs Hl Hne Hlines p'.
  destruct (stream_outcome p l text chunks Hbusy Hs Hl Hne)
    as (Hh & Hr & Hb & Hsu & Hu & _).
  fold p' in Hh, Hr, Hb, Hsu, Hu. rewrite Hlines in Hh, Hr.
  assert (Hacc : accumulate host []
                   [jsq "{'response':'Hel'}"; jsq "{'response':'lo'}"]
                 = js "Hello") by (vm_compute; reflexivity).
  assert (Hlog : forall el,
             redraw_log host el []
               [jsq "{'response':'Hel'}"; jsq "{'response':'lo'}"]
             = [(el, js "Hel"); (el, js "Hello")])
    by (intros el; vm_compute; reflexivity).
  rewrite Hacc in Hh. rewrite Hlog in Hr.
  split_and!; try done.
  unfold last_message. rewrite Hh.
  rewrite cons_middle, app_assoc. apply last_snoc.
Qed.

(** C2: when the body delivers a line that is not valid JSON and then the
    line [{"response":"ok"}], the malformed line is skipped: it is logged
    with [console.error], it causes no redraw, nothing is thrown out of the
    exchange, and the message of the assistant appended to the transcript
    has the content [ok]. *)
Theorem malformed_line_skipped (p : Page) (l : list json)
    (text bad : jsstring) (chunks : list jsstring) :
  isProcessing p = false ->
  suspended p = [] ->
  chatHistory p = JArr l ->
  trim text <> [] ->
  JSON_parse bad = None ->
  nonempty_lines chunks = [bad; jsq "{'response':'ok'}"] ->
  let p' := run host p (UserInput text :: stream_events chunks) in
  chatHistory p'
  = JArr (l ++ [message_object (js "user") (trim text);
                message_json {| role := Assistant; content := js "ok" |}])
  /\ last_message p'
     = Some (message_json {| role := Assistant; content := js "ok" |})
  /\ ErrorParsing bad ∈ console p'
  /\ redraws p' = redraws p ++ [(S (length (chatMessages p)), js "ok")]
  /\ uncaught p' = uncaught p
  /\ isProcessing p' = false
  /\ suspended p' = [].
Proof.
  intros Hbusy Hs Hl Hne Hbad Hlines p'.
  destruct (stream_outcome p l text chunks Hbusy Hs Hl Hne)
    as (Hh & Hr & Hb & Hsu & Hu & Hlog).
  fold p' in Hh, Hr, Hb, Hsu, Hu, Hlog. rewrite Hlines in Hh, Hr.
  assert (Hnone : line_response host bad = None)
    by (unfold line_response; by rewrite Hbad).
  assert (Hok : line_response host (jsq "{'response':'ok'}") = Some (js "ok"))
    by (vm_compute; reflexivity).
  cbn [accumulate redraw_log] in Hh, Hr.
  rewrite Hnone, Hok in Hh, Hr. cbn [default app] in Hh, Hr.
  split_and!; try done.
  - unfold last_message. rewrite Hh.
    rewrite cons_middle, app_assoc. apply last_snoc.
  - apply Hlog.
    + assert (Hin : bad ∈ nonempty_lines chunks)
        by (rewrite Hlines; apply list_elem_of_here).
      unfold nonempty_lines in Hin.
      by apply list_elem_of_filter in Hin as [_ Hin].
    + unfold line_fails. by rewrite Hbad.
Qed.

(** C3: a line that is split across two reads is lost.  The body below
    carries the two complete lines [{"response":"Hel"}] and
    [{"response":"lo"}]; read in one chunk it gives the reply [Hello]; read
    in two chunks that cut the second line, each chunk is split on its own
    line feeds, both halves of the line fail to parse and are only logged,
    and the reply is [Hel]. *)
Theorem split_line_dropped (p : Page) (l : list json) (text : jsstring) :
  isProcessing p = false ->
  suspended p = [] ->
  chatHistory p = JArr l ->
  trim text <> [] ->
  let c1 := jsq "{'response':'Hel'}" ++ [10] ++ jsq "{'respon" in
  let c2 := jsq "se':'lo'}" ++ [10] in
  let whole := run host p (UserInput text :: stream_events [c1 ++ c2]) in
  let cut := run host p (UserInput text :: stream_events [c1; c2]) in
  nonempty_lines [c1 ++ c2]
  = [jsq "{'response':'Hel'}"; jsq "{'response':'lo'}"]
  /\ last_message whole
     = Some (message_json {| role := Assistant; content := js "Hello" |})
  /\ last_message cut
     = Some (message_json {| role := Assistant; content := js "Hel" |})
  /\ redraws cut = redraws p ++ [(S (length (chatMessages p)), js "Hel")]
  /\ ErrorParsing (jsq "{'respon") ∈ console cut
  /\ ErrorParsing (jsq "se':'lo'}") ∈ console cut
  /\ uncaught cut = uncaught p.
Proof.
  intros Hbusy Hs Hl Hne c1 c2 whole cut.
  destruct (stream_outcome p l text [c1 ++ c2] Hbusy Hs Hl Hne)
    as (Hh1 & _).
  destruct (stream_outcome p l text [c1; c2] Hbusy Hs Hl Hne)
    as (Hh2 & Hr2 & _ & _ & Hu2 & Hlog2).
  fold whole in Hh1. fold cut in Hh2, Hr2, Hu2, Hlog2.
  assert (E1 : nonempty_lines [c1 ++ c2]
               = [jsq "{'response':'Hel'}"; jsq "{'response':'lo'}"])
    by (vm_compute; reflexivity).
  assert (E2 : nonempty_lines [c1; c2]
               = [jsq "{'response':'Hel'}"; jsq "{'respon"; jsq "se':'lo'}"])
    by (vm_compute; reflexivity).
  assert (L2 : lines_of [c1; c2]
               = [jsq "{'response':'Hel'}"; jsq "{'respon"; jsq "se':'lo'}";
                  []])
    by (vm_compute; reflexivity).
  rewrite E1 in Hh1. rewrite E2 in Hh2, Hr2.
  assert (A1 : accumulate host []
                 [jsq "{'response':'Hel'}"; jsq "{'response':'lo'}"]
               = js "Hello") by (vm_compute; reflexivity).
  assert (A2 : accumulate host []
                 [jsq "{'response':'Hel'}"; jsq "{'respon"; jsq "se':'lo'}"]
               = js "Hel") by (vm_compute; reflexivity).
  assert (R2 : forall el,
             redraw_log host el []
               [jsq "{'response':'Hel'}"; jsq "{'respon"; jsq "se':'lo'}"]
             = [(el, js "Hel")]) by (intros el; vm_compute; reflexivity).
  rewrite A1 in Hh1. rewrite A2 in Hh2. rewrite R2 in Hr2.
  split_and!; try done.
  - unfold last_message. rewrite Hh1.
    rewrite cons_middle, app_assoc. apply last_snoc.
  - unfold last_message. rewrite Hh2.
    rewrite cons_middle, app_assoc. apply last_snoc.
  - apply Hlog2; [|by vm_compute]. rewrite L2.
    apply list_elem_of_further, list_elem_of_here.
  - apply Hlog2; [|by vm_compute]. rewrite L2.
    apply list_elem_of_further, list_elem_of_further, list_elem_of_here.
Qed.

(** Whether the write of [saveChatHistory()] in the [catch] block reached
    the storage. *)
Lemma storage_failed l q :
  let text :=
    JSON_stringify host (JArr (l ++ [message_object (js "assistant") errMsg])) in
  if accepts (localStorage q) STORAGE_KEY text
  then items (localStorage (failed host l q)) !! STORAGE_KEY = Some text
  else WarnSave ∈ console (failed host l q).
Proof.
  intros text. unfold failed, saved.
  rewrite localStorage_with_chatHistory, localStorage_with_chatMessages,
    localStorage_with_console, chatHistory_with_chatHistory.
  fold text. destruct (accepts (localStorage q) STORAGE_KEY text).
  - rewrite localStorage_with_localStorage. cbn [items].
    apply lookup_insert_eq.
  - rewrite console_with_console. apply elem_of_app. right.
    apply list_elem_of_here.
Qed.

Lemma fetches_page_at_failure l text p f :
  fetches (page_at_failure host l text p f)
  = fetches p
    ++ [JSON_stringify host
          (JObj [(js "messages",
                  JArr (l ++ [message_object (js "user") (trim text)]))])].
Proof.
  unfold page_at_failure. cbv zeta.
  destruct f;
    rewrite ?fetches_with_suspended, ?fetches_read_lines, fetches_sent,
      fetches_with_userInput_value; reflexivity.
Qed.

Lemma uncaught_page_at_failure l text p f :
  uncaught (page_at_failure host l text p f) = uncaught p.
Proof.
  unfold page_at_failure. cbv zeta.
  destruct f;
    rewrite ?uncaught_with_suspended, ?uncaught_read_lines, uncaught_sent,
      uncaught_with_userInput_value; reflexivity.
Qed.

Lemma accepts_page_at_failure l text p f :
  accepts (localStorage (page_at_failure host l text p f))
  = accepts (localStorage p).
Proof.
  unfold page_at_failure. cbv zeta.
  destruct f;
    rewrite ?localStorage_with_suspended, ?localStorage_read_lines,
      accepts_sent, localStorage_with_userInput_value; reflexivity.
Qed.

(** C4: when an exchange fails (the request is rejected by the network, the
    status is not a success, or a read of the body fails, after any number
    of chunks) it is given up: no second request is sent; one message of the
    assistant with the fixed fallback text is shown as the last element of
    the message list and appended to the transcript, after the message of
    the user; the transcript is written to the storage (the write is the one
    of [saveChatHistory()]: it is in the storage when the storage accepts
    it, and logged otherwise); the busy flag is false again and nothing is
    thrown out of the exchange. *)
Theorem failed_exchange (p : Page) (l : list json) (text : jsstring)
    (f : Failure) :
  isProcessing p = false ->
  suspended p = [] ->
  chatHistory p = JArr l ->
  trim text <> [] ->
  let p' := run host p (UserInput text :: failure_events f) in
  let fallback := {| role := Assistant; content := errMsg |} in
  let stored := JSON_stringify host (chatHistory p') in
  chatHistory p'
  = JArr (l ++ [message_object (js "user") (trim text);
                message_json fallback])
  /\ last_message p' = Some (message_json fallback)
  /\ last (chatMessages p') = Some (message_node host fallback)
  /\ (if accepts (localStorage p) STORAGE_KEY stored
      then items (localStorage p') !! STORAGE_KEY = Some stored
      else WarnSave ∈ console p')
  /\ isProcessing p' = false
  /\ suspended p' = []
  /\ length (fetches p') = S (length (fetches p))
  /\ uncaught p' = uncaught p.
Proof.
  intros Hbusy Hs Hl Hne p' fallback stored.
  assert (Hp' : p' = with_suspended []
                  (settled
                     (failed host
                        (l ++ [message_object (js "user") (trim text)])
                        (page_at_failure host l text p f))))
    by (by apply run_failure).
  assert (Hh : chatHistory p'
               = JArr (l ++ [message_object (js "user") (trim text);
                             message_json fallback])).
  { rewrite Hp'. autorewrite with page. by rewrite <- app_assoc. }
  split_and!.
  - exact Hh.
  - unfold last_message. rewrite Hh.
    rewrite cons_middle, app_assoc. apply last_snoc.
  - rewrite Hp'. autorewrite with page. apply last_snoc.
  - subst stored. rewrite Hh.
    pose proof (storage_failed
                  (l ++ [message_object (js "user") (trim text)])
                  (page_at_failure host l text p f)) as Hst.
    cbv zeta in Hst. rewrite accepts_page_at_failure in Hst.
    rewrite <- app_assoc in Hst.
    rewrite Hp', localStorage_with_suspended, localStorage_settled,
      console_with_suspended, console_settled.
    exact Hst.
  - rewrite Hp'. by autorewrite with page.
  - rewrite Hp'. by autorewrite with page.
  - rewrite Hp'. autorewrite with page.
    rewrite fetches_page_at_failure, length_app. cbn [length]. lia.
  - rewrite Hp'. autorewrite with page. apply uncaught_page_at_failure.
Qed.
End StreamConsumer.

(** ** The input controller *)

Lemma drop_spaces_blank text :
  forallb is_js_space text = true -> drop_spaces text = [].
Proof.
  induction text as [|c text IH]; [done|]. cbn [forallb drop_spaces].
  intros [Hc Ht]%andb_true_iff. rewrite Hc. by apply IH.
Qed.

Lemma drop_spaces_head text c t :
  drop_spaces text = c :: t -> is_js_space c = false.
Proof.
  induction text as [|x text IH]; [done|]. cbn [drop_spaces].
  destruct (is_js_space x) eqn:Hx; [done|]. by intros [= <- _].
Qed.

Lemma drop_spaces_nil text :
  drop_spaces text = [] -> forallb is_js_space text = true.
Proof.
  induction text as [|x text IH]; [done|]. cbn [drop_spaces forallb].
  destruct (is_js_space x); [|done]. done.
Qed.

(** A text made of white space only trims to the empty string. *)
Lemma trim_blank text : forallb is_js_space text = true -> trim text = [].
Proof.
  intros H. unfold trim. rewrite (drop_spaces_blank text H). reflexivity.
Qed.

(** Only such a text does. *)
Lemma trim_empty text : trim text = [] -> forallb is_js_space text = true.
Proof.
  unfold trim. intros H. apply drop_spaces_nil.
  destruct (drop_spaces text) as [|c t] eqn:E; [done|].
  apply drop_spaces_head in E.
  assert (Hrev : drop_spaces (rev (c :: t)) = []).
  { destruct (drop_spaces (rev (c :: t))) as [|y l] eqn:E2; [done|].
    apply (f_equal (@length N)) in H. rewrite length_rev in H. done. }
  apply drop_spaces_nil in Hrev.
  rewrite forallb_forall in Hrev.
  specialize (Hrev c). rewrite <- in_rev in Hrev.
  rewrite Hrev in E; [done|]. by left.
Qed.

Section Quiet.
Context (host : Host).

Lemma quiet_ret {A} (a : A) : quiet (ret a).
Proof. intros p. split; [intros k; discriminate|reflexivity]. Qed.

Lemma quiet_throw {A} : quiet (@throw A).
Proof. intros p. split; [intros k; discriminate|reflexivity]. Qed.

Lemma quiet_gets {A} (f : Page -> A) : quiet (gets f).
Proof. intros p. split; [intros k; discriminate|reflexivity]. Qed.

Lemma quiet_modify (f : Page -> Page) :
  (forall p, suspended (f p) = suspended p) -> quiet (modify f).
Proof. intros Hf p. split; [intros k; discriminate|apply Hf]. Qed.

Lemma quiet_bind {A B} (m : Script A) (k : A -> Script B) :
  quiet m -> (forall a, quiet (k a)) -> quiet (bind m k).
Proof.
  intros Hm Hk p. unfold bind. destruct (Hm p) as [Hm1 Hm2].
  destruct (m p) as [[a| |act] q]; cbn [fst snd] in *.
  - destruct (Hk a q) as [Hk1 Hk2]. split; [done|congruence].
  - split; [intros k'; discriminate|done].
  - by destruct (Hm1 act).
Qed.

Lemma quiet_try_catch {A} (m handler : Script A) :
  quiet m -> quiet handler -> quiet (try_catch m handler).
Proof.
  intros Hm Hh p. unfold try_catch. destruct (Hm p) as [Hm1 Hm2].
  destruct (m p) as [[a| |act] q]; cbn [fst snd] in *.
  - split; [intros k'; discriminate|done].
  - destruct (Hh q) as [Hh1 Hh2]. split; [done|congruence].
  - by destruct (Hm1 act).
Qed.

Lemma quiet_try_finally {A} (m : Script A) (final : Script unit) :
  quiet m -> quiet final -> quiet (try_finally m final).
Proof.
  intros Hm Hf p. unfold try_finally. destruct (Hm p) as [Hm1 Hm2].
  destruct (m p) as [[a| |act] q]; cbn [fst snd] in *.
  - destruct (Hf q) as [Hf1 Hf2].
    destruct (final q) as [[[]| |act] q']; cbn [fst snd] in *.
    + split; [intros k'; discriminate|congruence].
    + split; [intros k'; discriminate|congruence].
    + by destruct (Hf1 act).
  - destruct (Hf q) as [Hf1 Hf2].
    destruct (final q) as [[[]| |act] q']; cbn [fst snd] in *.
    + split; [intros k'; discriminate|congruence].
    + split; [intros k'; discriminate|congruence].
    + by destruct (Hf1 act).
  - by destruct (Hm1 act).
Qed.

Lemma quiet_for_each {A} (l : list A) (body : A -> Script unit) :
  (forall x, quiet (body x)) -> quiet (for_each l body).
Proof.
  intros Hb. induction l as [|x l IH]; cbn [for_each].
  - apply quiet_ret.
  - apply quiet_bind; [apply Hb|intros _; apply IH].
Qed.

Lemma quiet_console_log e : quiet (console_log e).
Proof. apply quiet_modify. intros p. apply suspended_with_console. Qed.

Lemma quiet_getItem key : quiet (getItem key).
Proof.
  intros p. unfold getItem. destruct (readable _);
    (split; [intros k; discriminate|reflexivity]).
Qed.

Lemma quiet_setItem key v : quiet (setItem key v).
Proof.
  intros p. unfold setItem. cbv zeta. destruct (accepts _ _ _);
    (split; [intros k; discriminate|]); cbn [snd]; [|done].
  apply suspended_with_localStorage.
Qed.

Lemma quiet_parse_or_throw text : quiet (parse_or_throw text).
Proof.
  unfold parse_or_throw. destruct (JSON_parse text);
    [apply quiet_ret|apply quiet_throw].
Qed.

Lemma quiet_get_member v name : quiet (get_member v name).
Proof.
  destruct v; cbn [get_member]; first [apply quiet_ret|apply quiet_throw].
Qed.

Lemma quiet_iterate v : quiet (iterate v).
Proof.
  destruct v; cbn [iterate]; first [apply quiet_ret|apply quiet_throw].
Qed.

Lemma quiet_addMessageToChat r c : quiet (addMessageToChat host r c).
Proof. apply quiet_modify. intros p. apply suspended_with_chatMessages. Qed.

Lemma quiet_saveChatHistory : quiet (saveChatHistory host).
Proof.
  apply quiet_try_catch; [|apply quiet_console_log].
  apply quiet_bind; [apply quiet_gets|intros h; apply quiet_setItem].
Qed.

Lemma quiet_chatHistory_push m : quiet (chatHistory_push m).
Proof.
  apply quiet_bind; [apply quiet_gets|]. intros h.
  destruct h; try apply quiet_throw.
  apply quiet_modify. intros p. apply suspended_with_chatHistory.
Qed.

Lemma quiet_append m : quiet (append host m).
Proof.
  apply quiet_bind; [apply quiet_chatHistory_push|].
  intros _. apply quiet_saveChatHistory.
Qed.

Lemma quiet_renderChatFromHistory : quiet (renderChatFromHistory host).
Proof.
  apply quiet_bind.
  { apply quiet_modify. intros p. apply suspended_with_chatMessages. }
  intros _. apply quiet_bind; [apply quiet_gets|]. intros h.
  apply quiet_bind; [apply quiet_iterate|]. intros msgs.
  apply quiet_for_each. intros msg.
  apply quiet_bind; [apply quiet_get_member|]. intros r.
  apply quiet_bind; [apply quiet_get_member|]. intros c.
  apply quiet_addMessageToChat.
Qed.

Lemma quiet_catch_block : quiet (catch_block host).
Proof.
  apply quiet_bind; [apply quiet_console_log|]. intros _.
  apply quiet_bind; [apply quiet_addMessageToChat|]. intros _.
  apply quiet_append.
Qed.

Lemma quiet_finally_block : quiet finally_block.
Proof.
  apply quiet_bind.
  { apply quiet_modify. intros p. apply suspended_with_typing_visible. }
  intros _. apply quiet_bind.
  { apply quiet_modify. intros p. apply suspended_with_isProcessing. }
  intros _. apply quiet_modify. intros p. apply suspended_with_disabled.
Qed.

Lemma quiet_guarded m : quiet m -> quiet (guarded host m).
Proof.
  intros Hm. apply quiet_try_finally; [|apply quiet_finally_block].
  apply quiet_try_catch; [done|apply quiet_catch_block].
Qed.

(** A body that stops at an [await] leaves the [try] statement as it is. *)
Lemma guarded_await m p k q :
  m p = (Awaiting k, q) -> guarded host m p = (Awaiting k, q).
Proof.
  intros Hm. unfold guarded, try_finally, try_catch. by rewrite Hm.
Qed.

(** A call that does not stop at an [await] leaves the suspended calls as
    they are. *)
Lemma suspended_call m p :
  quiet m -> suspended (call m p) = suspended p.
Proof.
  intros Hm. unfold call. destruct (Hm p) as [H1 H2].
  destruct (m p) as [[a| |act] q]; cbn [fst snd] in *.
  - done.
  - by rewrite suspended_with_uncaught.
  - by destruct (H1 act).
Qed.

(** A suspended call that is resumed and does not stop again is removed. *)
Lemma suspended_resume i m p :
  quiet m -> suspended (resume i m p) = delete i (suspended p).
Proof.
  intros Hm. unfold resume. destruct (Hm p) as [H1 H2].
  destruct (m p) as [[a| |act] q]; cbn [fst snd] in *.
  - by rewrite suspended_with_suspended, H2.
  - by rewrite suspended_with_uncaught, suspended_with_suspended, H2.
  - by destruct (H1 act).
Qed.
End Quiet.

Section InputController.
Context (host : Host).

(** The guard of line 97. *)
Lemma step_send_rejected p :
  trim (userInput_value p) = [] \/ isProcessing p = true ->
  step host p UserSend = p.
Proof.
  intros H. unfold step, call, sendMessage. cbv [bind gets].
  destruct H as [-> | ->].
  - case_bool_decide; [reflexivity|done].
  - rewrite orb_true_r. reflexivity.
Qed.

(** C7: a text that is empty or made of white space only is not sent: the
    page is as it was before the submission, so no request was issued and
    neither the transcript nor the storage changed. *)
Theorem blank_submit_ignored (p : Page) (text : jsstring) :
  forallb is_js_space text = true ->
  let p' := run host p [UserInput text; UserSend] in
  p' = with_userInput_value text p
  /\ fetches p' = fetches p
  /\ chatHistory p' = chatHistory p
  /\ localStorage p' = localStorage p
  /\ suspended p' = suspended p.
Proof.
  intros Hblank p'.
  assert (Hp' : p' = with_userInput_value text p).
  { subst p'. unfold run, fold_left. rewrite step_input.
    apply step_send_rejected. left.
    rewrite userInput_value_with_userInput_value. by apply trim_blank. }
  rewrite Hp'. split_and!; reflexivity.
Qed.

Lemma singleton_lookup {A} (l : list A) i x :
  (length l <= 1)%nat -> l !! i = Some x -> l = [x] /\ i = 0%nat.
Proof.
  destruct l as [|y [|z l]]; cbn [length]; intros Hlen Hi; [done| |lia].
  destruct i as [|i]; cbn in Hi; [|done]. by injection Hi as ->.
Qed.

Lemma one_exchange_resume_quiet p m x :
  suspended p = [x] -> quiet m -> one_exchange (resume 0 m p).
Proof.
  intros Hs Hm. unfold one_exchange.
  rewrite (suspended_resume 0 m p Hm), Hs. cbn. split; [lia|done].
Qed.

Lemma one_exchange_send p :
  one_exchange p -> one_exchange (step host p UserSend).
Proof.
  intros [Hlen Hidle].
  destruct (decide (trim (userInput_value p) = [])) as [Hblank|Hne].
  { rewrite step_send_rejected by (by left). by split. }
  destruct (isProcessing p) eqn:Hbusy.
  { rewrite step_send_rejected by (by right).
    split; [done|]. intros Hfalse. congruence. }
  specialize (Hidle eq_refl).
  destruct (chatHistory p) as [| | | |l|] eqn:Hh.
  5: {
    rewrite (step_send host p l (trim (userInput_value p))) by done.
    unfold one_exchange.
    rewrite suspended_with_suspended, isProcessing_with_suspended,
      isProcessing_sent, Hidle.
    cbn. split; [lia|done]. }
  all: destruct p as [h busy st nodes inp d1 d2 ty susp con fe re un];
    page_simpl; subst h busy susp;
    unfold step, call, sendMessage; cbv [bind gets]; page_simpl;
    rewrite bool_decide_eq_false_2 by done; cbn [orb];
    cbv [modify addMessageToChat append bind chatHistory_push gets];
    page_simpl; unfold one_exchange; page_simpl; cbn; split; [lia|done].
Qed.

(** Every turn of the event loop keeps at most one exchange in flight. *)
Lemma one_exchange_step p ev :
  one_exchange p -> one_exchange (step host p ev).
Proof.
  intros Hinv. destruct ev as [text| |i r|i r].
  - destruct Hinv. split; by rewrite step_input,
      ?suspended_with_userInput_value, ?isProcessing_with_userInput_value.
  - by apply one_exchange_send.
  - cbn [step]. destruct (suspended p !! i) as [[el|el text]|] eqn:Hi;
      [|done|done].
    destruct Hinv as [Hlen Hidle].
    destruct (singleton_lookup _ _ _ Hlen Hi) as [Hs ->].
    destruct r as [|[] []]; unfold after_fetch; cbn [negb].
    + eapply one_exchange_resume_quiet; [done|].
      apply quiet_guarded, quiet_throw.
    + unfold resume. rewrite (guarded_await host _ p (AwaitRead el []) p)
        by reflexivity.
      unfold one_exchange.
      rewrite suspended_with_suspended, isProcessing_with_suspended, Hs.
      cbn. split; [lia|]. intros Hb. by rewrite Hidle in Hs.
    + eapply one_exchange_resume_quiet; [done|].
      apply quiet_guarded, quiet_throw.
    + eapply one_exchange_resume_quiet; [done|].
      apply quiet_guarded, quiet_throw.
    + eapply one_exchange_resume_quiet; [done|].
      apply quiet_guarded, quiet_throw.
  - cbn [step]. destruct (suspended p !! i) as [[el|el text]|] eqn:Hi;
      [done| |done].
    destruct Hinv as [Hlen Hidle].
    destruct (singleton_lookup _ _ _ Hlen Hi) as [Hs ->].
    destruct r as [| |chunk]; unfold after_read.
    + eapply one_exchange_resume_quiet; [done|].
      apply quiet_guarded, quiet_throw.
    + eapply one_exchange_resume_quiet; [done|].
      apply quiet_guarded, quiet_append.
    + unfold resume.
      rewrite (guarded_await host _ p
                 (AwaitRead el (accumulate host text (split_lines chunk)))
                 (read_lines host el text (split_lines chunk) p))
        by (unfold bind; by rewrite consume_lines_run).
      unfold one_exchange.
      rewrite suspended_with_suspended, isProcessing_with_suspended,
        suspended_read_lines, isProcessing_read_lines, Hs.
      cbn. split; [lia|]. intros Hb. by rewrite Hidle in Hs.
Qed.

Lemma one_exchange_run p evs :
  one_exchange p -> one_exchange (run host p evs).
Proof.
  revert p. induction evs as [|ev evs IH]; intros p Hinv; [done|].
  cbn [run fold_left]. apply IH. by apply one_exchange_step.
Qed.

Lemma one_exchange_boot s nodes : one_exchange (boot host s nodes).
Proof.
  unfold boot. destruct (load_run (blank s nodes)) as (p1 & Hload & Hp1).
  rewrite Hload.
  assert (Hs : suspended p1 = []).
  { rewrite <- (suspended_with_console (console (blank s nodes)) p1), Hp1.
    reflexivity. }
  unfold one_exchange.
  rewrite (suspended_call _ _ (quiet_renderChatFromHistory host)),
    suspended_with_chatHistory, Hs.
  cbn. split; [lia|done].
Qed.

(** C6: while an exchange is in flight (the busy flag is set) a submission
    does nothing: the page is as it was, so no request is issued and the
    transcript is not touched.  On every page the script can reach, and
    whatever happens later, at most one call of [sendMessage] is waiting for
    the network. *)
Theorem submit_while_busy (s : Storage) (nodes : list Node)
    (evs later : list Event) :
  isProcessing (run host (boot host s nodes) evs) = true ->
  let p := run host (boot host s nodes) evs in
  step host p UserSend = p
  /\ fetches (step host p UserSend) = fetches p
  /\ chatHistory (step host p UserSend) = chatHistory p
  /\ (length (suspended p) <= 1)%nat
  /\ (length (suspended (run host p (UserSend :: later))) <= 1)%nat.
Proof.
  intros Hbusy p.
  assert (Hstep : step host p UserSend = p)
    by (apply step_send_rejected; by right).
  assert (Hinv : one_exchange p)
    by (apply one_exchange_run, one_exchange_boot).
  rewrite Hstep. split_and!; try done.
  - apply Hinv.
  - apply (one_exchange_run p (UserSend :: later) Hinv).
Qed.
End InputController.

(** ** The properties at work on a first visit *)

(** The first message of a visit, answered by one chunk that holds the two
    lines. *)
Lemma hello_stream_witness :
  isProcessing fresh_page = false
  /\ suspended fresh_page = []
  /\ chatHistory fresh_page = JArr [message_json welcome]
  /\ trim (js " hi ") <> []
  /\ nonempty_lines
       [jsq "{'response':'Hel'}" ++ [10] ++ jsq "{'response':'lo'}" ++ [10]]
     = [jsq "{'response':'Hel'}"; jsq "{'response':'lo'}"]
  /\ last_message
       (run plain_host fresh_page
          (UserInput (js " hi ")
           :: stream_events
                [jsq "{'response':'Hel'}" ++ [10] ++ jsq "{'response':'lo'}"
                 ++ [10]]))
     = Some (message_json {| role := Assistant; content := js "Hello" |}).
Proof.
  assert (H1 : isProcessing fresh_page = false) by reflexivity.
  assert (H2 : suspended fresh_page = []) by reflexivity.
  assert (H3 : chatHistory fresh_page = JArr [message_json welcome])
    by reflexivity.
  assert (H4 : trim (js " hi ") <> []) by (vm_compute; discriminate).
  assert (H5 : nonempty_lines
                 [jsq "{'response':'Hel'}" ++ [10] ++ jsq "{'response':'lo'}"
                  ++ [10]]
               = [jsq "{'response':'Hel'}"; jsq "{'response':'lo'}"])
    by (vm_compute; reflexivity).
  split_and!; try assumption.
  exact (proj1 (proj2 (hello_stream plain_host fresh_page _ _ _
                         H1 H2 H3 H4 H5))).
Defined.

(** The line [not json] in a chunk of its own, then the line that
    answers. *)
Lemma malformed_line_skipped_witness :
  isProcessing fresh_page = false
  /\ suspended fresh_page = []
  /\ chatHistory fresh_page = JArr [message_json welcome]
  /\ trim (js "hi") <> []
  /\ JSON_parse (js "not json") = None
  /\ nonempty_lines [js "not json" ++ [10]; jsq "{'response':'ok'}" ++ [10]]
     = [js "not json"; jsq "{'response':'ok'}"]
  /\ last_message
       (run plain_host fresh_page
          (UserInput (js "hi")
           :: stream_events
                [js "not json" ++ [10]; jsq "{'response':'ok'}" ++ [10]]))
     = Some (message_json {| role := Assistant; content := js "ok" |}).
Proof.
  assert (H1 : isProcessing fresh_page = false) by reflexivity.
  assert (H2 : suspended fresh_page = []) by reflexivity.
  assert (H3 : chatHistory fresh_page = JArr [message_json welcome])
    by reflexivity.
  assert (H4 : trim (js "hi") <> []) by (vm_compute; discriminate).
  assert (H5 : JSON_parse (js "not json") = None) by (vm_compute; reflexivity).
  assert (H6 : nonempty_lines
                 [js "not json" ++ [10]; jsq "{'response':'ok'}" ++ [10]]
               = [js "not json"; jsq "{'response':'ok'}"])
    by (vm_compute; reflexivity).
  split_and!; try assumption.
  exact (proj1 (proj2 (malformed_line_skipped plain_host fresh_page _ _ _ _
                         H1 H2 H3 H4 H5 H6))).
Defined.

(** The cut body, on a first visit. *)
Lemma split_line_dropped_witness :
  isProcessing fresh_page = false
  /\ suspended fresh_page = []
  /\ chatHistory fresh_page = JArr [message_json welcome]
  /\ trim (js "hi") <> []
  /\ last_message
       (run plain_host fresh_page
          (UserInput (js "hi")
           :: stream_events
                [jsq "{'response':'Hel'}" ++ [10] ++ jsq "{'respon";
                 jsq "se':'lo'}" ++ [10]]))
     = Some (message_json {| role := Assistant; content := js "Hel" |}).
Proof.
  assert (H1 : isProcessing fresh_page = false) by reflexivity.
  assert (H2 : suspended fresh_page = []) by reflexivity.
  assert (H3 : chatHistory fresh_page = JArr [message_json welcome])
    by reflexivity.
  assert (H4 : trim (js "hi") <> []) by (vm_compute; discriminate).
  split_and!; try assumption.
  exact (proj1 (proj2 (proj2 (split_line_dropped plain_host fresh_page _ _
                                H1 H2 H3 H4)))).
Defined.

(** The server answers the first message with a status that is not a
    success. *)
Lemma failed_exchange_witness :
  isProcessing fresh_page = false
  /\ suspended fresh_page = []
  /\ chatHistory fresh_page = JArr [message_json welcome]
  /\ trim (js "hi") <> []
  /\ chatHistory
       (run plain_host fresh_page
          (UserInput (js "hi") :: failure_events (BadStatus true)))
     = JArr ([message_json welcome]
             ++ [message_object (js "user") (trim (js "hi"));
                 message_json {| role := Assistant; content := errMsg |}]).
Proof.
  assert (H1 : isProcessing fresh_page = false) by reflexivity.
  assert (H2 : suspended fresh_page = []) by reflexivity.
  assert (H3 : chatHistory fresh_page = JArr [message_json welcome])
    by reflexivity.
  assert (H4 : trim (js "hi") <> []) by (vm_compute; discriminate).
  split_and!; try assumption.
  exact (proj1 (failed_exchange plain_host fresh_page _ _ (BadStatus true)
                  H1 H2 H3 H4)).
Defined.

(** A second send while the first message waits for its response. *)
Lemma submit_while_busy_witness :
  isProcessing
    (run plain_host (boot plain_host empty_storage [])
       [UserInput (js "hi"); UserSend]) = true
  /\ step plain_host
       (run plain_host (boot plain_host empty_storage [])
          [UserInput (js "hi"); UserSend]) UserSend
     = run plain_host (boot plain_host empty_storage [])
         [UserInput (js "hi"); UserSend].
Proof.
  assert (H1 : isProcessing
                 (run plain_host (boot plain_host empty_storage [])
                    [UserInput (js "hi"); UserSend]) = true)
    by (vm_compute; reflexivity).
  split; [assumption|].
  exact (proj1 (submit_while_busy plain_host empty_storage []
                  [UserInput (js "hi"); UserSend] [UserSend] H1)).
Defined.

(** Three spaces are not sent. *)
Lemma blank_submit_ignored_witness :
  forallb is_js_space (js "   ") = true
  /\ run plain_host fresh_page [UserInput (js "   "); UserSend]
     = with_userInput_value (js "   ") fresh_page.
Proof.
  assert (H1 : forallb is_js_space (js "   ") = true)
    by (vm_compute; reflexivity).
  split; [assumption|].
  exact (proj1 (blank_submit_ignored plain_host fresh_page _ H1)).
Defined.

(** The first message of the user, appended to the welcome transcript and
    read back by a fresh page. *)
Lemma append_then_load_witness :
  chatHistory fresh_page = transcript_json [welcome]
  /\ accepts (localStorage fresh_page) STORAGE_KEY
       (JSON_stringify plain_host
          (transcript_json
             ([welcome] ++ [{| role := User; content := js "hi" |}])))
     = true
  /\ readable (localStorage fresh_page) = true
  /\ exists p1 p2 l,
       append plain_host
         (message_json {| role := User; content := js "hi" |}) fresh_page
       = (Normal tt, p1)
       /\ load (blank (localStorage p1) []) = (Normal (JArr l), p2)
       /\ last l = Some (message_json {| role := User; content := js "hi" |})
       /\ JArr l
          = transcript_json
              ([welcome] ++ [{| role := User; content := js "hi" |}]).
Proof.
  assert (H1 : chatHistory fresh_page = transcript_json [welcome])
    by reflexivity.
  assert (H2 : accepts (localStorage fresh_page) STORAGE_KEY
                 (JSON_stringify plain_host
                    (transcript_json
                       ([welcome] ++ [{| role := User; content := js "hi" |}])))
               = true) by reflexivity.
  assert (H3 : readable (localStorage fresh_page) = true) by reflexivity.
  split_and!; try assumption.
  exact (append_then_load plain_host fresh_page [welcome]
           {| role := User; content := js "hi" |} [] H1 H2 H3).
Defined.

(** * Further properties of the script *)

(** ** Relations every piece of the script respects *)

Section Respects.
Context (R : Page -> Page -> Prop) `{!Reflexive R, !Transitive R}.

Lemma respects_ret {A} (a : A) : respects R (ret a).
Proof. intros p. reflexivity. Qed.

Lemma respects_throw {A} : respects R (@throw A).
Proof. intros p. reflexivity. Qed.

Lemma respects_await {A} k : respects R (@await A k).
Proof. intros p. reflexivity. Qed.

Lemma respects_gets {A} (f : Page -> A) : respects R (gets f).
Proof. intros p. reflexivity. Qed.

Lemma respects_modify (f : Page -> Page) :
  (forall p, R p (f p)) -> respects R (modify f).
Proof. intros Hf p. apply Hf. Qed.

Lemma respects_bind {A B} (m : Script A) (k : A -> Script B) :
  respects R m -> (forall a, respects R (k a)) -> respects R (bind m k).
Proof.
  intros Hm Hk p. unfold bind. specialize (Hm p).
  destruct (m p) as [[a| |act] q]; cbn [snd] in *; [|done|done].
  etrans; [exact Hm|apply Hk].
Qed.

Lemma respects_try_catch {A} (m handler : Script A) :
  respects R m -> respects R handler -> respects R (try_catch m handler).
Proof.
  intros Hm Hh p. unfold try_catch. specialize (Hm p).
  destruct (m p) as [[a| |act] q]; cbn [snd] in *; [done| |done].
  etrans; [exact Hm|apply Hh].
Qed.

Lemma respects_try_finally {A} (m : Script A) (final : Script unit) :
  respects R m -> respects R final -> respects R (try_finally m final).
Proof.
  intros Hm Hf p. unfold try_finally. specialize (Hm p).
  destruct (m p) as [[a| |act] q]; cbn [snd] in *; [| |done].
  all: specialize (Hf q); destruct (final q) as [[[]| |act] r];
    cbn [snd] in *; by etrans.
Qed.

Lemma respects_for_each {A} (l : list A) (body : A -> Script unit) :
  (forall x, respects R (body x)) -> respects R (for_each l body).
Proof.
  intros Hb. induction l as [|x l IH]; cbn [for_each].
  - apply respects_ret.
  - apply respects_bind; [apply Hb|]. by intros _.
Qed.

Lemma respects_parse_or_throw text : respects R (parse_or_throw text).
Proof.
  unfold parse_or_throw.
  destruct (JSON_parse text); [apply respects_ret|apply respects_throw].
Qed.

Lemma respects_get_member v name : respects R (get_member v name).
Proof.
  destruct v; cbn [get_member];
    first [apply respects_ret|apply respects_throw].
Qed.

Lemma respects_iterate v : respects R (iterate v).
Proof.
  destruct v; cbn [iterate]; first [apply respects_ret|apply respects_throw].
Qed.

Lemma respects_getItem key : respects R (getItem key).
Proof. intros p. unfold getItem. by destruct (readable _). Qed.
End Respects.

(** *** The parts of the script that touch neither the transcript, nor the
    storage, nor the controls, nor the network *)

Section Frame.
Context (host : Host) (R : Page -> Page -> Prop).
Context `{!Reflexive R, !Transitive R}.
Hypothesis R_console : forall l p, R p (with_console l p).
Hypothesis R_chatMessages : forall l p, R p (with_chatMessages l p).
Hypothesis R_redraws : forall l p, R p (with_redraws l p).
Hypothesis R_suspended : forall l p, R p (with_suspended l p).
Hypothesis R_uncaught : forall n p, R p (with_uncaught n p).

Lemma respects_console_log e : respects R (console_log e).
Proof. apply respects_modify. intros p. apply R_console. Qed.

Lemma respects_addMessageToChat r c : respects R (addMessageToChat host r c).
Proof. apply respects_modify. intros p. apply R_chatMessages. Qed.

Lemma respects_redraw el text : respects R (redraw host el text).
Proof.
  apply respects_modify. intros p.
  etrans; [apply R_chatMessages|apply R_redraws].
Qed.

Lemma respects_consume_line el text line :
  respects R (consume_line host el text line).
Proof.
  apply respects_try_catch; [done..| |].
  - apply respects_bind; [done..|apply respects_parse_or_throw; done|].
    intros v. apply respects_bind; [done..|apply respects_get_member; done|].
    intros r. destruct (ToBoolean r); [|by apply respects_ret].
    apply respects_bind; [done..|apply respects_redraw|].
    intros _. by apply respects_ret.
  - apply respects_bind; [done..|apply respects_console_log|].
    intros _. by apply respects_ret.
Qed.

Lemma respects_consume_lines el text lines :
  respects R (consume_lines host el text lines).
Proof.
  revert text. induction lines as [|line lines IH]; intros text;
    cbn [consume_lines].
  - by apply respects_ret.
  - apply respects_bind; [done..|apply respects_consume_line|].
    intros t. apply IH.
Qed.

Lemma respects_renderChatFromHistory :
  respects R (renderChatFromHistory host).
Proof.
  apply respects_bind; [done..| |].
  { apply respects_modify. intros p. apply R_chatMessages. }
  intros _. apply respects_bind; [done..|by apply respects_gets|].
  intros h. apply respects_bind; [done..|by apply respects_iterate|].
  intros msgs. apply respects_for_each; [done..|]. intros msg.
  apply respects_bind; [done..|by apply respects_get_member|]. intros r.
  apply respects_bind; [done..|by apply respects_get_member|]. intros c.
  apply respects_addMessageToChat.
Qed.

Lemma respects_load : respects R load.
Proof.
  apply respects_bind; [done..| |].
  - apply respects_try_catch; [done..| |].
    + apply respects_bind; [done..|by apply respects_getItem|].
      intros [[|c r]|]; try by apply respects_ret.
      apply respects_bind; [done..|by apply respects_parse_or_throw|].
      intros v. by apply respects_ret.
    + apply respects_bind; [done..|apply respects_console_log|].
      intros _. by apply respects_ret.
  - intros [v|]; by apply respects_ret.
Qed.

(** A call from a listener, and a suspended call that is resumed. *)
Lemma respects_call m p : respects R m -> R p (call m p).
Proof.
  intros Hm. unfold call. specialize (Hm p).
  destruct (m p) as [[a| |act] q]; cbn [snd] in *; [done| |].
  - etrans; [exact Hm|apply R_uncaught].
  - etrans; [exact Hm|apply R_suspended].
Qed.

Lemma respects_call_quiet m p : quiet m -> respects R m -> R p (call m p).
Proof.
  intros Hq Hm. unfold call. specialize (Hm p). destruct (Hq p) as [Hk _].
  destruct (m p) as [[a| |act] q]; cbn [fst snd] in *; [done| |].
  - etrans; [exact Hm|apply R_uncaught].
  - by destruct (Hk act).
Qed.

Lemma respects_resume i m p : respects R m -> R p (resume i m p).
Proof.
  intros Hm. unfold resume. specialize (Hm p).
  destruct (m p) as [[a| |act] q]; cbn [snd] in *.
  - etrans; [exact Hm|apply R_suspended].
  - etrans; [exact Hm|]. etrans; [apply R_suspended|apply R_uncaught].
  - etrans; [exact Hm|apply R_suspended].
Qed.

(** What the [try] statement of [sendMessage] needs besides: the two
    blocks that write the transcript and the controls. *)
Hypothesis R_append : forall m : Message,
  respects R (append host (message_json m)).
Hypothesis R_finally : respects R finally_block.

Lemma respects_catch_block : respects R (catch_block host).
Proof.
  apply respects_bind; [done..|apply respects_console_log|]. intros _.
  apply respects_bind; [done..|apply respects_addMessageToChat|]. intros _.
  apply (R_append {| role := Assistant; content := errMsg |}).
Qed.

Lemma respects_guarded body :
  respects R body -> respects R (guarded host body).
Proof.
  intros Hb. apply respects_try_finally; [done..| |done].
  apply respects_try_catch; [done..|apply respects_catch_block].
Qed.

Lemma respects_after_fetch el r : respects R (after_fetch host el r).
Proof.
  apply respects_guarded.
  destruct r as [|[] []]; cbn [negb];
    first [by apply respects_throw|by apply respects_await].
Qed.

Lemma respects_after_read el text r :
  respects R (after_read host el text r).
Proof.
  apply respects_guarded. destruct r as [| |chunk].
  - by apply respects_throw.
  - apply (R_append {| role := Assistant; content := text |}).
  - apply respects_bind; [done..|apply respects_consume_lines|].
    intros t. by apply respects_await.
Qed.

(** The turns of the event loop in which a promise settles. *)
Lemma respects_settle p ev :
  (forall text, ev <> UserInput text) -> ev <> UserSend ->
  R p (step host p ev).
Proof.
  intros Hinput Hsend. destruct ev as [text| |i r|i r]; cbn [step].
  - by destruct (Hinput text).
  - done.
  - destruct (suspended p !! i) as [[el|el text]|]; [|done..].
    apply respects_resume, respects_after_fetch.
  - destruct (suspended p !! i) as [[el|el text]|]; [done| |done].
    apply respects_resume, respects_after_read.
Qed.

(** The rest of [sendMessage], for the relations that the user's part of
    an exchange respects as well. *)
Hypothesis R_userInput_value : forall t p, R p (with_userInput_value t p).
Hypothesis R_isProcessing : forall b p, R p (with_isProcessing b p).
Hypothesis R_disabled : forall b p, R p (with_disabled b p).
Hypothesis R_typing_visible : forall b p, R p (with_typing_visible b p).
Hypothesis R_fetches : forall l p, R p (with_fetches l p).

Lemma respects_sendMessage : respects R (sendMessage host).
Proof.
  apply respects_bind; [done..|by apply respects_gets|]. intros message.
  apply respects_bind; [done..|by apply respects_gets|]. intros busy.
  destruct (_ || _); [by apply respects_ret|].
  apply respects_bind; [done..|by apply respects_modify|]. intros _.
  apply respects_bind; [done..|by apply respects_modify|]. intros _.
  apply respects_bind; [done..|apply respects_addMessageToChat|]. intros _.
  apply respects_bind; [done..|by apply respects_modify|]. intros _.
  apply respects_bind; [done..|by apply respects_modify|]. intros _.
  apply respects_bind; [done..| |]. 
  { apply (R_append {| role := User; content := message |}). }
  intros _. apply respects_guarded.
  apply respects_bind; [done..|by apply respects_gets|]. intros el.
  apply respects_bind; [done..| |].
  { apply respects_modify; [done..|]. intros p. apply R_chatMessages. }
  intros _. apply respects_bind; [done..|by apply respects_gets|]. intros h.
  apply respects_bind; [done..| |].
  { apply respects_modify; [done..|]. intros p. apply R_fetches. }
  intros _. by apply respects_await.
Qed.

Lemma respects_step p ev : R p (step host p ev).
Proof.
  destruct ev as [text| |i r|i r].
  - apply R_userInput_value.
  - apply respects_call, respects_sendMessage.
  - by apply respects_settle.
  - by apply respects_settle.
Qed.

Lemma respects_run p evs : R p (run host p evs).
Proof.
  revert p. induction evs as [|ev evs IH]; intros p; [done|].
  cbn [run fold_left]. etrans; [apply (respects_step p ev)|apply IH].
Qed.

End Frame.

(** ** The chat and the storage *)

Section StorageUse.
Context (host : Host).

Lemma theme_key_apart : THEME_KEY <> STORAGE_KEY.
Proof. vm_compute. discriminate. Qed.

#[local] Instance storage_elsewhere_refl : Reflexive storage_elsewhere.
Proof. by intros p. Qed.

#[local] Instance storage_elsewhere_trans : Transitive storage_elsewhere.
Proof.
  intros p q r (H1 & H2 & H3) (H4 & H5 & H6). split_and!; [congruence..|].
  intros k Hk. by rewrite H6, H3.
Qed.

Lemma storage_elsewhere_saveChatHistory :
  respects storage_elsewhere (saveChatHistory host).
Proof.
  intros p. rewrite saveChatHistory_run. cbn [snd].
  unfold storage_elsewhere, saved.
  destruct (accepts _ _ _); [|by rewrite localStorage_with_console].
  rewrite localStorage_with_localStorage. split_and!; [done..|].
  intros k Hk. cbn [items]. by rewrite lookup_insert_ne.
Qed.

Lemma storage_elsewhere_append m :
  respects storage_elsewhere (append host m).
Proof.
  apply respects_bind; [apply _| |intros _; apply storage_elsewhere_saveChatHistory].
  apply respects_bind; [apply _|by apply respects_gets|].
  intros [| | | |l|]; first [by apply respects_throw|by apply respects_modify].
Qed.

Lemma storage_elsewhere_finally : respects storage_elsewhere finally_block.
Proof. by intros p. Qed.

Lemma storage_elsewhere_run p evs : storage_elsewhere p (run host p evs).
Proof.
  apply respects_run; try done; [apply _|].
  intros m. apply storage_elsewhere_append.
Qed.

End StorageUse.

(** ** The transcript only grows *)

Section Transcript.
Context (host : Host).

Lemma extend_nil h : extend h [] = h.
Proof. destruct h; cbn [extend fmap list_fmap]; by rewrite ?app_nil_r. Qed.

Lemma extend_app h t1 t2 : extend (extend h t1) t2 = extend h (t1 ++ t2).
Proof.
  destruct h; cbn [extend]; try done. by rewrite fmap_app, app_assoc.
Qed.

#[local] Instance grows_refl : Reflexive grows.
Proof. intros p. exists []. by rewrite extend_nil. Qed.

#[local] Instance grows_trans : Transitive grows.
Proof.
  intros p q r [t1 H1] [t2 H2]. exists (t1 ++ t2).
  by rewrite H2, H1, extend_app.
Qed.

Lemma grows_saveChatHistory : respects grows (saveChatHistory host).
Proof.
  intros p. rewrite saveChatHistory_run. cbn [snd]. exists [].
  by rewrite chatHistory_saved, extend_nil.
Qed.

Lemma grows_append (m : Message) :
  respects grows (append host (message_json m)).
Proof.
  apply respects_bind; [apply _| |intros _; apply grows_saveChatHistory].
  intros p. cbv [chatHistory_push bind gets].
  destruct (chatHistory p) as [| | | |l|] eqn:Hh; cbn [snd]; try reflexivity.
  exists [m]. by rewrite Hh.
Qed.

Lemma grows_run p evs : grows p (run host p evs).
Proof.
  apply respects_run; try (by intros ? ?; exists []; rewrite extend_nil);
    [apply _..| |].
  - apply grows_append.
  - intros p0. exists []. by rewrite extend_nil.
Qed.

(** X1: the script only ever adds messages at the end of the transcript:
    whatever happens, from any page, the transcript is the one before with
    messages of the user and of the assistant added at its end; a
    transcript that is not an array is never changed. *)
Theorem transcript_only_grows (p : Page) (evs : list Event) :
  exists t : list Message,
    chatHistory (run host p evs)
    = match chatHistory p with
      | JArr l => JArr (l ++ (message_json <$> t))
      | h => h
      end.
Proof.
  destruct (grows_run p evs) as [t Ht]. exists t. rewrite Ht.
  unfold extend. by destruct (chatHistory p).
Qed.
End Transcript.

(** ** The user and the assistant take turns *)

Section Turns.
Context (host : Host).

(** Every answer of [fetch] but a success with a body ends the exchange
    in the [catch] block. *)
Lemma step_fetch_aborts p el l r :
  suspended p = [AwaitFetch el] ->
  chatHistory p = JArr l ->
  r <> FetchResolved true true ->
  step host p (FetchSettled 0 r)
  = with_suspended [] (settled (failed host l p)).
Proof.
  intros Hs Hl Hr. unfold step. rewrite Hs. cbn [lookup list_lookup].
  unfold resume, after_fetch.
  assert (Hbody : match r with
                  | FetchRejected => throw
                  | FetchResolved ok has_body =>
                      if negb ok then throw
                      else if negb has_body then throw
                      else await (AwaitRead el [])
                  end = (throw : Script unit)).
  { by destruct r as [|[] []]. }
  rewrite Hbody, (guarded_throw _ _ l) by done.
  by rewrite suspended_settled_failed, Hs.
Qed.

Lemma turn_added (t : list Message) (m : Message) :
  (forall i x, t !! i = Some x ->
     role x = if Nat.even i then User else Assistant) ->
  role m = (if Nat.even (length t) then User else Assistant) ->
  forall i x, (t ++ [m]) !! i = Some x ->
    role x = if Nat.even i then User else Assistant.
Proof.
  intros Ht Hm i x Hi. apply lookup_snoc_Some in Hi as [[_ Hi]|[-> <-]].
  - by apply Ht.
  - done.
Qed.

Lemma user_messages_snoc (t : list Message) (m : Message) :
  user_messages (t ++ [m])
  = (user_messages t + match role m with User => 1 | Assistant => 0 end)%nat.
Proof.
  unfold user_messages. rewrite List.filter_app, length_app.
  cbn [List.filter]. by destruct (role m).
Qed.

(** The exchange ends: the answer, or the fallback text, is appended. *)
Lemma turn_taking_answered l p0 p q (t : list Message) text :
  chatHistory p = JArr (l ++ (message_json <$> t)) ->
  (forall i m, t !! i = Some m ->
     role m = if Nat.even i then User else Assistant) ->
  Nat.odd (length t) = true ->
  length (fetches p) = (length (fetches p0) + user_messages t)%nat ->
  uncaught p = uncaught p0 ->
  chatHistory q
  = JArr ((l ++ (message_json <$> t))
          ++ [message_object (js "assistant") text]) ->
  isProcessing q = false ->
  suspended q = [] ->
  fetches q = fetches p ->
  uncaught q = uncaught p ->
  turn_taking l p0 q.
Proof.
  intros Hh Ht Hodd Hf Hu Hq Hidle Hs Hqf Hqu.
  exists (t ++ [{| role := Assistant; content := text |}]). split_and!.
  - by rewrite Hq, fmap_app, app_assoc.
  - apply turn_added; [done|]. cbn [role].
    by rewrite <- Nat.negb_odd, Hodd.
  - rewrite Hidle, length_app, Nat.add_1_r, Nat.odd_succ.
    by rewrite <- Nat.negb_odd, Hodd.
  - by rewrite Hidle, Hs.
  - rewrite Hqf, Hf, user_messages_snoc. cbn [role]. lia.
  - congruence.
Qed.

Lemma turn_taking_step l p0 p ev :
  turn_taking l p0 p -> turn_taking l p0 (step host p ev).
Proof.
  intros (t & Hh & Ht & Hbusy & Hsusp & Hf & Hu).
  destruct ev as [text| |i r|i r].
  - exists t. by rewrite step_input, chatHistory_with_userInput_value,
      isProcessing_with_userInput_value, suspended_with_userInput_value,
      fetches_with_userInput_value, uncaught_with_userInput_value.
  - destruct (decide (trim (userInput_value p) = [])) as [Hblank|Hne].
    { rewrite step_send_rejected by (by left). by exists t. }
    destruct (isProcessing p) eqn:Hp.
    { rewrite step_send_rejected by (by right). exists t. by rewrite Hp. }
    rewrite (step_send host p _ (trim (userInput_value p)) Hp Hh eq_refl Hne).
    apply length_zero_iff_nil in Hsusp.
    exists (t ++ [{| role := User; content := trim (userInput_value p) |}]).
    rewrite chatHistory_with_suspended, isProcessing_with_suspended,
      suspended_with_suspended, fetches_with_suspended,
      uncaught_with_suspended, chatHistory_sent, isProcessing_sent,
      fetches_sent, uncaught_sent, Hsusp.
    split_and!.
    + by rewrite fmap_app, app_assoc.
    + apply turn_added; [done|]. cbn [role].
      by rewrite <- Nat.negb_odd, <- Hbusy.
    + rewrite length_app, Nat.add_1_r, Nat.odd_succ.
      by rewrite <- Nat.negb_odd, <- Hbusy.
    + done.
    + rewrite length_app, Hf, user_messages_snoc. cbn [role length]. lia.
    + done.
  - destruct (suspended p !! i) as [[el|el text]|] eqn:Hi;
      [|cbn [step]; rewrite Hi; by exists t..].
    destruct (isProcessing p) eqn:Hp;
      [|by apply length_zero_iff_nil in Hsusp; rewrite Hsusp in Hi].
    destruct (singleton_lookup _ _ _ (eq_ind_r (fun n => (n <= 1)%nat)
                (le_n 1) Hsusp) Hi) as [Hs ->].
    assert (Hcases : r = FetchResolved true true
                     \/ r <> FetchResolved true true)
      by (destruct r as [|[] []]; auto).
    destruct Hcases as [->|Hr].
    + rewrite (step_fetch_ok host p el Hs). exists t.
      by rewrite chatHistory_with_suspended, isProcessing_with_suspended,
        suspended_with_suspended, fetches_with_suspended,
        uncaught_with_suspended, Hp.
    + rewrite (step_fetch_aborts p el _ r Hs Hh Hr).
      apply (turn_taking_answered l p0 p _ t errMsg); try done.
      * by rewrite chatHistory_with_suspended, chatHistory_settled,
          chatHistory_failed.
      * by rewrite fetches_with_suspended, fetches_settled, fetches_failed.
      * by rewrite uncaught_with_suspended, uncaught_settled,
          uncaught_failed.
  - destruct (suspended p !! i) as [[el|el text]|] eqn:Hi;
      [cbn [step]; rewrite Hi; by exists t|
      |cbn [step]; rewrite Hi; by exists t].
    destruct (isProcessing p) eqn:Hp;
      [|by apply length_zero_iff_nil in Hsusp; rewrite Hsusp in Hi].
    destruct (singleton_lookup _ _ _ (eq_ind_r (fun n => (n <= 1)%nat)
                (le_n 1) Hsusp) Hi) as [Hs ->].
    destruct r as [| |chunk].
    + rewrite (step_read_fails host p el text _ Hs Hh).
      apply (turn_taking_answered l p0 p _ t errMsg); try done.
      * by rewrite chatHistory_with_suspended, chatHistory_settled,
          chatHistory_failed.
      * by rewrite fetches_with_suspended, fetches_settled, fetches_failed.
      * by rewrite uncaught_with_suspended, uncaught_settled,
          uncaught_failed.
    + rewrite (step_done host p el text _ Hs Hh).
      apply (turn_taking_answered l p0 p _ t text); try done.
      * by rewrite chatHistory_with_suspended, chatHistory_settled,
          chatHistory_saved, chatHistory_with_chatHistory.
      * by rewrite fetches_with_suspended, fetches_settled, fetches_saved.
      * by rewrite uncaught_with_suspended, uncaught_settled,
          uncaught_saved, uncaught_with_chatHistory.
    + rewrite (step_chunk host p el text chunk Hs). exists t.
      by rewrite chatHistory_with_suspended, isProcessing_with_suspended,
        suspended_with_suspended, fetches_with_suspended,
        uncaught_with_suspended, chatHistory_read_lines,
        isProcessing_read_lines, fetches_read_lines, uncaught_read_lines,
        Hp.
Qed.

Lemma turn_taking_run l p0 p evs :
  turn_taking l p0 p -> turn_taking l p0 (run host p evs).
Proof.
  revert p. induction evs as [|ev evs IH]; intros p Hinv; [done|].
  cbn [run fold_left]. apply IH. by apply turn_taking_step.
Qed.

Lemma turn_taking_start l p :
  isProcessing p = false -> suspended p = [] -> chatHistory p = JArr l ->
  turn_taking l p p.
Proof.
  intros Hidle Hs Hl. exists [].
  rewrite Hidle, Hs, Hl, app_nil_r. cbn. split_and!; (done || lia).
Qed.

(** X2: from an idle page whose transcript is an array, whatever happens:
    the transcript is the array with messages added at its end, the
    messages take turns, the user first (the message at an even place
    is the user's, the one at an odd place the assistant's), and the busy
    flag is set exactly while a message of the user has no answer. *)
Theorem messages_take_turns (p : Page) (l : list json) (evs : list Event) :
  isProcessing p = false ->
  suspended p = [] ->
  chatHistory p = JArr l ->
  exists t : list Message,
    chatHistory (run host p evs) = JArr (l ++ (message_json <$> t))
    /\ (forall i m, t !! i = Some m ->
          role m = if Nat.even i then User else Assistant)
    /\ isProcessing (run host p evs) = Nat.odd (length t).
Proof.
  intros Hidle Hs Hl.
  destruct (turn_taking_run l p p evs (turn_taking_start l p Hidle Hs Hl))
    as (t & H1 & H2 & H3 & _).
  by exists t.
Qed.

(** X3: from an idle page whose transcript is an array, whatever happens, one
    request was sent for each message of the user added to the
    transcript. *)
Theorem one_request_per_message (p : Page) (l : list json)
    (evs : list Event) :
  isProcessing p = false ->
  suspended p = [] ->
  chatHistory p = JArr l ->
  exists t : list Message,
    chatHistory (run host p evs) = JArr (l ++ (message_json <$> t))
    /\ length (fetches (run host p evs))
       = (length (fetches p) + user_messages t)%nat.
Proof.
  intros Hidle Hs Hl.
  destruct (turn_taking_run l p p evs (turn_taking_start l p Hidle Hs Hl))
    as (t & H1 & _ & _ & _ & H2 & _).
  by exists t.
Qed.

(** X4: from an idle page whose transcript is an array, whatever happens, no
    call of [sendMessage] ends in a rejection nobody handles, and the
    transcript stays an array. *)
Theorem nothing_escapes (p : Page) (l : list json) (evs : list Event) :
  isProcessing p = false ->
  suspended p = [] ->
  chatHistory p = JArr l ->
  uncaught (run host p evs) = uncaught p
  /\ exists l', chatHistory (run host p evs) = JArr l'.
Proof.
  intros Hidle Hs Hl.
  destruct (turn_taking_run l p p evs (turn_taking_start l p Hidle Hs Hl))
    as (t & H1 & _ & _ & _ & _ & H2).
  split; [done|by eexists].
Qed.
End Turns.

(** ** The storage follows the transcript *)

Section Mirror.
Context (host : Host).

#[local] Instance synced_refl : Reflexive (synced host).
Proof. intros p Hp. split; [done|]. by left. Qed.

#[local] Instance synced_trans : Transitive (synced host).
Proof.
  intros p q r Hpq Hqr Hp.
  destruct (Hpq Hp) as [Hq H1]. destruct (Hqr Hq) as [Hr H2].
  split; [done|].
  destruct H2 as [[H2 H3]|H2]; [|by right].
  destruct H1 as [[H1 H4]|H1].
  - left. split; congruence.
  - right. unfold stored_transcript in *. by rewrite H3, H2.
Qed.

Lemma synced_append m : respects (synced host) (append host m).
Proof.
  intros p Hp. destruct (chatHistory p) as [| | | |l|] eqn:Hh.
  5: {
    rewrite (append_run host p l m Hh). cbn [snd]. unfold saved.
    rewrite localStorage_with_chatHistory, chatHistory_with_chatHistory, Hp.
    split.
    - intros k v. rewrite localStorage_with_localStorage. apply Hp.
    - right. unfold stored_transcript.
      rewrite localStorage_with_localStorage. cbn [items].
      by rewrite lookup_insert_eq. }
  all: cbv [append bind chatHistory_push gets]; rewrite Hh; cbn [snd];
    split; [done|by left].
Qed.

Lemma synced_run p evs : synced host p (run host p evs).
Proof.
  apply respects_run;
    try (by intros ? ? Hp; split; [exact Hp|left]); [apply _..| |].
  - intros m. apply synced_append.
  - intros p0 Hp. split; [exact Hp|by left].
Qed.

(** X5: on a storage that never refuses a write, whatever happens: the
    transcript and the text stored for it are both as they were, or the
    storage holds the text of the transcript.  So a storage that holds the
    transcript keeps holding it. *)
Theorem storage_follows_transcript (p : Page) (evs : list Event) :
  accepting p ->
  let q := run host p evs in
  ((chatHistory q = chatHistory p
    /\ items (localStorage q) !! STORAGE_KEY
       = items (localStorage p) !! STORAGE_KEY)
   \/ stored_transcript host q)
  /\ (stored_transcript host p -> stored_transcript host q).
Proof.
  intros Hp q. subst q.
  destruct (synced_run p evs Hp) as [_ H]. split; [done|].
  intros Hst. destruct H as [[H1 H2]|H]; [|done].
  unfold stored_transcript in *. by rewrite H2, H1.
Qed.
End Mirror.

(** ** Requests *)

Section Requests.
Context (host : Host).

#[local] Instance same_fetches_refl : Reflexive same_fetches.
Proof. by intros p. Qed.

#[local] Instance same_fetches_trans : Transitive same_fetches.
Proof. unfold same_fetches. intros p q r H1 H2. congruence. Qed.

Lemma same_fetches_append m : respects same_fetches (append host m).
Proof.
  apply respects_bind; [apply _| |].
  - intros p. cbv [chatHistory_push bind gets].
    by destruct (chatHistory p).
  - intros _ p. rewrite saveChatHistory_run. apply fetches_saved.
Qed.

(** A submission the guard of line 97 lets through, on a transcript that
    is not an array: [chatHistory.push] of line 115 throws, before the
    [try] statement. *)
Lemma step_send_throws p :
  trim (userInput_value p) <> [] ->
  isProcessing p = false ->
  (forall l, chatHistory p <> JArr l) ->
  step host p UserSend
  = with_uncaught (S (uncaught p)) (engaged host p).
Proof.
  intros Hne Hidle Hh.
  destruct p as [h busy st nodes inp d1 d2 ty susp con fe re un].
  page_simpl. subst busy.
  unfold step, call, sendMessage, engaged; cbv [bind gets]; page_simpl.
  rewrite bool_decide_eq_false_2 by done; cbn [orb].
  cbv [modify addMessageToChat append bind chatHistory_push gets].
  page_simpl.
  destruct h as [| | | |l|]; try reflexivity. by destruct (Hh l).
Qed.

(** X6: a request is sent by a submission only, one at most, and its body is
    the transcript as the submission leaves it. *)
Theorem requests_only_on_send (p : Page) (ev : Event) :
  fetches (step host p ev) = fetches p
  \/ (ev = UserSend
      /\ isProcessing p = false
      /\ fetches (step host p ev)
         = fetches p
           ++ [JSON_stringify host
                 (JObj [(js "messages", chatHistory (step host p ev))])]).
Proof.
  destruct ev as [text| |i r|i r].
  - by left.
  - destruct (decide (trim (userInput_value p) = [])) as [Hblank|Hne].
    { left. by rewrite step_send_rejected by (by left). }
    destruct (isProcessing p) eqn:Hp.
    { left. by rewrite step_send_rejected by (by right). }
    destruct (chatHistory p) as [| | | |l|] eqn:Hh.
    5: {
      right. split_and!; [done..|].
      rewrite (step_send host p l _ Hp Hh eq_refl Hne).
      by rewrite fetches_with_suspended, chatHistory_with_suspended,
        fetches_sent, chatHistory_sent. }
    all: left; rewrite step_send_throws by (done || by rewrite Hh);
      reflexivity.
  - left. change (same_fetches p (step host p (FetchSettled i r))).
    apply respects_settle; try done; [apply _|].
    intros m. apply same_fetches_append.
  - left. change (same_fetches p (step host p (ReadSettled i r))).
    apply respects_settle; try done; [apply _|].
    intros m. apply same_fetches_append.
Qed.
End Requests.

(** ** A transcript that is not an array *)

Section Broken.
Context (host : Host).

(** The script never writes the transcript, never sends a request and
    never clears the busy flag once the transcript is not an array and no
    call is suspended. *)
Lemma broken_step p ev :
  (forall l, chatHistory p <> JArr l) ->
  suspended p = [] ->
  let q := step host p ev in
  chatHistory q = chatHistory p
  /\ suspended q = []
  /\ fetches q = fetches p
  /\ localStorage q = localStorage p
  /\ (isProcessing p = true -> q = match ev with
                                   | UserInput text =>
                                       with_userInput_value text p
                                   | _ => p
                                   end).
Proof.
  intros Hh Hs q. subst q. destruct ev as [text| |i r|i r].
  - by rewrite step_input.
  - destruct (decide (trim (userInput_value p) = [])) as [Hblank|Hne].
    { by rewrite step_send_rejected by (by left). }
    destruct (isProcessing p) eqn:Hp.
    { by rewrite step_send_rejected by (by right). }
    rewrite (step_send_throws host p Hne Hp Hh). by split_and!.
  - cbn [step]. by rewrite Hs.
  - cbn [step]. by rewrite Hs.
Qed.

Lemma broken_run p evs :
  (forall l, chatHistory p <> JArr l) ->
  suspended p = [] ->
  let q := run host p evs in
  chatHistory q = chatHistory p
  /\ suspended q = []
  /\ fetches q = fetches p
  /\ localStorage q = localStorage p
  /\ (isProcessing p = true ->
      isProcessing q = true
      /\ chatMessages q = chatMessages p
      /\ uncaught q = uncaught p).
Proof.
  revert p. induction evs as [|ev evs IH]; intros p Hh Hs; [done|].
  cbn [run fold_left].
  destruct (broken_step p ev Hh Hs) as (H1 & H2 & H3 & H4 & H5).
  assert (Hq : forall l, chatHistory (step host p ev) <> JArr l)
    by (by rewrite H1).
  destruct (IH (step host p ev) Hq H2) as (I1 & I2 & I3 & I4 & I5).
  cbv zeta. unfold run in *.
  rewrite I1, I3, I4, H1, H3, H4. split_and!; try done.
  intros Hp. specialize (H5 Hp).
  assert (Hq' : isProcessing (step host p ev) = true
               /\ chatMessages (step host p ev) = chatMessages p
               /\ uncaught (step host p ev) = uncaught p).
  { rewrite H5. by destruct ev. }
  destruct Hq' as (Q1 & Q2 & Q3). destruct (I5 Q1) as (J1 & J2 & J3).
  by rewrite J1, J2, J3, Q2, Q3.
Qed.

End Broken.

(** ** The start of the script *)

Section Boot.
Context (host : Host).

#[local] Instance only_drawn_refl : Reflexive only_drawn.
Proof. intros p. by split_and!. Qed.

#[local] Instance only_drawn_trans : Transitive only_drawn.
Proof.
  intros p q r (?&?&?&?&?&?&?&?&?&?) (?&?&?&?&?&?&?&?&?&?).
  split_and!; congruence.
Qed.

Lemma only_drawn_boot s nodes :
  only_drawn (with_chatHistory (load_contract s) (blank s nodes))
    (boot host s nodes).
Proof.
  unfold boot. destruct (load_run (blank s nodes)) as (p1 & Hload & Hp1).
  pose proof (respects_load only_drawn
                (fun l p => reflexivity (R := only_drawn) p)
                (blank s nodes)) as Hl.
  rewrite Hload in *. cbn [snd localStorage blank] in *.
  etrans; [|apply respects_call_quiet with (R := only_drawn)].
  - destruct Hl as (?&?&?&?&?&?&?&?&?&?). by split_and!.
  - apply _.
  - intros n p. by split_and!.
  - apply quiet_renderChatFromHistory.
  - apply respects_renderChatFromHistory; [apply _..|].
    intros l p. by split_and!.
Qed.

(** X8: the start of the script writes nothing to the storage and sends no
    request; it leaves the page idle, with the controls enabled and the
    transcript the history store gives. *)
Theorem boot_is_idle (s : Storage) (nodes : list Node) :
  let p := boot host s nodes in
  chatHistory p = load_contract s
  /\ localStorage p = s
  /\ fetches p = []
  /\ isProcessing p = false
  /\ suspended p = []
  /\ userInput_disabled p = false
  /\ sendButton_disabled p = false
  /\ typing_visible p = false.
Proof.
  intros p. subst p.
  destruct (only_drawn_boot s nodes) as (?&?&?&?&?&?&?&?&?&?).
  by split_and!.
Qed.
End Boot.

(** ** What the start of the script makes of the storage *)

Section Restore.
Context (host : Host).

Lemma load_stored p raw v :
  readable (localStorage p) = true ->
  items (localStorage p) !! STORAGE_KEY = Some raw ->
  JSON_parse raw = Some v ->
  load p = (Normal v, p) /\ load_contract (localStorage p) = v.
Proof.
  intros Hr Hraw Hv.
  unfold load, load_contract, try_catch, bind, getItem, parse_or_throw.
  rewrite Hr, Hraw. destruct raw as [|c r].
  { by rewrite JSON_parse_empty in Hv. }
  by rewrite Hv.
Qed.

Lemma renderChatFromHistory_run (t : list Message) p :
  chatHistory p = transcript_json t ->
  renderChatFromHistory host p
  = (Normal tt, with_chatMessages (message_node host <$> t) p).
Proof.
  intros Hh. unfold renderChatFromHistory.
  unfold bind at 1. unfold modify at 1.
  unfold bind at 1. unfold gets at 1.
  rewrite chatHistory_with_chatMessages, Hh.
  unfold transcript_json, iterate.
  unfold bind at 1. unfold ret at 1.
  rewrite draw_messages. reflexivity.
Qed.

(** [renderChatFromHistory] on a value that cannot be iterated. *)
Lemma renderChatFromHistory_throws p :
  (forall l, chatHistory p <> JArr l) ->
  (forall text, chatHistory p <> JStr text) ->
  renderChatFromHistory host p = (Thrown, with_chatMessages [] p).
Proof.
  intros Harr Hstr. unfold renderChatFromHistory.
  unfold bind at 1. unfold modify at 1.
  unfold bind at 1. unfold gets at 1.
  rewrite chatHistory_with_chatMessages.
  unfold bind at 1.
  destruct (chatHistory p) as [| | |text|l|]; try done.
  - by destruct (Hstr text).
  - by destruct (Harr l).
Qed.

(** X9: a visit that finds the text of a transcript in the storage starts
    with that transcript and shows its messages, one element each, in
    place of what the document held; nothing is logged and nothing
    escapes. *)
Theorem boot_restores (s : Storage) (t : list Message) (nodes : list Node) :
  readable s = true ->
  items s !! STORAGE_KEY = Some (JSON_stringify host (transcript_json t)) ->
  let p := boot host s nodes in
  chatHistory p = transcript_json t
  /\ chatMessages p = message_node host <$> t
  /\ console p = []
  /\ uncaught p = 0%nat
  /\ localStorage p = s.
Proof.
  intros Hr Hraw p. subst p. unfold boot.
  destruct (load_stored (blank s nodes) _ (transcript_json t) Hr Hraw
              (parse_transcript host t)) as [-> _].
  unfold call.
  rewrite (renderChatFromHistory_run t) by apply chatHistory_with_chatHistory.
  by split_and!.
Qed.


(** X11: a stored text that is JSON but neither an array nor a string: the
    message list is cleared and nothing is drawn, for
    [renderChatFromHistory] throws at the top level of the script. *)
Theorem boot_draws_nothing (s : Storage) (nodes : list Node)
    (raw : jsstring) (v : json) :
  readable s = true ->
  items s !! STORAGE_KEY = Some raw ->
  JSON_parse raw = Some v ->
  (forall l, v <> JArr l) ->
  (forall text, v <> JStr text) ->
  let p := boot host s nodes in
  chatMessages p = [] /\ uncaught p = 1%nat /\ chatHistory p = v.
Proof.
  intros Hr Hraw Hv Harr Hstr p. subst p. unfold boot.
  destruct (load_stored (blank s nodes) raw v Hr Hraw Hv) as [-> _].
  unfold call.
  rewrite renderChatFromHistory_throws
    by (intros ?; by rewrite chatHistory_with_chatHistory).
  by split_and!.
Qed.
End Restore.

(** ** The controls and the busy flag *)

Section Controls.
Context (host : Host).

#[local] Instance controls_refl : Reflexive controls_kept_or_released.
Proof. intros p. left. by split_and!. Qed.

#[local] Instance controls_trans : Transitive controls_kept_or_released.
Proof.
  intros p q r Hpq [(H1 & H2 & H3 & H4)|Hr]; [|by right].
  destruct Hpq as [(G1 & G2 & G3 & G4)|(G1 & G2 & G3 & G4)].
  - left. split_and!; congruence.
  - right. split_and!; congruence.
Qed.

Lemma controls_kept_saved p : controls_kept p (saved host p).
Proof. unfold saved. by destruct (accepts _ _ _). Qed.

Lemma controls_append m :
  respects controls_kept_or_released (append host m).
Proof.
  apply respects_bind; [apply _| |].
  - intros p. cbv [chatHistory_push bind gets]. left.
    by destruct (chatHistory p).
  - intros _ p. rewrite saveChatHistory_run. left.
    apply controls_kept_saved.
Qed.

Lemma controls_finally : respects controls_kept_or_released finally_block.
Proof. intros p. by right. Qed.

Lemma controls_settle p ev :
  (forall text, ev <> UserInput text) -> ev <> UserSend ->
  controls_kept_or_released p (step host p ev).
Proof.
  intros Hinput Hsend. apply respects_settle; try done; try apply _.
  all: first [by intros; left
             |intros m; apply controls_append
             |apply controls_finally].
Qed.

Lemma controls_follow_kept p q :
  controls_kept_or_released p q -> controls_follow p -> controls_follow q.
Proof.
  intros [(H1 & H2 & H3 & H4)|(H1 & H2 & H3 & H4)] (G1 & G2 & G3);
    unfold controls_follow; split_and!; congruence.
Qed.

Lemma controls_follow_with_suspended l p :
  controls_follow p -> controls_follow (with_suspended l p).
Proof. done. Qed.

Lemma controls_sent l message p : controls_follow (sent host l message p).
Proof.
  unfold controls_follow, sent, saved. destruct p. page_simpl.
  by destruct (accepts _ _ _).
Qed.

Lemma controls_follow_step p ev :
  controls_follow p -> controls_follow (step host p ev).
Proof.
  intros Hp. destruct ev as [text| |i r|i r].
  - by rewrite step_input.
  - destruct (decide (trim (userInput_value p) = [])) as [Hblank|Hne].
    { by rewrite step_send_rejected by (by left). }
    destruct (isProcessing p) eqn:Hbusy.
    { by rewrite step_send_rejected by (by right). }
    destruct (chatHistory p) as [| | | |l|] eqn:Hh.
    5: { rewrite (step_send host p l _ Hbusy Hh eq_refl Hne).
         apply controls_follow_with_suspended, controls_sent. }
    all: rewrite step_send_throws by (done || by rewrite Hh);
      unfold controls_follow, engaged; by destruct p.
  - apply (controls_follow_kept p); [by apply controls_settle|done].
  - apply (controls_follow_kept p); [by apply controls_settle|done].
Qed.

(** X12: on every page the script can reach, the text area and the button are
    disabled, and the typing indicator is shown, exactly while the busy
    flag is set. *)
Theorem controls_follow_busy_flag (s : Storage) (nodes : list Node)
    (evs : list Event) :
  let p := run host (boot host s nodes) evs in
  userInput_disabled p = isProcessing p
  /\ sendButton_disabled p = isProcessing p
  /\ typing_visible p = isProcessing p.
Proof.
  intros p. subst p.
  assert (Hboot : controls_follow (boot host s nodes)).
  { destruct (only_drawn_boot host s nodes)
      as (_ & H2 & _ & _ & H5 & H6 & H7 & _).
    unfold controls_follow. by rewrite H2, H5, H6, H7. }
  revert Hboot. generalize (boot host s nodes).
  induction evs as [|ev evs IH]; intros p Hp; [done|].
  cbn [run fold_left]. apply IH. by apply controls_follow_step.
Qed.
End Controls.

(** ** What the message list shows *)

Section Display.
Context (host : Host).

Lemma chatMessages_sent l message p :
  chatMessages (sent host l message p)
  = chatMessages p
    ++ [message_node host {| role := User; content := message |};
        pending_node].
Proof.
  unfold sent, saved. destruct p. page_simpl.
  destruct (accepts _ _ _); page_simpl; by rewrite <- app_assoc.
Qed.

Lemma chatMessages_with_chatHistory v p :
  chatMessages (with_chatHistory v p) = chatMessages p.
Proof. reflexivity. Qed.

Lemma chatMessages_read_lines el text lines p :
  chatMessages (read_lines host el text lines p)
  = apply_redraws host (redraw_log host el text lines) (chatMessages p).
Proof. reflexivity. Qed.

(** The redraws of one element: the last one stays. *)
Lemma apply_redraws_last (log : list (nat * jsstring)) (pre : list Node)
    (n : Node) :
  Forall (fun r => r.1 = length pre) log ->
  apply_redraws host log (pre ++ [n])
  = pre ++ [match last log with
            | Some r => repaint host r.2 n
            | None => n
            end].
Proof.
  revert n. induction log as [|r log IH]; intros n Hlog; [done|].
  apply Forall_cons in Hlog as [Hr Hlog].
  unfold apply_redraws. cbn [fold_left].
  change (fold_left _ log ?ns) with (apply_redraws host log ns).
  rewrite Hr. replace (length pre) with (length pre + 0)%nat at 1 by lia.
  rewrite alter_app_r. cbn [alter list_alter].
  rewrite IH by done. rewrite last_cons. by destruct (last log).
Qed.

(** The redraws the lines of a body cause: all of the pending element,
    each text the one before with a fragment added, so that every text is
    a prefix of the next and of the final text. *)
Lemma redraw_log_chain el text lines :
  Forall (fun r => r.1 = el
                   /\ text `prefix_of` r.2
                   /\ r.2 `prefix_of` accumulate host text lines)
    (redraw_log host el text lines)
  /\ StronglySorted (fun a b => a.2 `prefix_of` b.2)
       (redraw_log host el text lines)
  /\ text `prefix_of` accumulate host text lines.
Proof.
  revert text. induction lines as [|line lines IH]; intros text.
  { cbn. split_and!; [constructor|constructor|done]. }
  cbn [redraw_log accumulate].
  destruct (line_response host line) as [r|]; cbn [default from_option id].
  - destruct (IH (text ++ r)) as (H1 & H2 & H3). split_and!.
    + constructor.
      * cbn. split_and!; [done|by apply prefix_app_r|done].
      * eapply Forall_impl; [exact H1|].
        intros [e t] (He & Ht1 & Ht2). cbn in *. split_and!; [done| |done].
        etrans; [|exact Ht1]. by apply prefix_app_r.
    + constructor; [done|].
      eapply Forall_impl; [exact H1|]. by intros [e t] (_ & Ht1 & _).
    + etrans; [|exact H3]. by apply prefix_app_r.
  - rewrite app_nil_r. apply IH.
Qed.

Lemma redraw_log_nil el text lines :
  redraw_log host el text lines = [] -> accumulate host text lines = text.
Proof.
  revert text. induction lines as [|line lines IH]; intros text; [done|].
  cbn [redraw_log accumulate].
  destruct (line_response host line); [done|].
  cbn [default from_option id]. rewrite app_nil_r. apply IH.
Qed.

Lemma redraw_log_last el text lines :
  redraw_log host el text lines <> [] ->
  last (redraw_log host el text lines)
  = Some (el, accumulate host text lines).
Proof.
  revert text. induction lines as [|line lines IH]; intros text.
  { by intros []. }
  cbn [redraw_log accumulate].
  destruct (line_response host line) as [r|]; cbn [default from_option id].
  - intros _. destruct (redraw_log host el (text ++ r) lines) eqn:Hlog.
    + cbn [last]. by rewrite (redraw_log_nil _ _ _ Hlog).
    + rewrite <- Hlog. rewrite last_cons, IH; [done|]. by rewrite Hlog.
  - rewrite app_nil_r. apply IH.
Qed.

(** A line carries a fragment: there is a redraw. *)
Lemma redraw_log_some el text lines line :
  line ∈ lines -> is_Some (line_response host line) ->
  redraw_log host el text lines <> [].
Proof.
  revert text. induction lines as [|l lines IH]; intros text Hin Hsome.
  { by apply elem_of_nil in Hin. }
  cbn [redraw_log]. apply elem_of_cons in Hin as [<-|Hin].
  - by destruct Hsome as [r ->].
  - destruct (line_response host l); [done|]. by apply IH.
Qed.

(** No line carries a fragment: no redraw, and the text is as it was. *)
Lemma redraw_log_none el text lines :
  (forall line, line ∈ lines -> line_response host line = None) ->
  redraw_log host el text lines = []
  /\ accumulate host text lines = text.
Proof.
  revert text. induction lines as [|l lines IH]; intros text Hnone; [done|].
  cbn [redraw_log accumulate].
  rewrite (Hnone l) by apply list_elem_of_here. cbn [default from_option id].
  rewrite app_nil_r. apply IH. intros line Hin. apply Hnone.
  by apply list_elem_of_further.
Qed.

(** The message list when the lines of a body were read: the element of
    the user's message, and the pending element with what was last drawn
    in it. *)
Lemma chatMessages_read_sent l message lines p :
  chatMessages
    (read_lines host (S (length (chatMessages p))) [] lines
       (sent host l message p))
  = chatMessages p
    ++ [message_node host {| role := User; content := message |};
        match last (redraw_log host (S (length (chatMessages p))) [] lines)
        with
        | Some r => repaint host r.2 pending_node
        | None => pending_node
        end].
Proof.
  rewrite chatMessages_read_lines, chatMessages_sent.
  rewrite (cons_middle _ (chatMessages p)), app_assoc.
  rewrite apply_redraws_last.
  - by rewrite <- app_assoc.
  - rewrite length_app, Nat.add_1_r.
    eapply Forall_impl; [apply redraw_log_chain|]. by intros r (He & _).
Qed.

Lemma repaint_pending text :
  repaint host text pending_node
  = message_node host {| role := Assistant; content := text |}.
Proof. reflexivity. Qed.

(** The message list after an exchange that ends with the stream
    closing. *)
Lemma chatMessages_run_stream p l text chunks :
  isProcessing p = false ->
  suspended p = [] ->
  chatHistory p = JArr l ->
  trim text <> [] ->
  chatMessages (run host p (UserInput text :: stream_events chunks))
  = chatMessages p
    ++ [message_node host {| role := User; content := trim text |};
        match last (redraw_log host (S (length (chatMessages p))) []
                      (lines_of chunks))
        with
        | Some r => repaint host r.2 pending_node
        | None => pending_node
        end].
Proof.
  intros Hidle Hs Hl Hne. rewrite (run_stream host p l text chunks) by done.
  rewrite chatMessages_with_suspended, chatMessages_settled,
    chatMessages_saved, chatMessages_with_chatHistory,
    chatMessages_with_suspended.
  rewrite <- (chatMessages_with_userInput_value text p) at 1.
  rewrite chatMessages_read_sent.
  by rewrite chatMessages_with_userInput_value.
Qed.

(** The message list after an exchange that fails. *)
Lemma chatMessages_run_failure p l text f :
  isProcessing p = false ->
  suspended p = [] ->
  chatHistory p = JArr l ->
  trim text <> [] ->
  chatMessages (run host p (UserInput text :: failure_events f))
  = chatMessages p
    ++ [message_node host {| role := User; content := trim text |};
        match last (redraw_log host (S (length (chatMessages p))) []
                      match f with
                      | ReadFailure chunks => lines_of chunks
                      | _ => []
                      end)
        with
        | Some r => repaint host r.2 pending_node
        | None => pending_node
        end;
        message_node host {| role := Assistant; content := errMsg |}].
Proof.
  intros Hidle Hs Hl Hne. rewrite (run_failure host p l text f) by done.
  rewrite chatMessages_with_suspended, chatMessages_settled,
    chatMessages_failed.
  assert (Hq : chatMessages (page_at_failure host l text p f)
               = chatMessages p
                 ++ [message_node host
                       {| role := User; content := trim text |};
                     match last (redraw_log host
                                   (S (length (chatMessages p))) []
                                   match f with
                                   | ReadFailure chunks => lines_of chunks
                                   | _ => []
                                   end)
                     with
                     | Some r => repaint host r.2 pending_node
                     | None => pending_node
                     end]).
  { assert (H : forall lines,
      chatMessages
        (read_lines host (S (length (chatMessages p))) [] lines
           (sent host l (trim text) (with_userInput_value text p)))
      = chatMessages p
        ++ [message_node host {| role := User; content := trim text |};
            match last (redraw_log host (S (length (chatMessages p))) []
                          lines)
            with
            | Some r => repaint host r.2 pending_node
            | None => pending_node
            end]).
    { intros lines.
      rewrite <- (chatMessages_with_userInput_value text p) at 1.
      rewrite chatMessages_read_sent.
      by rewrite chatMessages_with_userInput_value. }
    destruct f as [|has_body|chunks]; unfold page_at_failure; cbv zeta;
      rewrite chatMessages_with_suspended.
    - rewrite <- (H []). by rewrite read_lines_nil.
    - rewrite <- (H []). by rewrite read_lines_nil.
    - apply H. }
  rewrite Hq, <- app_assoc. reflexivity.
Qed.


(** X14: a body none of whose lines carries a fragment (an empty body, lines
    that are not JSON, objects without [response]): the exchange ends
    all the same, the answer appended to the transcript is the empty
    string, nothing is drawn in the pending element and nothing escapes. *)
Theorem silent_body (p : Page) (l : list json) (text : jsstring)
    (chunks : list jsstring) :
  isProcessing p = false ->
  suspended p = [] ->
  chatHistory p = JArr l ->
  trim text <> [] ->
  (forall line, line ∈ lines_of chunks -> line_response host line = None) ->
  let p' := run host p (UserInput text :: stream_events chunks) in
  chatHistory p'
  = JArr (l ++ [message_json {| role := User; content := trim text |};
                message_json {| role := Assistant; content := [] |}])
  /\ chatMessages p'
     = chatMessages p
       ++ [message_node host {| role := User; content := trim text |};
           pending_node]
  /\ redraws p' = redraws p
  /\ isProcessing p' = false
  /\ uncaught p' = uncaught p.
Proof.
  intros Hidle Hs Hl Hne Hnone p'.
  destruct (redraw_log_none (S (length (chatMessages p))) [] _ Hnone)
    as [Hlog Hacc].
  split_and!.
  - subst p'. rewrite (run_stream host p _ text chunks Hidle Hs Hl Hne).
    rewrite chatHistory_with_suspended, chatHistory_settled,
      chatHistory_saved, chatHistory_with_chatHistory, Hacc.
    by rewrite <- app_assoc.
  - subst p'.
    rewrite (chatMessages_run_stream p _ text chunks Hidle Hs Hl Hne).
    by rewrite Hlog.
  - subst p'. rewrite (run_stream host p _ text chunks Hidle Hs Hl Hne).
    autorewrite with page. by rewrite Hlog, app_nil_r.
  - subst p'. rewrite (run_stream host p _ text chunks Hidle Hs Hl Hne).
    by autorewrite with page.
  - subst p'. rewrite (run_stream host p _ text chunks Hidle Hs Hl Hne).
    by autorewrite with page.
Qed.


End Display.

(** ** Server-sent events *)

Section EventStream.
Context (host : Host).

(** A line in the framing of server-sent events is not JSON. *)
Lemma data_line_rejected rest : JSON_parse (js "data:" ++ rest) = None.
Proof. reflexivity. Qed.

Lemma data_line_silent line :
  line = [] \/ (exists rest, line = js "data:" ++ rest) ->
  line_response host line = None /\ line_fails line = true.
Proof.
  unfold line_response, line_fails.
  intros [->|[rest ->]]; by rewrite ?JSON_parse_empty, ?data_line_rejected.
Qed.

(** X17: the comment of line 159 announces the format of server-sent events,
    but each line goes to [JSON.parse] as it is: of a body in that format
    (lines [data: ...] separated by empty lines) nothing is read.  Every
    line is logged as a parse error, nothing is drawn, and the answer
    appended to the transcript is the empty string. *)
Theorem event_stream_is_not_read (p : Page) (l : list json)
    (text : jsstring) (chunks : list jsstring) :
  isProcessing p = false ->
  suspended p = [] ->
  chatHistory p = JArr l ->
  trim text <> [] ->
  (forall line, line ∈ lines_of chunks ->
     line = [] \/ exists rest, line = js "data:" ++ rest) ->
  let p' := run host p (UserInput text :: stream_events chunks) in
  last_message p'
  = Some (message_json {| role := Assistant; content := [] |})
  /\ redraws p' = redraws p
  /\ (forall line, line ∈ lines_of chunks -> ErrorParsing line ∈ console p')
  /\ isProcessing p' = false.
Proof.
  intros Hidle Hs Hl Hne Hsse p'.
  destruct (stream_outcome host p l text chunks Hidle Hs Hl Hne)
    as (H1 & H2 & H3 & _ & _ & H6).
  fold p' in H1, H2, H3, H6.
  assert (Hnone : forall line, line ∈ nonempty_lines chunks ->
                    line_response host line = None).
  { intros line Hin. apply data_line_silent, Hsse.
    unfold nonempty_lines in Hin. by apply list_elem_of_filter in Hin as []. }
  destruct (redraw_log_none host (S (length (chatMessages p))) [] _ Hnone)
    as [Hlog Hacc].
  rewrite Hlog, app_nil_r in H2. rewrite Hacc in H1.
  split_and!; [|done| |done].
  - unfold last_message. rewrite H1.
    rewrite (cons_middle _ l), app_assoc. apply last_snoc.
  - intros line Hin. apply H6; [done|]. by apply data_line_silent, Hsse.
Qed.
End EventStream.

(** ** The theme switch *)

Section ThemeSwitch.

Lemma applyTheme_dark theme d :
  body_dark (applyTheme theme d) = bool_decide (theme = js "dark").
Proof. unfold applyTheme. by case_bool_decide. Qed.

Lemma applyTheme_label theme d :
  themeToggle (applyTheme theme d)
  = (fun _ => if body_dark (applyTheme theme d) then sun else moon)
    <$> themeToggle d.
Proof. unfold applyTheme. by case_bool_decide. Qed.

(** X18: the page starts dark exactly when the storage can be read and holds
    the word [dark] for the theme; anything else, a storage that throws
    included, gives the light theme. *)
Theorem dark_only_when_saved (s : Storage) (d : Theme) :
  body_dark (initTheme s d) = true
  <-> readable s = true /\ items s !! THEME_KEY = Some (js "dark").
Proof.
  unfold initTheme. destruct (readable s).
  - rewrite applyTheme_dark.
    destruct (items s !! THEME_KEY) as [[|c r]|] eqn:Hk.
    + split; [done|]. by intros [_ [=]].
    + rewrite bool_decide_eq_true. split.
      * by intros ->.
      * intros [_ Hd]. by apply (inj Some).
    + split; [done|]. by intros [_ [=]].
  - rewrite applyTheme_dark. split; [done|]. by intros [[=] _].
Qed.

(** X19: the label of the toggle, when the document has one, is the sun on a
    dark page and the moon on a light one, after the theme is initialised
    and after every click. *)
Theorem label_follows_theme (s : Storage) (d : Theme) :
  themeToggle (initTheme s d)
  = (fun _ => if body_dark (initTheme s d) then sun else moon)
    <$> themeToggle d
  /\ themeToggle (toggleTheme s d).2
     = (fun _ => if body_dark (toggleTheme s d).2 then sun else moon)
       <$> themeToggle d.
Proof.
  split.
  - unfold initTheme. destruct (readable s); apply applyTheme_label.
  - unfold toggleTheme. destruct (themeToggle d) as [lbl|] eqn:Hd; [|done].
    cbn [snd]. by rewrite applyTheme_label, Hd.
Qed.

(** X20: a click on the toggle flips the theme; when the storage takes the
    write and can be read, the next visit starts with the theme the click
    chose, whatever the document is served with. *)
Theorem theme_survives_reload (s : Storage) (d d0 : Theme) (lbl : jsstring) :
  themeToggle d = Some lbl ->
  readable s = true ->
  accepts s THEME_KEY (if body_dark d then js "light" else js "dark")
  = true ->
  body_dark (toggleTheme s d).2 = negb (body_dark d)
  /\ body_dark (initTheme (toggleTheme s d).1 d0) = negb (body_dark d).
Proof.
  intros Hd Hr Ha. unfold toggleTheme. rewrite Hd, Ha. cbn [fst snd].
  unfold initTheme. cbn [readable items]. rewrite Hr, lookup_insert_eq.
  rewrite !applyTheme_dark. by destruct (body_dark d).
Qed.

(** X21: a click on the toggle leaves the transcript in the storage alone. *)
Theorem theme_leaves_transcript (s : Storage) (d : Theme) :
  load_contract (toggleTheme s d).1 = load_contract s.
Proof.
  unfold toggleTheme. destruct (themeToggle d); [|done].
  cbn [fst]. destruct (accepts s THEME_KEY _); [|done].
  unfold load_contract. cbn [readable items].
  rewrite lookup_insert_ne; [done|]. apply theme_key_apart.
Qed.
End ThemeSwitch.

Section ChatAndTheme.
Context (host : Host).

(** X22: the chat writes the storage under its own key only: whatever
    happens, every other entry, the saved theme among them, is as it
    was, and so is the theme the next visit starts with. *)
Theorem chat_leaves_theme (p : Page) (evs : list Event) (d : Theme) :
  (forall k, k <> STORAGE_KEY ->
     items (localStorage (run host p evs)) !! k
     = items (localStorage p) !! k)
  /\ initTheme (localStorage (run host p evs)) d
     = initTheme (localStorage p) d.
Proof.
  destruct (storage_elsewhere_run host p evs) as (H1 & H2 & H3).
  split; [done|].
  unfold initTheme. by rewrite H1, (H3 THEME_KEY theme_key_apart).
Qed.
End ChatAndTheme.

(** ** The body of a request *)

Section RequestBody.
Context (host : Host).

(** The text of a transcript, followed by anything, is read back. *)
Lemma parse_transcript_value f (t : list Message) rest :
  parse_value (length t + 5 + f)
    (JSON_stringify host (transcript_json t) ++ rest)
  = Some (transcript_json t, rest).
Proof.
  unfold transcript_json. rewrite stringify_array.
  rewrite <- app_comm_cons, <- app_assoc. cbn [app].
  replace (length t + 5 + f)%nat with (S (length t + 4 + f)) by lia.
  cbn [parse_value]. parse_step.
  destruct t as [|m t]; [reflexivity|].
  remember (m :: t) as l eqn:Hl.
  assert (Hnot : forall A (a : jsstring -> A) (b : A),
             match starts_with 93
                     (skip_ws (stringify_elements host (message_json <$> l)
                               ++ 93 :: rest)) with
             | Some r1 => a r1
             | None => b
             end = b).
  { intros A a b. subst l. cbn [fmap list_fmap stringify_elements].
    destruct (stringify_message_head host (role_name (role m)) (content m))
      as [x Hx].
    unfold message_json at 1. rewrite Hx. reflexivity. }
  rewrite Hnot, parse_message_elements by (subst l; done). reflexivity.
Qed.

(** A member whose value is any value the parser reads, followed by the
    closing brace. *)
Lemma parse_member_value f k text v t :
  parse_value (S f) (text ++ 125 :: t) = Some (v, 125 :: t) ->
  parse_members (S (S f)) (quote k ++ 58 :: text ++ 125 :: t)
  = Some ([(k, v)], t).
Proof.
  intros Hv. unfold quote at 1. rewrite <- app_comm_cons, <- app_assoc.
  change ([34] ++ ?x) with (34 :: x).
  remember (S f) as f1.
  cbn [parse_members]. parse_step.
  rewrite parse_quote_body. parse_step.
  rewrite Hv. parse_step. done.
Qed.

Lemma parse_object_single f k text v :
  parse_value (S f) (text ++ [125]) = Some (v, [125]) ->
  parse_value (S (S (S f))) (123 :: (quote k ++ 58 :: text ++ []) ++ [125])
  = Some (make_object [(k, v)], []).
Proof.
  intros Hv. rewrite app_nil_r.
  repeat (rewrite <- app_assoc; cbn [app]).
  remember (S (S f)) as f2.
  cbn [parse_value]. parse_step.
  unfold quote at 1. rewrite <- !app_comm_cons. parse_step.
  change (34 :: (quote_body k ++ [34]) ++ ?x) with (quote k ++ x).
  subst f2. by rewrite (parse_member_value f k text v [] Hv).
Qed.

Lemma make_object_messages v :
  make_object [(js "messages", v)] = JObj [(js "messages", v)].
Proof. reflexivity. Qed.

Lemma parse_request_body (t : list Message) :
  JSON_parse (JSON_stringify host (JObj [(js "messages", transcript_json t)]))
  = Some (JObj [(js "messages", transcript_json t)]).
Proof.
  unfold JSON_parse.
  rewrite (JSON_parse_fuel _ (S (S (S (length t + 4 + 0))))
             (JObj [(js "messages", transcript_json t)]) []); [done|].
  rewrite <- make_object_messages.
  apply (parse_object_single (length t + 4 + 0) (js "messages")
           (JSON_stringify host (transcript_json t))).
  replace (S (length t + 4 + 0)) with (length t + 5 + 0)%nat by lia.
  apply parse_transcript_value.
Qed.

(** X23: the request of an accepted submission carries the whole
    conversation: its body is JSON, and what [JSON.parse] reads from it is
    an object whose one member, [messages], is the transcript with the
    message of the user at its end. *)
Theorem request_carries_transcript (p : Page) (t : list Message) :
  isProcessing p = false ->
  chatHistory p = transcript_json t ->
  trim (userInput_value p) <> [] ->
  let q := step host p UserSend in
  let sent_now :=
    t ++ [{| role := User; content := trim (userInput_value p) |}] in
  exists body : jsstring,
    fetches q = fetches p ++ [body]
    /\ JSON_parse body = Some (JObj [(js "messages", transcript_json sent_now)])
    /\ chatHistory q = transcript_json sent_now.
Proof.
  intros Hidle Hh Hne q sent_now. subst q sent_now.
  rewrite (step_send host p _ _ Hidle Hh eq_refl Hne).
  rewrite fetches_with_suspended, chatHistory_with_suspended, fetches_sent,
    chatHistory_sent.
  assert (Ht : JArr ((message_json <$> t)
                     ++ [message_object (js "user")
                           (trim (userInput_value p))])
               = transcript_json
                   (t ++ [{| role := User;
                             content := trim (userInput_value p) |}])).
  { unfold transcript_json. by rewrite fmap_app. }
  rewrite Ht. eexists. split_and!; [reflexivity| |reflexivity].
  apply parse_request_body.
Qed.
End RequestBody.

(** ** From one visit to the next *)

Section Reload.
Context (host : Host).

Lemma chatHistory_boot s nodes :
  chatHistory (boot host s nodes) = load_contract s.
Proof. by destruct (only_drawn_boot host s nodes) as (-> & _). Qed.

Lemma load_contract_transcript s (t : list Message) :
  readable s = true ->
  items s !! STORAGE_KEY = Some (JSON_stringify host (transcript_json t)) ->
  load_contract s = transcript_json t.
Proof.
  intros Hr Hraw. unfold load_contract.
  by rewrite Hr, Hraw, parse_transcript.
Qed.

(** X24: on a storage that can be read and takes every write, and that holds
    nothing for the chat or the text of a transcript: whatever happens
    during a visit, the next visit starts with the transcript this one
    ends with, and shows its messages. *)
Theorem conversation_survives_reload (s : Storage) (nodes nodes' : list Node)
    (evs : list Event) :
  readable s = true ->
  (forall k v, accepts s k v = true) ->
  (items s !! STORAGE_KEY = None
   \/ exists t0 : list Message,
        items s !! STORAGE_KEY
        = Some (JSON_stringify host (transcript_json t0))) ->
  let q := run host (boot host s nodes) evs in
  let r := boot host (localStorage q) nodes' in
  exists t : list Message,
    chatHistory q = transcript_json t
    /\ chatHistory r = transcript_json t
    /\ chatMessages r = message_node host <$> t.
Proof.
  intros Hr Ha Hs q r.
  pose proof (only_drawn_boot host s nodes)
    as (B1 & B2 & B3 & _ & _ & _ & _ & B8 & _).
  rewrite chatHistory_with_chatHistory in B1.
  cbn [isProcessing suspended localStorage with_chatHistory blank] in B2, B3, B8.
  (* the transcript the visit starts with *)
  assert (Hstart : exists t0 : list Message,
            chatHistory (boot host s nodes) = transcript_json t0
            /\ (items s !! STORAGE_KEY = None
                \/ stored_transcript host (boot host s nodes))).
  { destruct Hs as [Hnone|[t0 Hsome]].
    - exists [welcome]. split; [|by left].
      rewrite B1. unfold load_contract. by rewrite Hr, Hnone.
    - exists t0. rewrite B1, (load_contract_transcript s t0 Hr Hsome).
      split; [done|]. right. unfold stored_transcript.
      by rewrite B3, B1, (load_contract_transcript s t0 Hr Hsome). }
  destruct Hstart as (t0 & Ht0 & Hstored).
  (* what the events make of it *)
  destruct (turn_taking_run host _ _ _ evs
              (turn_taking_start _ (boot host s nodes) B2 B8 Ht0))
    as (t & T1 & _).
  fold q in T1.
  assert (Hq : chatHistory q = transcript_json (t0 ++ t)).
  { rewrite T1. unfold transcript_json. by rewrite fmap_app. }
  destruct (storage_elsewhere_run host (boot host s nodes) evs)
    as (S1 & _ & _).
  fold q in S1. rewrite B3 in S1.
  assert (Hacc : accepting (boot host s nodes)).
  { intros k v. rewrite B3. apply Ha. }
  destruct (synced_run host (boot host s nodes) evs Hacc) as [_ Hsync].
  fold q in Hsync.
  (* the text the next visit finds *)
  assert (Hload : load_contract (localStorage q) = chatHistory q).
  { destruct Hsync as [[E1 E2]|Hst].
    - destruct Hstored as [Hnone|Hst].
      + rewrite E1, B1. unfold load_contract.
        by rewrite S1, Hr, E2, B3, Hnone.
      + rewrite E1, Ht0. apply load_contract_transcript; [by rewrite S1|].
        rewrite E2. unfold stored_transcript in Hst. by rewrite Hst, Ht0.
    - rewrite Hq. apply load_contract_transcript; [by rewrite S1|].
      unfold stored_transcript in Hst. by rewrite Hst, Hq. }
  exists (t0 ++ t). split; [done|].
  assert (Hr' : chatHistory r = transcript_json (t0 ++ t)).
  { subst r. by rewrite chatHistory_boot, Hload. }
  split; [done|].
  subst r. unfold boot.
  destruct (load_run (blank (localStorage q) nodes')) as (p1 & Hl & Hp1).
  rewrite Hl. cbn [localStorage blank]. rewrite Hload, Hq.
  unfold call.
  by rewrite (renderChatFromHistory_run host (t0 ++ t))
    by apply chatHistory_with_chatHistory.
Qed.
End Reload.

(** ** The next request *)

Section NextRequest.
Context (host : Host).

(** The request of a submission that is accepted. *)
Lemma fetches_step_send p (t : list Message) :
  isProcessing p = false ->
  chatHistory p = transcript_json t ->
  trim (userInput_value p) <> [] ->
  fetches (step host p UserSend)
  = fetches p
    ++ [JSON_stringify host
          (JObj [(js "messages",
                  transcript_json
                    (t ++ [{| role := User;
                              content := trim (userInput_value p) |}]))])].
Proof.
  intros Hidle Hh Hne.
  rewrite (step_send host p _ _ Hidle Hh eq_refl Hne).
  rewrite fetches_with_suspended, fetches_sent.
  unfold transcript_json. by rewrite fmap_app.
Qed.

(** X25: the fallback text of a failed exchange is part of the
    conversation from then on: the request of the next message carries
    it, as a message of the assistant, between the two messages of the
    user. *)
Theorem fallback_becomes_context (p : Page) (t : list Message)
    (text text2 : jsstring) (f : Failure) :
  isProcessing p = false ->
  suspended p = [] ->
  chatHistory p = transcript_json t ->
  trim text <> [] ->
  trim text2 <> [] ->
  let q := run host p
             ((UserInput text :: failure_events f)
              ++ [UserInput text2; UserSend]) in
  exists body : jsstring,
    last (fetches q) = Some body
    /\ JSON_parse body
       = Some (JObj
                 [(js "messages",
                   transcript_json
                     (t ++ [{| role := User; content := trim text |};
                            {| role := Assistant; content := errMsg |};
                            {| role := User; content := trim text2 |}]))]).
Proof.
  intros Hidle Hs Hh Hne Hne2 q. subst q.
  rewrite run_app, (run_failure host p _ text f Hidle Hs Hh Hne).
  set (q1 := with_suspended [] _).
  assert (Hq1 : isProcessing q1 = false
                /\ chatHistory q1
                   = transcript_json
                       (t ++ [{| role := User; content := trim text |};
                              {| role := Assistant; content := errMsg |}])).
  { subst q1.
    rewrite isProcessing_with_suspended, isProcessing_settled,
      chatHistory_with_suspended, chatHistory_settled, chatHistory_failed.
    split; [done|]. unfold transcript_json.
    by rewrite fmap_app, <- app_assoc. }
  destruct Hq1 as [Hidle1 Hh1]. clearbody q1.
  cbn [run fold_left]. rewrite step_input.
  rewrite (fetches_step_send (with_userInput_value text2 q1)
             (t ++ [{| role := User; content := trim text |};
                    {| role := Assistant; content := errMsg |}]));
    [|by rewrite isProcessing_with_userInput_value
     |by rewrite chatHistory_with_userInput_value
     |by rewrite userInput_value_with_userInput_value].
  rewrite userInput_value_with_userInput_value, <- app_assoc. cbn [app].
  eexists. split; [apply last_snoc|]. apply parse_request_body.
Qed.
End NextRequest.

(** ** The warning of the history store *)

Section LoadWarning.
Context (host : Host).

Lemma console_call_render p :
  console (call (renderChatFromHistory host) p) = console p.
Proof.
  change ((fun p q => console q = console p) p
            (call (renderChatFromHistory host) p)).
  apply respects_call_quiet.
  - intros a b c H1 H2. by rewrite H2, H1.
  - done.
  - apply quiet_renderChatFromHistory.
  - apply respects_renderChatFromHistory; [done| |done].
    intros a b c H1 H2. by rewrite H2, H1.
Qed.

(** X26: the start of the script logs at most one warning, and logs it
    exactly when reading the storage throws or the stored text is not
    empty and is not JSON; an empty storage, or an empty stored text,
    gives the welcome transcript without a warning. *)
Theorem load_warns_only_on_failure (s : Storage) (nodes : list Node) :
  (console (boot host s nodes) = [WarnLoad]
   \/ console (boot host s nodes) = [])
  /\ (console (boot host s nodes) = [WarnLoad]
      <-> readable s = false
          \/ exists raw, raw <> []
                         /\ items s !! STORAGE_KEY = Some raw
                         /\ JSON_parse raw = None).
Proof.
  assert (Hc : console (boot host s nodes) = console (load (blank s nodes)).2).
  { unfold boot. destruct (load_run (blank s nodes)) as (p1 & Hload & _).
    rewrite Hload. cbn [snd]. by rewrite console_call_render. }
  rewrite Hc. clear Hc.
  unfold load, try_catch, bind, getItem, parse_or_throw, console_log, modify.
  cbn [localStorage blank].
  destruct (readable s) eqn:Hr.
  2: { cbn [snd console with_console blank app]. split; [by left|]. split; [by left|done]. }
  destruct (items s !! STORAGE_KEY) as [[|c r]|] eqn:Hraw.
  - cbn [snd console with_console blank app]. split; [by right|]. split; [done|].
    intros [[=]|(raw & Hne & Hsome & _)].
    apply (inj Some) in Hsome. by subst raw.
  - destruct (JSON_parse (c :: r)) eqn:Hp.
    + cbn [snd console with_console blank app]. split; [by right|]. split; [done|].
      intros [[=]|(raw & Hne & Hsome & Hnone)].
      apply (inj Some) in Hsome. subst raw. congruence.
    + cbn [snd console with_console blank app]. split; [by left|]. split; [|done].
      intros _. right. by exists (c :: r).
  - cbn [snd console with_console blank app]. split; [by right|]. split; [done|].
    by intros [[=]|(raw & Hne & [=] & _)].
Qed.
End LoadWarning.

(** ** Chunks that end with a line *)

Section Chunking.
Context (host : Host).

Lemma split_lines_cons s : exists l ls, split_lines s = l :: ls.
Proof.
  induction s as [|c r (l & ls & IH)]; cbn [split_lines]; [by eauto|].
  destruct (c =? 10); [by eauto|]. rewrite IH. by eauto.
Qed.

(** [(a + "\n" + b).split("\n")] is [a.split("\n")] followed by
    [b.split("\n")]. *)
Lemma split_lines_app a b :
  split_lines (a ++ 10 :: b) = split_lines a ++ split_lines b.
Proof.
  induction a as [|c a IH]; [done|].
  cbn [app split_lines]. destruct (c =? 10).
  - by rewrite IH.
  - rewrite IH. by destruct (split_lines_cons a) as (l & ls & ->).
Qed.

Lemma split_lines_snoc a : split_lines (a ++ [10]) = split_lines a ++ [[]].
Proof. apply split_lines_app. Qed.

Lemma nonempty_lines_whole (chunks : list jsstring) :
  Forall (fun c => c = [] \/ last c = Some 10) chunks ->
  nonempty_lines chunks = nonempty_lines [concat chunks].
Proof.
  unfold nonempty_lines, lines_of. cbn [fmap list_fmap concat].
  rewrite app_nil_r.
  induction 1 as [|c chunks Hc _ IH]; [done|].
  cbn [fmap list_fmap concat]. rewrite filter_app, IH.
  destruct Hc as [->|Hc].
  - cbn [split_lines app]. rewrite filter_cons_False by (by intros []).
    done.
  - apply last_Some in Hc as [a ->].
    rewrite <- app_assoc. cbn [app].
    rewrite split_lines_snoc, split_lines_app, !filter_app.
    rewrite (filter_cons_False _ []) by (by intros []).
    by rewrite filter_nil, app_nil_r.
Qed.

(** X27: when every chunk of a body ends with a line feed (or is empty),
    the way the body is cut into chunks does not matter: the answer
    appended to the transcript and the redraws are those of the body read
    as a single chunk. *)
Theorem chunks_of_whole_lines (p : Page) (l : list json) (text : jsstring)
    (chunks : list jsstring) :
  isProcessing p = false ->
  suspended p = [] ->
  chatHistory p = JArr l ->
  trim text <> [] ->
  Forall (fun c => c = [] \/ last c = Some 10) chunks ->
  let cut := run host p (UserInput text :: stream_events chunks) in
  let whole := run host p (UserInput text :: stream_events [concat chunks]) in
  chatHistory cut = chatHistory whole
  /\ redraws cut = redraws whole.
Proof.
  intros Hidle Hs Hl Hne Hchunks cut whole.
  destruct (stream_outcome host p l text chunks Hidle Hs Hl Hne)
    as (H1 & H2 & _).
  destruct (stream_outcome host p l text [concat chunks] Hidle Hs Hl Hne)
    as (G1 & G2 & _).
  fold cut in H1, H2. fold whole in G1, G2.
  rewrite H1, H2, G1, G2. by rewrite (nonempty_lines_whole chunks Hchunks).
Qed.
End Chunking.

(** ** The further properties at work on a first visit *)

(** The first message of a visit is sent. *)
Lemma messages_take_turns_witness :
  isProcessing fresh_page = false
  /\ suspended fresh_page = []
  /\ chatHistory fresh_page = JArr [message_json welcome]
  /\ exists t : list Message,
       chatHistory (run plain_host fresh_page [UserInput (js "hi"); UserSend])
       = JArr ([message_json welcome] ++ (message_json <$> t))
       /\ (forall i m, t !! i = Some m ->
             role m = if Nat.even i then User else Assistant)
       /\ isProcessing
            (run plain_host fresh_page [UserInput (js "hi"); UserSend])
          = Nat.odd (length t).
Proof.
  assert (H1 : isProcessing fresh_page = false) by reflexivity.
  assert (H2 : suspended fresh_page = []) by reflexivity.
  assert (H3 : chatHistory fresh_page = JArr [message_json welcome])
    by reflexivity.
  refine (conj H1 (conj H2 (conj H3 _))).
  exact (messages_take_turns plain_host fresh_page _
           [UserInput (js "hi"); UserSend] H1 H2 H3).
Defined.

(** Two messages, the second one while the first waits for its answer:
    one request. *)
Lemma one_request_per_message_witness :
  isProcessing fresh_page = false
  /\ suspended fresh_page = []
  /\ chatHistory fresh_page = JArr [message_json welcome]
  /\ exists t : list Message,
       chatHistory
         (run plain_host fresh_page
            [UserInput (js "hi"); UserSend; UserInput (js "again"); UserSend])
       = JArr ([message_json welcome] ++ (message_json <$> t))
       /\ length
            (fetches
               (run plain_host fresh_page
                  [UserInput (js "hi"); UserSend; UserInput (js "again");
                   UserSend]))
          = (length (fetches fresh_page) + user_messages t)%nat.
Proof.
  assert (H1 : isProcessing fresh_page = false) by reflexivity.
  assert (H2 : suspended fresh_page = []) by reflexivity.
  assert (H3 : chatHistory fresh_page = JArr [message_json welcome])
    by reflexivity.
  refine (conj H1 (conj H2 (conj H3 _))).
  exact (one_request_per_message plain_host fresh_page _
           [UserInput (js "hi"); UserSend; UserInput (js "again"); UserSend]
           H1 H2 H3).
Defined.

(** A message whose request is rejected by the network. *)
Lemma nothing_escapes_witness :
  isProcessing fresh_page = false
  /\ suspended fresh_page = []
  /\ chatHistory fresh_page = JArr [message_json welcome]
  /\ uncaught
       (run plain_host fresh_page
          (UserInput (js "hi") :: failure_events NetworkError))
     = uncaught fresh_page.
Proof.
  assert (H1 : isProcessing fresh_page = false) by reflexivity.
  assert (H2 : suspended fresh_page = []) by reflexivity.
  assert (H3 : chatHistory fresh_page = JArr [message_json welcome])
    by reflexivity.
  refine (conj H1 (conj H2 (conj H3 _))).
  exact (proj1 (nothing_escapes plain_host fresh_page _
                  (UserInput (js "hi") :: failure_events NetworkError)
                  H1 H2 H3)).
Defined.

(** The storage of a first visit takes every write: after the first
    message it holds the transcript. *)
Lemma storage_follows_transcript_witness :
  accepting fresh_page
  /\ ((chatHistory (run plain_host fresh_page [UserInput (js "hi"); UserSend])
       = chatHistory fresh_page
       /\ items
            (localStorage
               (run plain_host fresh_page [UserInput (js "hi"); UserSend]))
          !! STORAGE_KEY
          = items (localStorage fresh_page) !! STORAGE_KEY)
      \/ stored_transcript plain_host
           (run plain_host fresh_page [UserInput (js "hi"); UserSend])).
Proof.
  assert (H1 : accepting fresh_page) by (intros k v; reflexivity).
  refine (conj H1 _).
  exact (proj1 (storage_follows_transcript plain_host fresh_page
                  [UserInput (js "hi"); UserSend] H1)).
Defined.


(** The storage holds the text of the welcome transcript and of a message
    of the user. *)
Lemma boot_restores_witness :
  readable
    (storage_with
       (JSON_stringify plain_host
          (transcript_json [welcome; {| role := User; content := js "hi" |}])))
  = true
  /\ items
       (storage_with
          (JSON_stringify plain_host
             (transcript_json
                [welcome; {| role := User; content := js "hi" |}])))
     !! STORAGE_KEY
     = Some (JSON_stringify plain_host
               (transcript_json
                  [welcome; {| role := User; content := js "hi" |}]))
  /\ chatHistory
       (boot plain_host
          (storage_with
             (JSON_stringify plain_host
                (transcript_json
                   [welcome; {| role := User; content := js "hi" |}])))
          [pending_node])
     = transcript_json [welcome; {| role := User; content := js "hi" |}].
Proof.
  assert (H1 : readable
                 (storage_with
                    (JSON_stringify plain_host
                       (transcript_json
                          [welcome; {| role := User; content := js "hi" |}])))
               = true) by reflexivity.
  assert (H2 : items
                 (storage_with
                    (JSON_stringify plain_host
                       (transcript_json
                          [welcome; {| role := User; content := js "hi" |}])))
               !! STORAGE_KEY
               = Some (JSON_stringify plain_host
                         (transcript_json
                            [welcome;
                             {| role := User; content := js "hi" |}])))
    by (vm_compute; reflexivity).
  refine (conj H1 (conj H2 _)).
  exact (proj1 (boot_restores plain_host _
                  [welcome; {| role := User; content := js "hi" |}]
                  [pending_node] H1 H2)).
Defined.


(** The storage holds [{}], the document is served with an element. *)
Lemma boot_draws_nothing_witness :
  readable (storage_with (js "{}")) = true
  /\ items (storage_with (js "{}")) !! STORAGE_KEY = Some (js "{}")
  /\ JSON_parse (js "{}") = Some (JObj [])
  /\ (forall l, JObj [] <> JArr l)
  /\ (forall text, JObj [] <> JStr text)
  /\ chatMessages (boot plain_host (storage_with (js "{}")) [pending_node])
     = [].
Proof.
  assert (H1 : readable (storage_with (js "{}")) = true) by reflexivity.
  assert (H2 : items (storage_with (js "{}")) !! STORAGE_KEY
               = Some (js "{}")) by (vm_compute; reflexivity).
  assert (H3 : JSON_parse (js "{}") = Some (JObj []))
    by (vm_compute; reflexivity).
  assert (H4 : forall l, JObj [] <> JArr l) by (intros l; discriminate).
  assert (H5 : forall text, JObj [] <> JStr text)
    by (intros text; discriminate).
  refine (conj H1 (conj H2 (conj H3 (conj H4 (conj H5 _))))).
  exact (proj1 (boot_draws_nothing plain_host _ [pending_node] _ _
                  H1 H2 H3 H4 H5)).
Defined.


(** The body is empty: no chunk is read before the stream closes. *)
Lemma silent_body_witness :
  isProcessing fresh_page = false
  /\ suspended fresh_page = []
  /\ chatHistory fresh_page = JArr [message_json welcome]
  /\ trim (js "hi") <> []
  /\ (forall line, line ∈ lines_of [js "oops"] ->
        line_response plain_host line = None)
  /\ chatHistory
       (run plain_host fresh_page
          (UserInput (js "hi") :: stream_events [js "oops"]))
     = JArr ([message_json welcome]
             ++ [message_json {| role := User; content := trim (js "hi") |};
                 message_json {| role := Assistant; content := [] |}]).
Proof.
  assert (H1 : isProcessing fresh_page = false) by reflexivity.
  assert (H2 : suspended fresh_page = []) by reflexivity.
  assert (H3 : chatHistory fresh_page = JArr [message_json welcome])
    by reflexivity.
  assert (H4 : trim (js "hi") <> []) by (vm_compute; discriminate).
  assert (H5 : forall line, line ∈ lines_of [js "oops"] ->
                 line_response plain_host line = None).
  { intros line Hin.
    assert (Hl : lines_of [js "oops"] = [js "oops"])
      by (vm_compute; reflexivity).
    rewrite Hl in Hin. apply list_elem_of_singleton in Hin. subst line.
    vm_compute. reflexivity. }
  refine (conj H1 (conj H2 (conj H3 (conj H4 (conj H5 _))))).
  exact (proj1 (silent_body plain_host fresh_page _ _ _ H1 H2 H3 H4 H5)).
Defined.



(** One event of a stream of server-sent events: a [data:] line and the
    empty line that ends the event. *)
Lemma event_stream_is_not_read_witness :
  isProcessing fresh_page = false
  /\ suspended fresh_page = []
  /\ chatHistory fresh_page = JArr [message_json welcome]
  /\ trim (js "hi") <> []
  /\ (forall line,
        line ∈ lines_of [jsq "data: {'response':'Hel'}" ++ [10; 10]] ->
        line = [] \/ exists rest, line = js "data:" ++ rest)
  /\ last_message
       (run plain_host fresh_page
          (UserInput (js "hi")
           :: stream_events [jsq "data: {'response':'Hel'}" ++ [10; 10]]))
     = Some (message_json {| role := Assistant; content := [] |}).
Proof.
  assert (H1 : isProcessing fresh_page = false) by reflexivity.
  assert (H2 : suspended fresh_page = []) by reflexivity.
  assert (H3 : chatHistory fresh_page = JArr [message_json welcome])
    by reflexivity.
  assert (H4 : trim (js "hi") <> []) by (vm_compute; discriminate).
  assert (H5 : forall line,
             line ∈ lines_of [jsq "data: {'response':'Hel'}" ++ [10; 10]] ->
             line = [] \/ exists rest, line = js "data:" ++ rest).
  { intros line Hin.
    assert (Hl : lines_of [jsq "data: {'response':'Hel'}" ++ [10; 10]]
                 = [jsq "data: {'response':'Hel'}"; []; []])
      by (vm_compute; reflexivity).
    rewrite Hl in Hin.
    apply elem_of_cons in Hin as [->|Hin].
    - right. exists (jsq " {'response':'Hel'}"). reflexivity.
    - left. apply elem_of_cons in Hin as [->|Hin]; [reflexivity|].
      apply list_elem_of_singleton in Hin. exact Hin. }
  refine (conj H1 (conj H2 (conj H3 (conj H4 (conj H5 _))))).
  exact (proj1 (event_stream_is_not_read plain_host fresh_page _ _ _
                  H1 H2 H3 H4 H5)).
Defined.

(** A click on the toggle of a light page, on the storage of a first
    visit. *)
Lemma theme_survives_reload_witness :
  themeToggle {| body_dark := false; themeToggle := Some moon |} = Some moon
  /\ readable empty_storage = true
  /\ accepts empty_storage THEME_KEY (js "dark") = true
  /\ body_dark
       (initTheme
          (toggleTheme empty_storage
             {| body_dark := false; themeToggle := Some moon |}).1
          {| body_dark := false; themeToggle := Some [] |})
     = true.
Proof.
  assert (H1 : themeToggle {| body_dark := false; themeToggle := Some moon |}
               = Some moon) by reflexivity.
  assert (H2 : readable empty_storage = true) by reflexivity.
  assert (H3 : accepts empty_storage THEME_KEY (js "dark") = true)
    by reflexivity.
  refine (conj H1 (conj H2 (conj H3 _))).
  exact (proj2 (theme_survives_reload empty_storage
                  {| body_dark := false; themeToggle := Some moon |}
                  {| body_dark := false; themeToggle := Some [] |} moon
                  H1 H2 H3)).
Defined.

(** The first message of a visit. *)
Lemma request_carries_transcript_witness :
  isProcessing (with_userInput_value (js "hi") fresh_page) = false
  /\ chatHistory (with_userInput_value (js "hi") fresh_page)
     = transcript_json [welcome]
  /\ trim (userInput_value (with_userInput_value (js "hi") fresh_page)) <> []
  /\ exists body : jsstring,
       fetches
         (step plain_host (with_userInput_value (js "hi") fresh_page)
            UserSend)
       = fetches (with_userInput_value (js "hi") fresh_page) ++ [body]
       /\ JSON_parse body
          = Some (JObj
                    [(js "messages",
                      transcript_json
                        ([welcome]
                         ++ [{| role := User;
                                content :=
                                  trim
                                    (userInput_value
                                       (with_userInput_value (js "hi")
                                          fresh_page)) |}]))]).
Proof.
  assert (H1 : isProcessing (with_userInput_value (js "hi") fresh_page)
               = false) by reflexivity.
  assert (H2 : chatHistory (with_userInput_value (js "hi") fresh_page)
               = transcript_json [welcome]) by reflexivity.
  assert (H3 : trim (userInput_value
                       (with_userInput_value (js "hi") fresh_page)) <> [])
    by (vm_compute; discriminate).
  refine (conj H1 (conj H2 (conj H3 _))).
  destruct (request_carries_transcript plain_host _ [welcome] H1 H2 H3)
    as (body & Hb1 & Hb2 & _).
  exists body. split; assumption.
Defined.

(** A first visit in which a message is sent and answered. *)
Lemma conversation_survives_reload_witness :
  readable empty_storage = true
  /\ (forall k v, accepts empty_storage k v = true)
  /\ (items empty_storage !! STORAGE_KEY = None
      \/ exists t0 : list Message,
           items empty_storage !! STORAGE_KEY
           = Some (JSON_stringify plain_host (transcript_json t0)))
  /\ exists t : list Message,
       chatHistory
         (run plain_host (boot plain_host empty_storage [])
            (UserInput (js "hi")
             :: stream_events [jsq "{'response':'Hello'}" ++ [10]]))
       = transcript_json t
       /\ chatHistory
            (boot plain_host
               (localStorage
                  (run plain_host (boot plain_host empty_storage [])
                     (UserInput (js "hi")
                      :: stream_events [jsq "{'response':'Hello'}" ++ [10]])))
               [])
          = transcript_json t.
Proof.
  assert (H1 : readable empty_storage = true) by reflexivity.
  assert (H2 : forall k v, accepts empty_storage k v = true)
    by (intros k v; reflexivity).
  assert (H3 : items empty_storage !! STORAGE_KEY = None
               \/ exists t0 : list Message,
                    items empty_storage !! STORAGE_KEY
                    = Some (JSON_stringify plain_host (transcript_json t0)))
    by (left; reflexivity).
  refine (conj H1 (conj H2 (conj H3 _))).
  destruct (conversation_survives_reload plain_host empty_storage [] []
              (UserInput (js "hi")
               :: stream_events [jsq "{'response':'Hello'}" ++ [10]])
              H1 H2 H3) as (t & Ht1 & Ht2 & _).
  exists t. split; assumption.
Defined.

(** A message whose request the network rejects, then a second message. *)
Lemma fallback_becomes_context_witness :
  isProcessing fresh_page = false
  /\ suspended fresh_page = []
  /\ chatHistory fresh_page = transcript_json [welcome]
  /\ trim (js "hi") <> []
  /\ trim (js "again") <> []
  /\ exists body : jsstring,
       last
         (fetches
            (run plain_host fresh_page
               ((UserInput (js "hi") :: failure_events NetworkError)
                ++ [UserInput (js "again"); UserSend])))
       = Some body
       /\ JSON_parse body
          = Some (JObj
                    [(js "messages",
                      transcript_json
                        ([welcome]
                         ++ [{| role := User; content := trim (js "hi") |};
                             {| role := Assistant; content := errMsg |};
                             {| role := User;
                                content := trim (js "again") |}]))]).
Proof.
  assert (H1 : isProcessing fresh_page = false) by reflexivity.
  assert (H2 : suspended fresh_page = []) by reflexivity.
  assert (H3 : chatHistory fresh_page = transcript_json [welcome])
    by reflexivity.
  assert (H4 : trim (js "hi") <> []) by (vm_compute; discriminate).
  assert (H5 : trim (js "again") <> []) by (vm_compute; discriminate).
  refine (conj H1 (conj H2 (conj H3 (conj H4 (conj H5 _))))).
  exact (fallback_becomes_context plain_host fresh_page [welcome] (js "hi")
           (js "again") NetworkError H1 H2 H3 H4 H5).
Defined.

(** The two lines of [Hello], a chunk each. *)
Lemma chunks_of_whole_lines_witness :
  isProcessing fresh_page = false
  /\ suspended fresh_page = []
  /\ chatHistory fresh_page = JArr [message_json welcome]
  /\ trim (js "hi") <> []
  /\ Forall (fun c => c = [] \/ last c = Some 10)
       [jsq "{'response':'Hel'}" ++ [10]; jsq "{'response':'lo'}" ++ [10]]
  /\ chatHistory
       (run plain_host fresh_page
          (UserInput (js "hi")
           :: stream_events
                [jsq "{'response':'Hel'}" ++ [10];
                 jsq "{'response':'lo'}" ++ [10]]))
     = chatHistory
         (run plain_host fresh_page
            (UserInput (js "hi")
             :: stream_events
                  [concat
                     [jsq "{'response':'Hel'}" ++ [10];
                      jsq "{'response':'lo'}" ++ [10]]])).
Proof.
  assert (H1 : isProcessing fresh_page = false) by reflexivity.
  assert (H2 : suspended fresh_page = []) by reflexivity.
  assert (H3 : chatHistory fresh_page = JArr [message_json welcome])
    by reflexivity.
  assert (H4 : trim (js "hi") <> []) by (vm_compute; discriminate).
  assert (H5 : Forall (fun c => c = [] \/ last c = Some 10)
                 [jsq "{'response':'Hel'}" ++ [10];
                  jsq "{'response':'lo'}" ++ [10]])
    by (repeat constructor; right; vm_compute; reflexivity).
  refine (conj H1 (conj H2 (conj H3 (conj H4 (conj H5 _))))).
  exact (proj1 (chunks_of_whole_lines plain_host fresh_page _ (js "hi") _
                  H1 H2 H3 H4 H5)).
Defined.
